(** * The OIDC provider's management plane

    A shallow embedding of the four management Lambda handlers
    (management-user, management-client, management-application,
    management-user-application) and of the helper module [utils.js] they
    share, followed by the properties the specification states about them
    and by further properties that the code has: what is rejected and what
    is stored, what a request leaves alone, and the invariants the handlers
    keep.

    - JavaScript values are the inductive type [JS.value]; objects keep
      their properties in insertion order.
    - The two AWS services the code talks to are part of an explicit
      [world]: the DynamoDB tables (lists of items), the two SSM parameters,
      the clock, the entropy consumed so far, the module-level issuer cache
      of [utils.js], and the log of service calls made. The clock stands
      still during a call: time passes between calls ([with_clock]).
    - [async] functions are computations of the state-and-exception monad
      [M]; [await] is its bind, [throw] and [try/catch] are [throw] and
      [try_catch].
    - What the Node runtime and the npm packages compute (JSON, URL parsing,
      uuid, RSA key generation, bcrypt, jsonwebtoken) is the interface
      [Platform]; the code is modelled over any implementation of it. The
      random text of an authorization code is the interface [Randomness]. *)

From Stdlib Require Import ZArith String Ascii List Bool Lia DecimalString.
Import ListNotations.
Local Open Scope list_scope.
Local Open Scope string_scope.
Set Warnings "-register-all".

(** ** JavaScript values *)

Module JS.

Inductive value : Type :=
| VUndefined
| VNull
| VBool (b : bool)
| VNum (n : Z)
| VStr (s : string)
| VArr (elems : list value)
| VObj (props : list (string * value)).

(** The own properties of an object, in insertion order. *)
Definition obj : Type := list (string * value).

(** Decimal rendering of an integer, as [String(n)] gives it. *)
Definition dec (n : Z) : string := NilZero.string_of_int (Z.to_int n).

(** [!!v]. Numbers are integers in this model, so [NaN] does not occur. *)
Definition truthy (v : value) : bool :=
  match v with
  | VUndefined | VNull => false
  | VBool b => b
  | VNum n => negb (n =? 0)%Z
  | VStr s => negb (s =? "")
  | VArr _ | VObj _ => true
  end.

(** [a || b]. *)
Definition or_else (a b : value) : value := if truthy a then a else b.

(** A parameter with a default value: the default replaces [undefined]. *)
Definition default_to (v d : value) : value :=
  match v with
  | VUndefined => d
  | _ => v
  end.

(** [o[k]] on the own properties; [undefined] when absent. *)
Fixpoint obj_get (o : obj) (k : string) : value :=
  match o with
  | [] => VUndefined
  | (k', v) :: o' => if k =? k' then v else obj_get o' k
  end.

Fixpoint obj_has (o : obj) (k : string) : bool :=
  match o with
  | [] => false
  | (k', _) :: o' => (k =? k') || obj_has o' k
  end.

(** [o[k] = v]: an existing property keeps its place, a new one goes last. *)
Fixpoint obj_set (o : obj) (k : string) (v : value) : obj :=
  match o with
  | [] => [(k, v)]
  | (k', v') :: o' =>
      if k =? k' then (k', v) :: o' else (k', v') :: obj_set o' k v
  end.

(** [delete o[k]]. *)
Fixpoint obj_delete (o : obj) (k : string) : obj :=
  match o with
  | [] => []
  | (k', v) :: o' =>
      if k =? k' then obj_delete o' k else (k', v) :: obj_delete o' k
  end.

(** [{ ...target, ...src }]: the properties of [src] are assigned in order. *)
Definition spread (target src : obj) : obj :=
  fold_left (fun acc kv => obj_set acc (fst kv) (snd kv)) src target.

(** [Object.keys(o)]. *)
Definition keys (o : obj) : list string := map fst o.

(** Every property name occurs once, as in any JavaScript object. *)
Definition well_formed (o : obj) : Prop := NoDup (keys o).

(** [String(v)], the conversion a template literal and [RegExp.test] apply. *)
Fixpoint to_string (v : value) : string :=
  match v with
  | VUndefined => "undefined"
  | VNull => "null"
  | VBool true => "true"
  | VBool false => "false"
  | VNum n => dec n
  | VStr s => s
  | VArr l =>
      (fix join (l : list value) : string :=
         match l with
         | [] => ""
         | x :: rest =>
             let item :=
               match x with
               | VUndefined | VNull => ""
               | _ => to_string x
               end in
             match rest with
             | [] => item
             | _ :: _ => item ++ "," ++ join rest
             end
         end) l
  | VObj _ => "[object Object]"
  end.

(** [v === s] for a string literal [s], the comparison a [switch] makes. *)
Definition is_string (v : value) (s : string) : bool :=
  match v with
  | VStr x => x =? s
  | _ => false
  end.

(** [v.length]: [None] stands for the TypeError on [null] and [undefined]. *)
Definition length_of (v : value) : option value :=
  match v with
  | VUndefined | VNull => None
  | VStr s => Some (VNum (Z.of_nat (String.length s)))
  | VArr l => Some (VNum (Z.of_nat (List.length l)))
  | VObj o => Some (obj_get o "length")
  | VBool _ | VNum _ => Some VUndefined
  end.

(** [v.k] for a property that no prototype defines: [None] stands for the
    TypeError on [null] and [undefined]. *)
Definition member (v : value) (k : string) : option value :=
  match v with
  | VUndefined | VNull => None
  | VObj o => Some (obj_get o k)
  | _ => Some VUndefined
  end.

(** [Array.isArray(v)]. *)
Definition isArray (v : value) : bool :=
  match v with
  | VArr _ => true
  | _ => false
  end.

Definition elements (v : value) : list value :=
  match v with
  | VArr l => l
  | _ => []
  end.

End JS.
Export JS.

(** ** Regular expressions

    The validation patterns of the handlers are matched by Brzozowski
    derivatives. Strings are sequences of 8-bit code units. *)

Module Regex.

Inductive re : Type :=
| Void
| Eps
| Class (p : ascii -> bool)
| Seq (a b : re)
| Alt (a b : re)
| Rep (a : re) (lo : nat) (hi : option nat).

Fixpoint nullable (r : re) : bool :=
  match r with
  | Void => false
  | Eps => true
  | Class _ => false
  | Seq a b => nullable a && nullable b
  | Alt a b => nullable a || nullable b
  | Rep a lo _ => Nat.eqb lo 0 || nullable a
  end.

Definition seq (a b : re) : re :=
  match a, b with
  | Void, _ => Void
  | _, Void => Void
  | Eps, _ => b
  | _, Eps => a
  | _, _ => Seq a b
  end.

Definition alt (a b : re) : re :=
  match a, b with
  | Void, _ => b
  | _, Void => a
  | _, _ => Alt a b
  end.

Fixpoint deriv (c : ascii) (r : re) : re :=
  match r with
  | Void | Eps => Void
  | Class p => if p c then Eps else Void
  | Seq a b =>
      if nullable a then alt (seq (deriv c a) b) (deriv c b)
      else seq (deriv c a) b
  | Alt a b => alt (deriv c a) (deriv c b)
  | Rep a lo hi =>
      match hi with
      | Some O => Void
      | Some (S h) => seq (deriv c a) (Rep a (pred lo) (Some h))
      | None => seq (deriv c a) (Rep a (pred lo) None)
      end
  end.

(** [/^r$/.test(s)]. *)
Fixpoint matches (r : re) (s : string) : bool :=
  match s with
  | EmptyString => nullable r
  | String c s' => matches (deriv c r) s'
  end.

Definition code (c : ascii) : nat := nat_of_ascii c.

Definition in_range (lo hi : ascii) (c : ascii) : bool :=
  Nat.leb (code lo) (code c) && Nat.leb (code c) (code hi).

(** [[a-zA-Z0-9_-]] *)
Definition word_dash (c : ascii) : bool :=
  in_range "a" "z" c || in_range "A" "Z" c || in_range "0" "9" c
  || Ascii.eqb c "_" || Ascii.eqb c "-".

(** [\s] on 8-bit code units: tab, line feed, vertical tab, form feed,
    carriage return, space and the no-break space. *)
Definition space (c : ascii) : bool :=
  in_range "009" "013" c || Ascii.eqb c " " || Ascii.eqb c "160".

(** [[^\s@]] *)
Definition not_space_at (c : ascii) : bool :=
  negb (space c || Ascii.eqb c "@").

Definition plus (a : re) : re := Rep a 1 None.

Definition lit (c : ascii) : re := Class (Ascii.eqb c).

(** [/^[a-zA-Z0-9_-]{3,50}$/] *)
Definition username_format : re := Rep (Class word_dash) 3 (Some 50%nat).

(** [/^[a-zA-Z0-9_-]{3,100}$/] *)
Definition identifier_format : re := Rep (Class word_dash) 3 (Some 100%nat).

(** [/^[^\s@]+@[^\s@]+\.[^\s@]+$/] *)
Definition email_format : re :=
  Seq (plus (Class not_space_at))
    (Seq (lit "@")
       (Seq (plus (Class not_space_at))
          (Seq (lit ".") (plus (Class not_space_at))))).

(** [re.test(v)]: the argument is converted to a string first. *)
Definition test (r : re) (v : value) : bool := matches r (to_string v).

End Regex.

(** ** Exceptions, the platform and the world *)

(** A thrown [Error]: its [name] and its [message]. *)
Record error : Type := { error_name : string; error_message : string }.

(** [new Error(msg)] *)
Definition Error (msg : string) : error :=
  {| error_name := "Error"; error_message := msg |}.

Inductive outcome (A : Type) : Type :=
| Return (a : A)
| Throw (e : error).
Arguments Return {A} a.
Arguments Throw {A} e.

(** What the Node runtime and the npm packages compute. Random choices are
    functions of the entropy consumed so far, the clock is an argument. *)
Class Platform : Type := {
  (** [new Date(ms).toISOString()] *)
  Date_toISOString : Z -> string;
  (** [JSON.stringify(v)] *)
  JSON_stringify : value -> string;
  (** [JSON.parse(s)]; [None] when it throws a SyntaxError *)
  JSON_parse : string -> option value;
  (** [Number(s)]; [None] for [NaN] *)
  Number_of_string : string -> option Z;
  (** [new URL(s).protocol]; [None] when the constructor throws *)
  URL_protocol : string -> option string;
  (** [uuid.v4()] *)
  uuid_v4 : nat -> string;
  (** [crypto.generateKeyPair('rsa', { modulusLength, spki/pkcs8 pem })]:
      the public and the private key *)
  crypto_generateKeyPair : Z -> nat -> string * string;
  (** [bcrypt.hash(data, rounds)] on a string, with the salt drawn *)
  bcrypt_digest : string -> Z -> nat -> string;
  (** [bcrypt.compare(data, hash)] on strings *)
  bcrypt_matches : string -> string -> bool;
  (** a signed token *)
  jwt_token : Type;
  (** [jwt.sign(payload, key, { algorithm, expiresIn, keyid, issuer })] at
      a clock reading *)
  jsonwebtoken_sign :
    value -> value -> string -> value -> value -> value -> Z ->
    outcome jwt_token;
  (** [jwt.verify(token, key, { algorithms, issuer })] at a clock reading *)
  jsonwebtoken_verify :
    jwt_token -> value -> list string -> value -> Z -> outcome value;
  (** the instant, in milliseconds, from which a token counts as expired *)
  jwt_expiry : jwt_token -> Z
}.

(** The DynamoDB tables of [TABLES]. *)
Inductive table : Type :=
| users | clients | authCodes | refreshTokens | applications | userApplications.

(** The primary key attributes of each table. *)
Definition table_key (t : table) : list string :=
  match t with
  | users => ["user_id"]
  | clients => ["client_id"]
  | authCodes => ["code"]
  | refreshTokens => ["token_id"]
  | applications => ["application_id"]
  | userApplications => ["user_id"; "application_id"]
  end.

Record database : Type := {
  USERS_TABLE : list obj;
  CLIENTS_TABLE : list obj;
  AUTH_CODES_TABLE : list obj;
  REFRESH_TOKENS_TABLE : list obj;
  APPLICATIONS_TABLE : list obj;
  USER_APPLICATIONS_TABLE : list obj
}.

Definition items (t : table) (d : database) : list obj :=
  match t with
  | users => USERS_TABLE d
  | clients => CLIENTS_TABLE d
  | authCodes => AUTH_CODES_TABLE d
  | refreshTokens => REFRESH_TOKENS_TABLE d
  | applications => APPLICATIONS_TABLE d
  | userApplications => USER_APPLICATIONS_TABLE d
  end.

Definition with_items (t : table) (l : list obj) (d : database) : database :=
  match t with
  | users =>
      {| USERS_TABLE := l; CLIENTS_TABLE := CLIENTS_TABLE d;
         AUTH_CODES_TABLE := AUTH_CODES_TABLE d;
         REFRESH_TOKENS_TABLE := REFRESH_TOKENS_TABLE d;
         APPLICATIONS_TABLE := APPLICATIONS_TABLE d;
         USER_APPLICATIONS_TABLE := USER_APPLICATIONS_TABLE d |}
  | clients =>
      {| USERS_TABLE := USERS_TABLE d; CLIENTS_TABLE := l;
         AUTH_CODES_TABLE := AUTH_CODES_TABLE d;
         REFRESH_TOKENS_TABLE := REFRESH_TOKENS_TABLE d;
         APPLICATIONS_TABLE := APPLICATIONS_TABLE d;
         USER_APPLICATIONS_TABLE := USER_APPLICATIONS_TABLE d |}
  | authCodes =>
      {| USERS_TABLE := USERS_TABLE d; CLIENTS_TABLE := CLIENTS_TABLE d;
         AUTH_CODES_TABLE := l;
         REFRESH_TOKENS_TABLE := REFRESH_TOKENS_TABLE d;
         APPLICATIONS_TABLE := APPLICATIONS_TABLE d;
         USER_APPLICATIONS_TABLE := USER_APPLICATIONS_TABLE d |}
  | refreshTokens =>
      {| USERS_TABLE := USERS_TABLE d; CLIENTS_TABLE := CLIENTS_TABLE d;
         AUTH_CODES_TABLE := AUTH_CODES_TABLE d;
         REFRESH_TOKENS_TABLE := l;
         APPLICATIONS_TABLE := APPLICATIONS_TABLE d;
         USER_APPLICATIONS_TABLE := USER_APPLICATIONS_TABLE d |}
  | applications =>
      {| USERS_TABLE := USERS_TABLE d; CLIENTS_TABLE := CLIENTS_TABLE d;
         AUTH_CODES_TABLE := AUTH_CODES_TABLE d;
         REFRESH_TOKENS_TABLE := REFRESH_TOKENS_TABLE d;
         APPLICATIONS_TABLE := l;
         USER_APPLICATIONS_TABLE := USER_APPLICATIONS_TABLE d |}
  | userApplications =>
      {| USERS_TABLE := USERS_TABLE d; CLIENTS_TABLE := CLIENTS_TABLE d;
         AUTH_CODES_TABLE := AUTH_CODES_TABLE d;
         REFRESH_TOKENS_TABLE := REFRESH_TOKENS_TABLE d;
         APPLICATIONS_TABLE := APPLICATIONS_TABLE d;
         USER_APPLICATIONS_TABLE := l |}
  end.

(** The two SSM parameters, named by the environment variables that hold
    their names; [None] when the parameter does not exist. *)
Inductive parameter : Type := ISSUER_URL_PARAM_NAME | JWT_KEYS_PARAM_NAME.

Record parameters : Type := {
  issuer_url_param : option string;
  jwt_keys_param : option string
}.

Definition parameter_value (p : parameter) (s : parameters) : option string :=
  match p with
  | ISSUER_URL_PARAM_NAME => issuer_url_param s
  | JWT_KEYS_PARAM_NAME => jwt_keys_param s
  end.

Definition with_parameter (p : parameter) (v : string) (s : parameters)
  : parameters :=
  match p with
  | ISSUER_URL_PARAM_NAME =>
      {| issuer_url_param := Some v; jwt_keys_param := jwt_keys_param s |}
  | JWT_KEYS_PARAM_NAME =>
      {| issuer_url_param := issuer_url_param s; jwt_keys_param := Some v |}
  end.

(** The commands sent to the two service clients. *)
Inductive command : Type :=
| GetCommand (t : table) (key : obj)
| PutCommand (t : table) (item : obj)
| QueryCommand (t : table) (indexName keyCondition : string) (values : obj)
| DeleteCommand (t : table) (key : obj)
| GetParameterCommand (p : parameter)
| PutParameterCommand (p : parameter) (v : string).

Definition is_write (c : command) : bool :=
  match c with
  | PutCommand _ _ | DeleteCommand _ _ | PutParameterCommand _ _ => true
  | _ => false
  end.

Record world : Type := {
  (** the key-value store *)
  db : database;
  (** the parameter store *)
  ssm : parameters;
  (** [Date.now()] *)
  clock : Z;
  (** random draws made so far *)
  entropy : nat;
  (** [let cachedIssuerUrl], [let cacheTimestamp] of utils.js *)
  cachedIssuerUrl : value;
  cacheTimestamp : value;
  (** commands sent so far, oldest first *)
  sent : list command
}.

Definition with_db (d : database) (w : world) : world :=
  {| db := d; ssm := ssm w; clock := clock w; entropy := entropy w;
     cachedIssuerUrl := cachedIssuerUrl w; cacheTimestamp := cacheTimestamp w;
     sent := sent w |}.

Definition with_ssm (s : parameters) (w : world) : world :=
  {| db := db w; ssm := s; clock := clock w; entropy := entropy w;
     cachedIssuerUrl := cachedIssuerUrl w; cacheTimestamp := cacheTimestamp w;
     sent := sent w |}.

Definition with_clock (t : Z) (w : world) : world :=
  {| db := db w; ssm := ssm w; clock := t; entropy := entropy w;
     cachedIssuerUrl := cachedIssuerUrl w; cacheTimestamp := cacheTimestamp w;
     sent := sent w |}.

Definition with_entropy (n : nat) (w : world) : world :=
  {| db := db w; ssm := ssm w; clock := clock w; entropy := n;
     cachedIssuerUrl := cachedIssuerUrl w; cacheTimestamp := cacheTimestamp w;
     sent := sent w |}.

Definition with_cache (url ts : value) (w : world) : world :=
  {| db := db w; ssm := ssm w; clock := clock w; entropy := entropy w;
     cachedIssuerUrl := url; cacheTimestamp := ts; sent := sent w |}.

Definition with_sent (c : command) (w : world) : world :=
  {| db := db w; ssm := ssm w; clock := clock w; entropy := entropy w;
     cachedIssuerUrl := cachedIssuerUrl w; cacheTimestamp := cacheTimestamp w;
     sent := (sent w ++ [c])%list |}.

(** ** The monad of [async] functions *)

Definition M (A : Type) : Type := world -> outcome A * world.

Definition ret {A} (a : A) : M A := fun w => (Return a, w).

Definition throw {A} (e : error) : M A := fun w => (Throw e, w).

Definition bind {A B} (m : M A) (k : A -> M B) : M B :=
  fun w =>
    match m w with
    | (Return a, w') => k a w'
    | (Throw e, w') => (Throw e, w')
    end.

(** [try { m } catch (error) { h error }] *)
Definition try_catch {A} (m : M A) (h : error -> M A) : M A :=
  fun w =>
    match m w with
    | (Return a, w') => (Return a, w')
    | (Throw e, w') => h e w'
    end.

(** Reading and updating the state. *)
Definition read {A} (f : world -> A) : M A := fun w => (Return (f w), w).

Definition modify (f : world -> world) : M unit := fun w => (Return tt, f w).

Notation "x <- m ;; k" := (bind m (fun x => k))
  (at level 61, m at next level, right associativity).
Notation "m ;;; k" := (bind m (fun _ => k))
  (at level 61, right associativity).

(** ** utils.js *)

Section Utils.
Context {P : Platform}.

(** *** The clients of the two services

    A table is the list of its items. Key attributes are strings or numbers
    and two items are the same item when their key attributes agree. Service
    failures other than a missing parameter (throttling, schema validation,
    access denial) are outside the model. *)

Definition scalar_eqb (a b : value) : bool :=
  match a, b with
  | VStr x, VStr y => x =? y
  | VNum x, VNum y => (x =? y)%Z
  | _, _ => false
  end.

(** The item has the attribute values of [key]. *)
Definition has_key (key item : obj) : bool :=
  forallb (fun kv => scalar_eqb (obj_get item (fst kv)) (snd kv)) key.

(** Two items of a table with key schema [ks] have the same primary key. *)
Definition same_key (ks : list string) (a b : obj) : bool :=
  forallb (fun k => scalar_eqb (obj_get a k) (obj_get b k)) ks.

(** PutItem: a full overwrite of the item with the same key, else a new item. *)
Fixpoint put (ks : list string) (item : obj) (l : list obj) : list obj :=
  match l with
  | [] => [item]
  | i :: rest =>
      if same_key ks i item then item :: rest else i :: put ks item rest
  end.

(** A key condition [attr = :placeholder]. *)
Definition key_condition (c : string) : option (string * string) :=
  match index 0 " = " c with
  | Some n =>
      Some (substring 0 n c,
            substring (n + 3) (String.length c - (n + 3)) c)
  | None => None
  end.

Definition Date_now : M Z := read clock.

(** [new Date().toISOString()] *)
Definition now_ISO : M value :=
  now <- Date_now ;; ret (VStr (Date_toISOString now)).

(** One random draw. *)
Definition draw : M nat :=
  n <- read entropy ;; modify (with_entropy (S n)) ;;; ret n.

Definition send (c : command) : M unit := modify (with_sent c).

Definition getItem (tableName : table) (key : obj) : M value :=
  send (GetCommand tableName key) ;;;
  found <- read (fun w => find (has_key key) (items tableName (db w))) ;;
  ret match found with
      | Some item => VObj item
      | None => VUndefined
      end.

Definition putItem (tableName : table) (item : obj) : M unit :=
  send (PutCommand tableName item) ;;;
  modify (fun w =>
            with_db (with_items tableName
                       (put (table_key tableName) item
                          (items tableName (db w)))
                       (db w)) w).

Definition queryItems (tableName : table) (indexName keyCondition : string)
  (expressionAttributeValues : obj) : M (list obj) :=
  send (QueryCommand tableName indexName keyCondition
          expressionAttributeValues) ;;;
  match key_condition keyCondition with
  | Some (attr, placeholder) =>
      read (fun w =>
              filter
                (fun item =>
                   scalar_eqb (obj_get item attr)
                     (obj_get expressionAttributeValues placeholder))
                (items tableName (db w)))
  | None =>
      throw {| error_name := "ValidationException";
               error_message := "Invalid KeyConditionExpression" |}
  end.


(** [ssmClient.send(new GetParameterCommand(...))] and
    [response.Parameter.Value]. *)
Definition GetParameter (p : parameter) : M string :=
  send (GetParameterCommand p) ;;;
  stored <- read (fun w => parameter_value p (ssm w)) ;;
  match stored with
  | Some v => ret v
  | None =>
      throw {| error_name := "ParameterNotFound";
               error_message := "Parameter not found" |}
  end.

(** [ssmClient.send(new PutParameterCommand({ ..., Overwrite: true }))] *)
Definition PutParameter (p : parameter) (v : string) : M unit :=
  send (PutParameterCommand p v) ;;;
  modify (fun w => with_ssm (with_parameter p v (ssm w)) w).

(** *** Library calls *)

(** [Number(v)]; [None] for [NaN]. *)
Definition to_number (v : value) : option Z :=
  match v with
  | VUndefined => None
  | VNull => Some 0%Z
  | VBool b => Some (if b then 1 else 0)%Z
  | VNum n => Some n
  | VStr s => Number_of_string s
  | VArr _ => Number_of_string (to_string v)
  | VObj _ => None
  end.

(** [v < n] for a number literal [n]. *)
Definition less_than (v : value) (n : Z) : bool :=
  match to_number v with
  | Some x => (x <? n)%Z
  | None => false
  end.

(** Calling a function of three parameters: missing arguments are
    [undefined], further arguments are dropped. *)
Definition call3 {A} (f : value -> value -> value -> A) (args : list value)
  : A :=
  f (nth 0 args VUndefined) (nth 1 args VUndefined) (nth 2 args VUndefined).

Definition TypeError (msg : string) : error :=
  {| error_name := "TypeError"; error_message := msg |}.

(** [v.k], throwing on [null] and [undefined]. *)
Definition get (v : value) (k : string) : M value :=
  match member v k with
  | Some x => ret x
  | None =>
      throw (TypeError ("Cannot read properties of " ++ to_string v))
  end.

(** [v.length], throwing on [null] and [undefined]. *)
Definition get_length (v : value) : M value :=
  match length_of v with
  | Some x => ret x
  | None =>
      throw (TypeError ("Cannot read properties of " ++ to_string v))
  end.

Definition JSON_parse_text (s : string) : M value :=
  match JSON_parse s with
  | Some v => ret v
  | None =>
      throw {| error_name := "SyntaxError";
               error_message := "Unexpected token in JSON" |}
  end.

Definition uuidv4 : M string := n <- draw ;; ret (uuid_v4 n).

(** [bcrypt.hash(data, rounds)]: the package rejects data that is not a
    string. *)
Definition bcrypt_hash (data : value) (rounds : Z) : M string :=
  match data with
  | VStr s => n <- draw ;; ret (bcrypt_digest s rounds n)
  | _ =>
      throw (Error "data must be a string or Buffer and salt must either be a salt string or a number of rounds")
  end.

(** [bcrypt.compare(data, hash)]: the package rejects arguments that are
    not strings. *)
Definition bcrypt_compare (data hash : value) : M bool :=
  match data, hash with
  | VStr s, VStr h => ret (bcrypt_matches s h)
  | _, _ => throw (Error "data and hash must be strings")
  end.

Definition jwt_sign (payload key : value) (algorithm : string)
  (expiresIn keyid issuer : value) : M jwt_token :=
  fun w =>
    (jsonwebtoken_sign payload key algorithm expiresIn keyid issuer (clock w),
     w).

Definition jwt_verify (token : jwt_token) (key : value)
  (algorithms : list string) (issuer : value) : M value :=
  fun w => (jsonwebtoken_verify token key algorithms issuer (clock w), w).

(** *** Issuer URL *)

Definition CACHE_TTL_MS : Z := 5 * 60 * 1000.

Definition cache_valid (now : Z) (w : world) : bool :=
  truthy (cachedIssuerUrl w) && truthy (cacheTimestamp w)
  && match cacheTimestamp w with
     | VNum ts => (now - ts <? CACHE_TTL_MS)%Z
     | _ => false
     end.

Definition getIssuerUrl : M value :=
  now <- Date_now ;;
  valid <- read (cache_valid now) ;;
  if valid then read cachedIssuerUrl
  else
    try_catch
      (response <- GetParameter ISSUER_URL_PARAM_NAME ;;
       modify (with_cache (VStr response) (VNum now)) ;;;
       read cachedIssuerUrl)
      (fun error =>
         if error_name error =? "ParameterNotFound" then
           throw (Error "OIDC issuer URL parameter not found in SSM")
         else if error_name error =? "AccessDeniedException" then
           throw (Error "Access denied to OIDC issuer URL parameter")
         else
           throw (Error ("Failed to retrieve OIDC issuer URL: "
                         ++ error_message error))).

(** *** Signing keys *)

Definition generateKeyPair : M (string * string) :=
  n <- draw ;; ret (crypto_generateKeyPair 2048 n).

(** The structure [{ private_key, public_key, kid, alg }]. *)
Definition key_structure (privateKey publicKey kid : string) : obj :=
  [("private_key", VStr privateKey); ("public_key", VStr publicKey);
   ("kid", VStr kid); ("alg", VStr "RS256")].

Definition getSigningKeys : M value :=
  try_catch
    (response <- GetParameter JWT_KEYS_PARAM_NAME ;;
     keys <- JSON_parse_text response ;;
     private_key <- get keys "private_key" ;;
     incomplete <-
       (if negb (truthy private_key) then ret true
        else public_key <- get keys "public_key" ;;
             ret (negb (truthy public_key))) ;;
     if incomplete then
       pair <- generateKeyPair ;;
       kid <- uuidv4 ;;
       let newKeys := key_structure (snd pair) (fst pair) kid in
       let keysJson := JSON_stringify (VObj newKeys) in
       if (4096 <? Z.of_nat (String.length keysJson))%Z then
         throw (Error ("JWT keys too large for SSM parameter: "
                       ++ dec (Z.of_nat (String.length keysJson))
                       ++ " bytes (max 4096)"))
       else
         PutParameter JWT_KEYS_PARAM_NAME keysJson ;;;
         ret (VObj newKeys)
     else ret keys)
    (fun error => throw error).

(** *** Tokens *)

Definition createJWT (payload expiresIn : value) : M jwt_token :=
  let expiresIn := default_to expiresIn (VStr "1h") in
  keys <- getSigningKeys ;;
  issuerUrl <- getIssuerUrl ;;
  private_key <- get keys "private_key" ;;
  kid <- get keys "kid" ;;
  jwt_sign payload private_key "RS256" expiresIn kid issuerUrl.

Definition verifyJWT (token : jwt_token) : M value :=
  keys <- getSigningKeys ;;
  issuerUrl <- getIssuerUrl ;;
  public_key <- get keys "public_key" ;;
  jwt_verify token public_key ["RS256"] issuerUrl.

(** *** Users *)

Definition getUserById (userId : value) : M value :=
  getItem users [("user_id", userId)].

Definition getUserByUsername (username : value) : M value :=
  found <- queryItems users "username-index" "username = :username"
             [(":username", username)] ;;
  ret match found with
      | item :: _ => VObj item
      | [] => VNull
      end.

Definition createUser (username password email : value) : M obj :=
  userId <- uuidv4 ;;
  passwordHash <- bcrypt_hash password 10 ;;
  created_at <- now_ISO ;;
  updated_at <- now_ISO ;;
  let user :=
    [("user_id", VStr userId); ("username", username);
     ("password_hash", VStr passwordHash); ("email", email);
     ("email_verified", VBool false); ("created_at", created_at);
     ("updated_at", updated_at)] in
  putItem users user ;;;
  ret user.

Definition verifyUserPassword (username password : value) : M value :=
  user <- getUserByUsername username ;;
  if negb (truthy user) then ret VNull
  else
    password_hash <- get user "password_hash" ;;
    isValid <- bcrypt_compare password password_hash ;;
    if negb isValid then ret VNull else ret user.

Definition updateUserPassword (userId newPassword : value) : M value :=
  user <- getUserById userId ;;
  match user with
  | VObj fields =>
      passwordHash <- bcrypt_hash newPassword 10 ;;
      updated_at <- now_ISO ;;
      let user :=
        obj_set (obj_set fields "password_hash" (VStr passwordHash))
          "updated_at" updated_at in
      putItem users user ;;;
      ret (VObj user)
  | _ => ret VNull
  end.

(** *** Responses

    [createResponse] is never given its optional [headers], so the headers
    are the four fixed ones. [createErrorResponse] takes its status, 400
    by default, explicitly. *)

Record response : Type := {
  statusCode : Z;
  headers : list (string * string);
  body : string
}.

Definition createResponse (status : Z) (content : value) : response :=
  {| statusCode := status;
     headers :=
       [("Content-Type", "application/json");
        ("Access-Control-Allow-Origin", "*");
        ("Access-Control-Allow-Headers", "Content-Type,Authorization");
        ("Access-Control-Allow-Methods", "GET,POST,OPTIONS")];
     body := JSON_stringify content |}.

Definition createErrorResponse (error description : string) (status : Z)
  : response :=
  createResponse status
    (VObj [("error", VStr error); ("error_description", VStr description)]).

(** *** Clients *)

Definition getClientById (clientId : value) : M value :=
  getItem clients [("client_id", clientId)].

Definition createClient
  (clientId clientSecret redirectUris name description : value) : M obj :=
  let description := default_to description (VStr "") in
  created_at <- now_ISO ;;
  updated_at <- now_ISO ;;
  let client :=
    [("client_id", clientId); ("client_secret", clientSecret);
     ("redirect_uris", redirectUris); ("name", name);
     ("description", description); ("created_at", created_at);
     ("updated_at", updated_at)] in
  putItem clients client ;;;
  ret client.

Definition updateClient (clientId : value) (updates : obj) : M obj :=
  client <- getClientById clientId ;;
  match client with
  | VObj client =>
      updated_at <- now_ISO ;;
      let updatedClient :=
        obj_set (obj_set (spread (spread [] client) updates)
                   "client_id" clientId)
          "updated_at" updated_at in
      putItem clients updatedClient ;;;
      ret updatedClient
  | _ => throw (Error "Client not found")
  end.

(** *** Applications *)

Definition getApplicationById (applicationId : value) : M value :=
  getItem applications [("application_id", applicationId)].

Definition createApplication
  (applicationId clientId name description account : value) : M obj :=
  let description := default_to description (VStr "") in
  let account := default_to account (VStr "") in
  appId <- (if truthy applicationId then ret applicationId
            else id <- uuidv4 ;; ret (VStr id)) ;;
  created_at <- now_ISO ;;
  updated_at <- now_ISO ;;
  let application :=
    [("application_id", appId); ("client_id", clientId); ("name", name);
     ("description", description); ("account", account);
     ("created_at", created_at); ("updated_at", updated_at)] in
  putItem applications application ;;;
  ret application.

Definition updateApplication (applicationId : value) (updates : obj) : M obj :=
  application <- getApplicationById applicationId ;;
  match application with
  | VObj application =>
      updated_at <- now_ISO ;;
      let updatedApplication :=
        obj_set (obj_set (spread (spread [] application) updates)
                   "application_id" applicationId)
          "updated_at" updated_at in
      putItem applications updatedApplication ;;;
      ret updatedApplication
  | _ => throw (Error "Application not found")
  end.

(** *** User-application mappings *)

Definition getUserApplication (userId applicationId : value) : M value :=
  getItem userApplications
    [("user_id", userId); ("application_id", applicationId)].

Definition createUserApplication (userId applicationId account : value)
  : M obj :=
  let account := default_to account (VStr "") in
  created_at <- now_ISO ;;
  updated_at <- now_ISO ;;
  let userApplication :=
    [("user_id", userId); ("application_id", applicationId);
     ("account", account); ("created_at", created_at);
     ("updated_at", updated_at)] in
  putItem userApplications userApplication ;;;
  ret userApplication.

Definition updateUserApplication (userId applicationId : value)
  (updates : obj) : M obj :=
  userApplication <- getUserApplication userId applicationId ;;
  match userApplication with
  | VObj userApplication =>
      updated_at <- now_ISO ;;
      let updatedUserApplication :=
        obj_set (obj_set (obj_set
                            (spread (spread [] userApplication) updates)
                            "user_id" userId)
                   "application_id" applicationId)
          "updated_at" updated_at in
      putItem userApplications updatedUserApplication ;;;
      ret updatedUserApplication
  | _ => throw (Error "User-application mapping not found")
  end.

End Utils.

(** ** utils.js: the helpers of the authorization and token endpoints *)

(** [crypto.randomBytes(size).toString('base64url')], a function of the
    entropy consumed so far. *)
Class Randomness : Type := {
  crypto_randomBytes_base64url : nat -> nat -> string
}.

(** [a === b]. Objects and arrays are compared by identity, and where the
    code compares, one side has just been read from the store: the two are
    never the same object. *)
Definition strict_equal (a b : value) : bool :=
  match a, b with
  | VUndefined, VUndefined => true
  | VNull, VNull => true
  | VBool x, VBool y => Bool.eqb x y
  | VNum x, VNum y => (x =? y)%Z
  | VStr x, VStr y => x =? y
  | _, _ => false
  end.

(** [haystack.includes(needle)]: membership in an array, a substring test
    on a string, a TypeError on everything else. *)
Definition includes (haystack needle : value) : M bool :=
  match haystack with
  | VArr elems => ret (existsb (fun x => strict_equal x needle) elems)
  | VStr s =>
      ret match index 0 (to_string needle) s with
          | Some _ => true
          | None => false
          end
  | VUndefined | VNull =>
      throw (TypeError ("Cannot read properties of " ++ to_string haystack))
  | _ => throw (TypeError "client.redirect_uris.includes is not a function")
  end.

Section Endpoints.
Context {P : Platform} {E : Randomness}.


(** *** Clients *)

Definition validateClient (clientId clientSecret redirectUri : value)
  : M value :=
  let clientSecret := default_to clientSecret VNull in
  let redirectUri := default_to redirectUri VNull in
  client <- getClientById clientId ;;
  if negb (truthy client) then ret VNull
  else
    wrong_secret <-
      (if truthy clientSecret then
         client_secret <- get client "client_secret" ;;
         ret (negb (strict_equal client_secret clientSecret))
       else ret false) ;;
    if wrong_secret then ret VNull
    else
      unregistered <-
        (if truthy redirectUri then
           redirect_uris <- get client "redirect_uris" ;;
           listed <- includes redirect_uris redirectUri ;;
           ret (negb listed)
         else ret false) ;;
      if unregistered then ret VNull else ret client.

(** *** Authorization codes *)




(** *** Refresh tokens *)




(** *** HTML responses

    [createHTMLResponse] takes its status, 200 by default, explicitly. *)

Definition createHTMLResponse (html : string) (status : Z) : response :=
  {| statusCode := status;
     headers :=
       [("Content-Type", "text/html"); ("Access-Control-Allow-Origin", "*")];
     body := html |}.

End Endpoints.

(** ** The management handlers

    An invocation event is a JSON object (the specification's "structured
    record"): its fields are an [obj]. [console.log] and [console.error]
    have no effect on the world. *)

(** The outer [catch] of every handler. *)
Definition server_error {P : Platform} (error : error) : M response :=
  ret (createErrorResponse "server_error"
         ("Internal server error: " ++ error_message error) 500).

(** The loop over [redirect_uris] of the client handlers: the response it
    returns from inside the loop, if any. *)
Fixpoint check_redirect_uris {P : Platform} (uris : list value)
  : option response :=
  match uris with
  | [] => None
  | uri :: rest =>
      match URL_protocol (to_string uri) with
      | Some protocol =>
          if negb (protocol =? "https:") && negb (protocol =? "http:") then
            Some (createErrorResponse "invalid_request"
                    ("Invalid redirect URI protocol: " ++ to_string uri
                     ++ ". Must use http or https") 400)
          else check_redirect_uris rest
      | None =>
          Some (createErrorResponse "invalid_request"
                  ("Invalid redirect URI format: " ++ to_string uri) 400)
      end
  end.

(** [redirect_uris.length === 0] *)
Definition is_empty_array (v : value) : bool :=
  match elements v with
  | [] => true
  | _ :: _ => false
  end.

(** *** management-user.js *)

Module ManagementUser.
Section Handlers.
Context {P : Platform}.

Definition handleCreateUser (event : obj) : M response :=
  let username := obj_get event "username" in
  let password := obj_get event "password" in
  let email := obj_get event "email" in
  let profile := obj_get event "profile" in
  if negb (truthy username) || negb (truthy password) || negb (truthy email)
  then
    ret (createErrorResponse "invalid_request"
           "Missing required parameters: username, password, and email are required"
           400)
  else if negb (Regex.test Regex.username_format username) then
    ret (createErrorResponse "invalid_request"
           "Invalid username format. Username must be 3-50 characters and contain only letters, numbers, dashes, and underscores"
           400)
  else if negb (Regex.test Regex.email_format email) then
    ret (createErrorResponse "invalid_request" "Invalid email format" 400)
  else
    password_length <- get_length password ;;
    if less_than password_length 8 then
      ret (createErrorResponse "invalid_request"
             "Password must be at least 8 characters long" 400)
    else
      existingUser <- getUserByUsername username ;;
      if truthy existingUser then
        ret (createErrorResponse "invalid_request" "Username already exists"
               400)
      else
        user <- call3 createUser
                  [username; password; email; or_else profile (VObj [])] ;;
        let userResponse := obj_delete user "password_hash" in
        ret (createResponse 200
               (VObj [("message", VStr "User created successfully");
                      ("user", VObj userResponse)])).

Definition handleResetPassword (event : obj) : M response :=
  let username := obj_get event "username" in
  let newPassword := obj_get event "newPassword" in
  if negb (truthy username) || negb (truthy newPassword) then
    ret (createErrorResponse "invalid_request"
           "Missing required parameters: username and newPassword are required"
           400)
  else
    password_length <- get_length newPassword ;;
    if less_than password_length 8 then
      ret (createErrorResponse "invalid_request"
             "Password must be at least 8 characters long" 400)
    else
      user <- getUserByUsername username ;;
      if negb (truthy user) then
        ret (createErrorResponse "invalid_request" "User not found" 400)
      else
        user_id <- get user "user_id" ;;
        updateUserPassword user_id newPassword ;;;
        ret (createResponse 200
               (VObj [("message", VStr "Password reset successfully");
                      ("username", username)])).

Definition handler (event : obj) : M response :=
  try_catch
    (let operation := obj_get event "operation" in
     if negb (truthy operation) then
       ret (createErrorResponse "invalid_request"
              "Missing operation parameter. Valid operations: createUser, resetPassword"
              400)
     else if is_string operation "createUser" then handleCreateUser event
     else if is_string operation "resetPassword" then
       handleResetPassword event
     else
       ret (createErrorResponse "invalid_request"
              ("Unknown operation: " ++ to_string operation
               ++ ". Valid operations: createUser, resetPassword") 400))
    server_error.

End Handlers.
End ManagementUser.

(** *** management-client.js *)

Module ManagementClient.
Section Handlers.
Context {P : Platform}.

Definition handleCreateClient (event : obj) : M response :=
  let client_id := obj_get event "client_id" in
  let client_secret := obj_get event "client_secret" in
  let redirect_uris := obj_get event "redirect_uris" in
  let name := obj_get event "name" in
  let description := obj_get event "description" in
  if negb (truthy client_id) || negb (truthy client_secret)
     || negb (truthy redirect_uris) || negb (truthy name)
  then
    ret (createErrorResponse "invalid_request"
           "Missing required parameters: client_id, client_secret, redirect_uris, and name are required"
           400)
  else if negb (Regex.test Regex.identifier_format client_id) then
    ret (createErrorResponse "invalid_request"
           "Invalid client_id format. Must be 3-100 characters and contain only letters, numbers, dashes, and underscores"
           400)
  else if negb (isArray redirect_uris) || is_empty_array redirect_uris then
    ret (createErrorResponse "invalid_request"
           "redirect_uris must be a non-empty array of URLs" 400)
  else
    match check_redirect_uris (elements redirect_uris) with
    | Some rejected => ret rejected
    | None =>
        existingClient <- getClientById client_id ;;
        if truthy existingClient then
          ret (createErrorResponse "invalid_request"
                 "Client ID already exists" 400)
        else
          client <- createClient client_id client_secret redirect_uris name
                      (or_else description (VStr "")) ;;
          ret (createResponse 200
                 (VObj [("message", VStr "Client created successfully");
                        ("client", VObj client)]))
    end.

Definition handleUpdateClient (event : obj) : M response :=
  let client_id := obj_get event "client_id" in
  let updates := obj_delete (obj_delete event "client_id") "operation" in
  if negb (truthy client_id) then
    ret (createErrorResponse "invalid_request"
           "Missing required parameter: client_id" 400)
  else if Nat.eqb (List.length (keys updates)) 0 then
    ret (createErrorResponse "invalid_request"
           "No update parameters provided" 400)
  else
    let redirect_uris := obj_get updates "redirect_uris" in
    let rejected :=
      if truthy redirect_uris then
        if negb (isArray redirect_uris) || is_empty_array redirect_uris then
          Some (createErrorResponse "invalid_request"
                  "redirect_uris must be a non-empty array of URLs" 400)
        else check_redirect_uris (elements redirect_uris)
      else None in
    match rejected with
    | Some rejected => ret rejected
    | None =>
        existingClient <- getClientById client_id ;;
        if negb (truthy existingClient) then
          ret (createErrorResponse "invalid_request" "Client not found" 400)
        else
          updatedClient <- updateClient client_id updates ;;
          ret (createResponse 200
                 (VObj [("message", VStr "Client updated successfully");
                        ("client", VObj updatedClient)]))
    end.

Definition handler (event : obj) : M response :=
  try_catch
    (let operation := obj_get event "operation" in
     if negb (truthy operation) then
       ret (createErrorResponse "invalid_request"
              "Missing operation parameter. Valid operations: createClient, updateClient"
              400)
     else if is_string operation "createClient" then handleCreateClient event
     else if is_string operation "updateClient" then handleUpdateClient event
     else
       ret (createErrorResponse "invalid_request"
              ("Unknown operation: " ++ to_string operation
               ++ ". Valid operations: createClient, updateClient") 400))
    server_error.

End Handlers.
End ManagementClient.

(** *** management-application.js *)

Module ManagementApplication.
Section Handlers.
Context {P : Platform}.

Definition handleCreateApplication (event : obj) : M response :=
  let application_id := obj_get event "application_id" in
  let client_id := obj_get event "client_id" in
  let name := obj_get event "name" in
  let description := obj_get event "description" in
  let account := obj_get event "account" in
  if negb (truthy client_id) || negb (truthy name) then
    ret (createErrorResponse "invalid_request"
           "Missing required parameters: client_id and name are required"
           400)
  else if truthy application_id
          && negb (Regex.test Regex.identifier_format application_id) then
    ret (createErrorResponse "invalid_request"
           "Invalid application_id format. Must be 3-100 characters and contain only letters, numbers, dashes, and underscores"
           400)
  else
    existingClient <- getClientById client_id ;;
    if negb (truthy existingClient) then
      ret (createErrorResponse "invalid_request"
             "Client ID not found. Please create the client first" 400)
    else
      duplicate <-
        (if truthy application_id then
           existingApplication <- getApplicationById application_id ;;
           ret (truthy existingApplication)
         else ret false) ;;
      if duplicate then
        ret (createErrorResponse "invalid_request"
               "Application ID already exists" 400)
      else
        application <- createApplication (or_else application_id VNull)
                         client_id name (or_else description (VStr ""))
                         (or_else account (VStr "")) ;;
        ret (createResponse 200
               (VObj [("message", VStr "Application created successfully");
                      ("application", VObj application)])).

Definition handleUpdateApplication (event : obj) : M response :=
  let application_id := obj_get event "application_id" in
  let updates := obj_delete (obj_delete event "application_id") "operation" in
  if negb (truthy application_id) then
    ret (createErrorResponse "invalid_request"
           "Missing required parameter: application_id" 400)
  else if Nat.eqb (List.length (keys updates)) 0 then
    ret (createErrorResponse "invalid_request"
           "No update parameters provided" 400)
  else
    unknown_client <-
      (if truthy (obj_get updates "client_id") then
         existingClient <- getClientById (obj_get updates "client_id") ;;
         ret (negb (truthy existingClient))
       else ret false) ;;
    if unknown_client then
      ret (createErrorResponse "invalid_request"
             "Client ID not found. Cannot update to non-existent client" 400)
    else
      existingApplication <- getApplicationById application_id ;;
      if negb (truthy existingApplication) then
        ret (createErrorResponse "invalid_request" "Application not found"
               400)
      else
        updatedApplication <- updateApplication application_id updates ;;
        ret (createResponse 200
               (VObj [("message", VStr "Application updated successfully");
                      ("application", VObj updatedApplication)])).

Definition handler (event : obj) : M response :=
  try_catch
    (let operation := obj_get event "operation" in
     if negb (truthy operation) then
       ret (createErrorResponse "invalid_request"
              "Missing operation parameter. Valid operations: createApplication, updateApplication"
              400)
     else if is_string operation "createApplication" then
       handleCreateApplication event
     else if is_string operation "updateApplication" then
       handleUpdateApplication event
     else
       ret (createErrorResponse "invalid_request"
              ("Unknown operation: " ++ to_string operation
               ++ ". Valid operations: createApplication, updateApplication")
              400))
    server_error.

End Handlers.
End ManagementApplication.

(** *** management-user-application.js *)

Module ManagementUserApplication.
Section Handlers.
Context {P : Platform}.

Definition handleCreateUserApplication (event : obj) : M response :=
  let user_id := obj_get event "user_id" in
  let application_id := obj_get event "application_id" in
  let account := obj_get event "account" in
  if negb (truthy user_id) || negb (truthy application_id) then
    ret (createErrorResponse "invalid_request"
           "Missing required parameters: user_id and application_id are required"
           400)
  else
    existingUser <- getUserById user_id ;;
    if negb (truthy existingUser) then
      ret (createErrorResponse "invalid_request"
             "User ID not found. Please create the user first" 400)
    else
      existingApplication <- getApplicationById application_id ;;
      if negb (truthy existingApplication) then
        ret (createErrorResponse "invalid_request"
               "Application ID not found. Please create the application first"
               400)
      else
        existingUserApplication <- getUserApplication user_id application_id ;;
        if truthy existingUserApplication then
          ret (createErrorResponse "invalid_request"
                 "User-application mapping already exists. Use updateUserApplication to modify it"
                 400)
        else
          userApplication <- createUserApplication user_id application_id
                               (or_else account (VStr "")) ;;
          ret (createResponse 200
                 (VObj [("message",
                         VStr "User-application mapping created successfully");
                        ("user_application", VObj userApplication)])).

Definition handleUpdateUserApplication (event : obj) : M response :=
  let user_id := obj_get event "user_id" in
  let application_id := obj_get event "application_id" in
  let updates :=
    obj_delete
      (obj_delete (obj_delete event "user_id") "application_id")
      "operation" in
  if negb (truthy user_id) || negb (truthy application_id) then
    ret (createErrorResponse "invalid_request"
           "Missing required parameters: user_id and application_id are required"
           400)
  else if Nat.eqb (List.length (keys updates)) 0 then
    ret (createErrorResponse "invalid_request"
           "No update parameters provided" 400)
  else
    existingUserApplication <- getUserApplication user_id application_id ;;
    if negb (truthy existingUserApplication) then
      ret (createErrorResponse "invalid_request"
             "User-application mapping not found. Use createUserApplication to create it first"
             400)
    else
      updatedUserApplication <-
        updateUserApplication user_id application_id updates ;;
      ret (createResponse 200
             (VObj [("message",
                     VStr "User-application mapping updated successfully");
                    ("user_application", VObj updatedUserApplication)])).

Definition handler (event : obj) : M response :=
  try_catch
    (let operation := obj_get event "operation" in
     if negb (truthy operation) then
       ret (createErrorResponse "invalid_request"
              "Missing operation parameter. Valid operations: createUserApplication, updateUserApplication"
              400)
     else if is_string operation "createUserApplication" then
       handleCreateUserApplication event
     else if is_string operation "updateUserApplication" then
       handleUpdateUserApplication event
     else
       ret (createErrorResponse "invalid_request"
              ("Unknown operation: " ++ to_string operation
               ++ ". Valid operations: createUserApplication, updateUserApplication")
              400))
    server_error.

End Handlers.
End ManagementUserApplication.

(** ** A simulated platform

    An executable implementation of [Platform], used to run the model on
    concrete events. Hashes, keys and tokens are symbolic: a digest shows
    the bytes it was computed from, a key pair shares a serial number, a
    token records what was signed and with which key. *)

Module Sim.

Definition quote : string := String (ascii_of_nat 34) "".
Definition backslash : string := String (ascii_of_nat 92) "".

(** *** JSON text *)

Fixpoint escape (s : string) : string :=
  match s with
  | EmptyString => ""
  | String c rest =>
      if Nat.eqb (nat_of_ascii c) 34 then backslash ++ quote ++ escape rest
      else if Nat.eqb (nat_of_ascii c) 92 then
        backslash ++ backslash ++ escape rest
      else String c (escape rest)
  end.

Fixpoint stringify (v : value) : string :=
  match v with
  | VUndefined | VNull => "null"
  | VBool true => "true"
  | VBool false => "false"
  | VNum n => dec n
  | VStr s => quote ++ escape s ++ quote
  | VArr l =>
      "[" ++ (fix elems (l : list value) : string :=
                match l with
                | [] => ""
                | x :: rest =>
                    match rest with
                    | [] => stringify x
                    | _ :: _ => stringify x ++ "," ++ elems rest
                    end
                end) l ++ "]"
  | VObj o =>
      "{" ++ (fix members (o : list (string * value)) (first : bool)
                : string :=
                match o with
                | [] => ""
                | (k, VUndefined) :: rest => members rest first
                | (k, x) :: rest =>
                    (if first then "" else ",")
                    ++ quote ++ escape k ++ quote ++ ":" ++ stringify x
                    ++ members rest false
                end) o true ++ "}"
  end.

(** The characters of a string literal up to its closing quote. *)
Fixpoint unescape (s : string) : option (string * string) :=
  match s with
  | EmptyString => None
  | String c rest =>
      if Nat.eqb (nat_of_ascii c) 34 then Some ("", rest)
      else if Nat.eqb (nat_of_ascii c) 92 then
        match rest with
        | String e rest' =>
            match unescape rest' with
            | Some (x, r) => Some (String e x, r)
            | None => None
            end
        | EmptyString => None
        end
      else
        match unescape rest with
        | Some (x, r) => Some (String c x, r)
        | None => None
        end
  end.

Definition is_digit (c : ascii) : bool :=
  Nat.leb 48 (nat_of_ascii c) && Nat.leb (nat_of_ascii c) 57.

Fixpoint digits (acc : Z) (s : string) : Z * string :=
  match s with
  | String c rest =>
      if is_digit c then
        digits (10 * acc + Z.of_nat (nat_of_ascii c - 48)) rest
      else (acc, s)
  | EmptyString => (acc, s)
  end.

Definition starts_with (prefix s : string) : option string :=
  if String.prefix prefix s then
    Some (substring (String.length prefix)
            (String.length s - String.length prefix) s)
  else None.

(** A recursive-descent reader of compact JSON text; [fuel] bounds the
    nesting and the number of elements. *)
Fixpoint parse_value (fuel : nat) (s : string) : option (value * string) :=
  match fuel with
  | O => None
  | S fuel =>
      match s with
      | EmptyString => None
      | String c rest =>
          if Nat.eqb (nat_of_ascii c) 34 then
            match unescape rest with
            | Some (x, r) => Some (VStr x, r)
            | None => None
            end
          else if Ascii.eqb c "[" then
            match rest with
            | String "]" r => Some (VArr [], r)
            | _ => parse_elements fuel rest []
            end
          else if Ascii.eqb c "{" then
            match rest with
            | String "}" r => Some (VObj [], r)
            | _ => parse_members fuel rest []
            end
          else if Ascii.eqb c "-" then
            match rest with
            | String d _ =>
                if is_digit d then
                  Some (VNum (- fst (digits 0 rest)), snd (digits 0 rest))
                else None
            | EmptyString => None
            end
          else if is_digit c then
            Some (VNum (fst (digits 0 s)), snd (digits 0 s))
          else
            match starts_with "null" s, starts_with "true" s,
                  starts_with "false" s with
            | Some r, _, _ => Some (VNull, r)
            | _, Some r, _ => Some (VBool true, r)
            | _, _, Some r => Some (VBool false, r)
            | _, _, _ => None
            end
      end
  end
with parse_elements (fuel : nat) (s : string) (acc : list value)
  : option (value * string) :=
  match fuel with
  | O => None
  | S fuel =>
      match parse_value fuel s with
      | Some (x, String "," r) => parse_elements fuel r (acc ++ [x])%list
      | Some (x, String "]" r) => Some (VArr (acc ++ [x])%list, r)
      | _ => None
      end
  end
with parse_members (fuel : nat) (s : string) (acc : obj)
  : option (value * string) :=
  match fuel with
  | O => None
  | S fuel =>
      match parse_value fuel s with
      | Some (VStr k, String ":" r) =>
          match parse_value fuel r with
          | Some (x, String "," r') =>
              parse_members fuel r' (obj_set acc k x)
          | Some (x, String "}" r') => Some (VObj (obj_set acc k x), r')
          | _ => None
          end
      | _ => None
      end
  end.

Definition parse (s : string) : option value :=
  match parse_value (S (String.length s)) s with
  | Some (v, EmptyString) => Some v
  | _ => None
  end.

Definition number (s : string) : option Z :=
  match s with
  | EmptyString => Some 0%Z
  | String c rest =>
      match digits 0 s with
      | (n, EmptyString) => Some n
      | _ =>
          if Ascii.eqb c "-" then
            match rest, digits 0 rest with
            | String _ _, (n, EmptyString) => Some (- n)%Z
            | _, _ => None
            end
          else None
      end
  end.

(** *** URLs: the scheme up to the first colon, when one is followed by
    two slashes. *)
Definition protocol (s : string) : option string :=
  match index 0 "://" s with
  | Some (S n) => Some (substring 0 (S n) s ++ ":")
  | _ => None
  end.

(** *** Symbolic cryptography *)

Definition uuid (n : nat) : string := "uuid-" ++ dec (Z.of_nat n).

Definition key_pair (bits : Z) (n : nat) : string * string :=
  ("PUBLIC KEY " ++ dec bits ++ "/" ++ dec (Z.of_nat n),
   "PRIVATE KEY " ++ dec bits ++ "/" ++ dec (Z.of_nat n)).

(** The serial number of a key. *)
Definition serial (key : value) : option (bool * string) :=
  match key with
  | VStr k =>
      match starts_with "PUBLIC KEY " k, starts_with "PRIVATE KEY " k with
      | Some x, _ => Some (true, x)
      | _, Some x => Some (false, x)
      | _, _ => None
      end
  | _ => None
  end.

(** [pub] verifies what [priv] signed. *)
Definition verifies (pub priv : value) : bool :=
  match serial pub, serial priv with
  | Some (true, x), Some (false, y) => x =? y
  | _, _ => false
  end.

(** bcrypt reads the first 72 bytes of its input. *)
Definition digest (data : string) (rounds : Z) (n : nat) : string :=
  "$2b$" ++ dec rounds ++ "$" ++ dec (Z.of_nat n) ++ "$"
  ++ substring 0 72 data.

Fixpoint after_dollars (k : nat) (s : string) : string :=
  match k, s with
  | O, _ => s
  | S k', String c rest =>
      if Ascii.eqb c "$" then after_dollars k' rest else after_dollars k rest
  | S _, EmptyString => ""
  end.

Definition digest_matches (data hash : string) : bool :=
  after_dollars 4 hash =? substring 0 72 data.

Record token : Type := {
  signed_payload : value;
  signing_key : value;
  header_alg : string;
  header_kid : value;
  expires : Z
}.

(** [expiresIn] in seconds: a number of seconds, or ["1h"]. *)
Definition timespan (expiresIn : value) : option Z :=
  match expiresIn with
  | VNum n => Some n
  | VStr "1h" => Some 3600%Z
  | _ => None
  end.

(** The payload gains [iat], [exp] and [iss]; a payload that already has
    [exp] or [iss] is refused, as is one that is not an object. *)
Definition sign (payload key : value) (algorithm : string)
  (expiresIn keyid issuer : value) (now : Z) : outcome token :=
  match payload, timespan expiresIn with
  | VObj claims, Some ttl =>
      if obj_has claims "exp" || obj_has claims "iss" then
        Throw (Error "Bad option: the payload already has the property")
      else
        let iat := (now / 1000)%Z in
        Return
          {| signed_payload :=
               VObj (obj_set (obj_set (obj_set claims "iat" (VNum iat))
                                "exp" (VNum (iat + ttl)))
                       "iss" issuer);
             signing_key := key;
             header_alg := algorithm;
             header_kid := keyid;
             expires := (iat + ttl)%Z |}
  | _, _ => Throw (Error "invalid expiresIn option for payload")
  end.

Definition JsonWebTokenError (msg : string) : error :=
  {| error_name := "JsonWebTokenError"; error_message := msg |}.

Definition verify (t : token) (key : value) (algorithms : list string)
  (issuer : value) (now : Z) : outcome value :=
  if negb (existsb (String.eqb (header_alg t)) algorithms) then
    Throw (JsonWebTokenError "invalid algorithm")
  else if negb (verifies key (signing_key t)) then
    Throw (JsonWebTokenError "invalid signature")
  else if (expires t <=? now / 1000)%Z then
    Throw {| error_name := "TokenExpiredError";
             error_message := "jwt expired" |}
  else
    match signed_payload t, issuer with
    | VObj claims, VStr iss =>
        if is_string (obj_get claims "iss") iss then Return (VObj claims)
        else Throw (JsonWebTokenError "jwt issuer invalid")
    | p, _ => Return p
    end.

#[export] Instance platform : Platform := {|
  Date_toISOString := fun ms => "T+" ++ dec ms ++ "ms";
  JSON_stringify := stringify;
  JSON_parse := parse;
  Number_of_string := number;
  URL_protocol := protocol;
  uuid_v4 := uuid;
  crypto_generateKeyPair := key_pair;
  bcrypt_digest := digest;
  bcrypt_matches := digest_matches;
  jwt_token := token;
  jsonwebtoken_sign := sign;
  jsonwebtoken_verify := verify;
  jwt_expiry := fun t => (expires t * 1000)%Z
|}.

(** The random text of an authorization code shows the draw it came
    from. *)
Definition random_text (size n : nat) : string :=
  "random-" ++ dec (Z.of_nat size) ++ "/" ++ dec (Z.of_nat n).

#[export] Instance randomness : Randomness := {|
  crypto_randomBytes_base64url := random_text
|}.

(** A world with empty tables, no parameters, a cold cache. *)
Definition empty_db : database :=
  {| USERS_TABLE := []; CLIENTS_TABLE := []; AUTH_CODES_TABLE := [];
     REFRESH_TOKENS_TABLE := []; APPLICATIONS_TABLE := [];
     USER_APPLICATIONS_TABLE := [] |}.

Definition cold (now : Z) : world :=
  {| db := empty_db;
     ssm := {| issuer_url_param := None; jwt_keys_param := None |};
     clock := now; entropy := 0;
     cachedIssuerUrl := VNull; cacheTimestamp := VNull; sent := [] |}.

(** The world after a computation, whatever it returned. *)
Definition after {A} (m : M A) (w : world) : world := snd (m w).

End Sim.

(** * The vocabulary of the properties *)

(** The key of an item, as [getItem] is given it. *)
Definition key_of (ks : list string) (item : obj) : obj :=
  map (fun k => (k, obj_get item k)) ks.

(** A record with the attributes of [key] is stored in table [t]. *)
Definition stored_with (t : table) (key : obj) (w : world) : bool :=
  existsb (has_key key) (items t (db w)).


(** Whatever the computation returns, it takes a world to one that [R]
    relates to it. *)
Definition steps (R : world -> world -> Prop) {A} (m : M A) : Prop :=
  forall w, R w (snd (m w)).

(** The [client_id] of every record of the clients table, in table order. *)
Definition client_ids (w : world) : list value :=
  map (fun i => obj_get i "client_id") (CLIENTS_TABLE (db w)).

(** Every record keeps its [client_id]; records may have been added. *)
Definition clients_kept (w w' : world) : Prop :=
  exists added, client_ids w' = (client_ids w ++ added)%list.

(** A value is cached and it was fetched less than five minutes ago. An
    empty string and a fetch at clock reading 0 count as nothing cached:
    the code tests them with [&&]. *)
Definition cache_fresh (w : world) : Prop :=
  truthy (cachedIssuerUrl w) = true
  /\ exists ts, cacheTimestamp w = VNum ts /\ ts <> 0%Z
                /\ (clock w - ts < 5 * 60 * 1000)%Z.

(** [v.k], [undefined] where the access would throw. *)
Definition property (v : value) (k : string) : value :=
  match member v k with
  | Some x => x
  | None => VUndefined
  end.

(** [keys.private_key && keys.public_key] *)
Definition complete (keys : value) : bool :=
  truthy (property keys "private_key") && truthy (property keys "public_key").

(** The computation sent reads only: the tables and the parameters are as
    before and no put or delete was sent. *)
Definition reads_only (w w' : world) : Prop :=
  db w' = db w /\ ssm w' = ssm w
  /\ filter is_write (sent w') = filter is_write (sent w).



(** Every record of every table is still there, under the key it had;
    records may have been added. *)
Definition keys_kept (w w' : world) : Prop :=
  forall t, exists added,
    map (key_of (table_key t)) (items t (db w'))
    = (map (key_of (table_key t)) (items t (db w)) ++ added)%list.

(** Nothing but records of table [own] was written, and none was
    removed. *)
Definition confined (own : table) (w w' : world) : Prop :=
  keys_kept w w'
  /\ (forall t, t <> own -> items t (db w') = items t (db w))
  /\ ssm w' = ssm w.

(** No two items of the list have the same (string or number) value of
    [attr]. *)
Fixpoint unique_on (attr : string) (l : list obj) : bool :=
  match l with
  | [] => true
  | i :: rest =>
      negb (existsb
              (fun j => scalar_eqb (obj_get i attr) (obj_get j attr)) rest)
      && unique_on attr rest
  end.

(** No two stored users have the same username. *)
Definition usernames_unique (w : world) : bool :=
  unique_on "username" (USERS_TABLE (db w)).

(** The updates a handler extracts from an event: every field but the key
    fields and [operation]. *)
Definition stripped (key_fields : list string) (event : obj) : obj :=
  obj_delete (fold_left obj_delete key_fields event) "operation".



(** The strings a regular expression denotes. *)
Inductive lang : Regex.re -> string -> Prop :=
| lang_Eps : lang Regex.Eps ""
| lang_Class (p : ascii -> bool) (c : ascii) :
    p c = true -> lang (Regex.Class p) (String c "")
| lang_Seq (a b : Regex.re) (s1 s2 : string) :
    lang a s1 -> lang b s2 -> lang (Regex.Seq a b) (s1 ++ s2)
| lang_Alt_l (a b : Regex.re) (s : string) :
    lang a s -> lang (Regex.Alt a b) s
| lang_Alt_r (a b : Regex.re) (s : string) :
    lang b s -> lang (Regex.Alt a b) s
| lang_Rep_stop (a : Regex.re) (hi : option nat) :
    lang (Regex.Rep a 0 hi) ""
| lang_Rep_more (a : Regex.re) (lo : nat) (hi : option nat)
    (s1 s2 : string) :
    hi <> Some 0%nat ->
    lang a s1 ->
    lang (Regex.Rep a (pred lo) (option_map pred hi)) s2 ->
    lang (Regex.Rep a lo hi) (s1 ++ s2).

(** Every repeated expression matches non-empty strings only, as in the
    patterns of the handlers. *)
Fixpoint proper (r : Regex.re) : bool :=
  match r with
  | Regex.Seq a b | Regex.Alt a b => proper a && proper b
  | Regex.Rep a _ _ => proper a && negb (Regex.nullable a)
  | _ => true
  end.

(** A non-empty string without white space and without an at sign. *)
Definition email_part (s : string) : Prop :=
  s <> ""
  /\ Forall (fun c => Regex.not_space_at c = true) (list_ascii_of_string s).

(** The three kinds of answer: a success with a message, a rejected
    request, a failure inside the handler. *)
Definition answer_shape {P : Platform} (r : response) : Prop :=
  (exists message rest,
     r = createResponse 200 (VObj (("message", VStr message) :: rest)))
  \/ (exists description,
        r = createErrorResponse "invalid_request" description 400)
  \/ (exists description,
        r = createErrorResponse "server_error" description 500).

(** Whatever the computation returns satisfies [Q]. *)
Definition answers {A} (Q : A -> Prop) (m : M A) : Prop :=
  forall w, match fst (m w) with
            | Return a => Q a
            | Throw _ => True
            end.

(** The client of an application is stored. *)
Definition client_known (d : database) (application : obj) : bool :=
  existsb (has_key [("client_id", obj_get application "client_id")])
    (CLIENTS_TABLE d).

(** Every application belongs to a stored client. *)
Definition applications_have_clients (d : database) : bool :=
  forallb (client_known d) (APPLICATIONS_TABLE d).

(** The user and the application of a mapping are stored. *)
Definition parties_known (d : database) (mapping : obj) : bool :=
  existsb (has_key [("user_id", obj_get mapping "user_id")]) (USERS_TABLE d)
  && existsb
       (has_key [("application_id", obj_get mapping "application_id")])
       (APPLICATIONS_TABLE d).

(** Every mapping links a stored user to a stored application. *)
Definition mappings_have_parties (d : database) : bool :=
  forallb (parties_known d) (USER_APPLICATIONS_TABLE d).

(** A run keeps both kinds of reference valid. *)
Definition keeps_references (w w' : world) : Prop :=
  (applications_have_clients (db w) = true ->
   applications_have_clients (db w') = true)
  /\ (mappings_have_parties (db w) = true ->
      mappings_have_parties (db w') = true).

(** The run put at most one item, into table [own], and changed nothing
    else in the tables. *)
Definition wrote_at_most_one (own : table) (w w' : world) : Prop :=
  db w' = db w
  \/ exists item,
       db w' = with_items own
                 (put (table_key own) item (items own (db w))) (db w).

Section Vocabulary.
Context {P : Platform}.

(** The run answered [invalid_request] with status 400 and wrote nothing:
    the tables and the parameters are as in [w], and no put or delete was
    sent. *)
Definition rejected_without_write (run : outcome response * world)
  (w : world) : Prop :=
  (exists description,
     fst run = Return (createErrorResponse "invalid_request" description 400))
  /\ db (snd run) = db w
  /\ ssm (snd run) = ssm w
  /\ filter is_write (sent (snd run)) = filter is_write (sent w).

(** The record an update builds from the [stored] one:
    [{ ...stored, ...updates, ...pins, updated_at }]. *)
Definition updated_record (pins : obj) (stored updates : obj) (now : Z)
  : obj :=
  obj_set
    (fold_left (fun o kv => obj_set o (fst kv) (snd kv)) pins
       (spread (spread [] stored) updates))
    "updated_at" (VStr (Date_toISOString now)).

(** What an update function does to the world: one read under [key], and
    when a record is found one put of the updated record; otherwise the
    error [missing]. *)
Definition update_outcome (t : table) (key : obj) (updates : obj)
  (missing : string) (w : world) : outcome obj * world :=
  let w1 := with_sent (GetCommand t key) w in
  match find (has_key key) (items t (db w)) with
  | Some stored =>
      let updated := updated_record key stored updates (clock w) in
      (Return updated,
       with_db (with_items t (put (table_key t) updated (items t (db w)))
                  (db w))
         (with_sent (PutCommand t updated) w1))
  | None => (Throw (Error missing), w1)
  end.


(** The world after [getSigningKeys] asked for the stored structure. *)
Definition keys_read (w : world) : world :=
  with_sent (GetParameterCommand JWT_KEYS_PARAM_NAME) w.

(** The structure [getSigningKeys] generates in world [w]: a 2048-bit pair
    from the next draw, a key identifier from the draw after it. *)
Definition generated_keys (w : world) : obj :=
  let pair := crypto_generateKeyPair 2048 (entropy w) in
  key_structure (snd pair) (fst pair) (uuid_v4 (S (entropy w))).

(** The world after the two draws. *)
Definition keys_drawn (w : world) : world :=
  with_entropy (S (S (entropy w))) (keys_read w).

(** The world after the generated structure was persisted. *)
Definition keys_persisted (w : world) : world :=
  let keysJson := JSON_stringify (VObj (generated_keys w)) in
  with_ssm (with_parameter JWT_KEYS_PARAM_NAME keysJson (ssm w))
    (with_sent (PutParameterCommand JWT_KEYS_PARAM_NAME keysJson)
       (keys_drawn w)).

(** The record [createUser] builds in world [w]. *)
Definition new_user (username password email : string) (w : world) : obj :=
  [("user_id", VStr (uuid_v4 (entropy w))); ("username", VStr username);
   ("password_hash", VStr (bcrypt_digest password 10 (S (entropy w))));
   ("email", VStr email); ("email_verified", VBool false);
   ("created_at", VStr (Date_toISOString (clock w)));
   ("updated_at", VStr (Date_toISOString (clock w)))].

(** The world after [createUser]: two draws, one put. *)
Definition user_stored (user : obj) (w : world) : world :=
  with_db (with_items users (put ["user_id"] user (USERS_TABLE (db w)))
             (db w))
    (with_sent (PutCommand users user)
       (with_entropy (S (S (entropy w))) w)).

(** The world after the handler's uniqueness query. *)
Definition username_queried (username : string) (w : world) : world :=
  with_sent
    (QueryCommand users "username-index" "username = :username"
       [(":username", VStr username)]) w.




(** What the code relies on from the runtime when it has to generate keys
    in world [w]: the generated structure survives [JSON.stringify] and
    [JSON.parse], and its two PEM texts are not empty. *)
Definition keys_survive_storage (w : world) : Prop :=
  let structure := VObj (generated_keys w) in
  JSON_parse (JSON_stringify structure) = Some structure
  /\ complete structure = true.


End Vocabulary.

(** ** Scenarios on the simulated platform *)

Section Scenarios.
#[local] Existing Instance Sim.platform.

(** The specification's scenario: create user alice123, then submit the
    same payload again. *)
Definition alice : obj :=
  [("operation", VStr "createUser"); ("username", VStr "alice123");
   ("password", VStr "Passw0rd!"); ("email", VStr "a@example.com")].

Definition alice_record : obj :=
  [("user_id", VStr "uuid-0"); ("username", VStr "alice123");
   ("password_hash", VStr "$2b$10$1$Passw0rd!");
   ("email", VStr "a@example.com"); ("email_verified", VBool false);
   ("created_at", VStr "T+1000ms"); ("updated_at", VStr "T+1000ms")].

Definition alice_created : world :=
  Sim.after (ManagementUser.handler alice) (Sim.cold 1000).


(** A clients table with one client, created at time 5 and read at time 7. *)
Definition one_client : world :=
  with_clock 7
    (Sim.after
       (createClient (VStr "my-app-client") (VStr "my-secure-secret-123")
          (VArr [VStr "https://myapp.example.com/callback"])
          (VStr "My Application") (VStr ""))
       (Sim.cold 5)).


(** The issuer URL was cached at time 1000; the parameter has since been
    changed. *)
Definition cached_at_1000 (now : Z) : world :=
  with_cache (VStr "https://issuer.example.com") (VNum 1000)
    (with_ssm
       {| issuer_url_param := Some "https://new-issuer.example.com";
          jwt_keys_param := None |}
       (Sim.cold now)).

(** The parameter as provisioned: an empty structure. *)
Definition provisioned : world :=
  with_ssm {| issuer_url_param := Some "https://issuer.example.com";
              jwt_keys_param := Some "{}" |} (Sim.cold 1000).

(** The claims of a token for user u1. *)
Definition sample_payload : value :=
  VObj [("sub", VStr "u1"); ("scope", VStr "openid")].

(** A password reset for the user of the first scenario. *)
Definition alice_reset : obj :=
  [("operation", VStr "resetPassword"); ("username", VStr "alice123");
   ("newPassword", VStr "N3wPassw0rd!")].

(** The example payloads of the handlers. *)
Definition my_client : obj :=
  [("operation", VStr "createClient"); ("client_id", VStr "my-app-client");
   ("client_secret", VStr "my-secure-secret-123");
   ("redirect_uris", VArr [VStr "https://myapp.example.com/callback"]);
   ("name", VStr "My Application");
   ("description", VStr "My awesome application")].

Definition my_application : obj :=
  [("operation", VStr "createApplication");
   ("application_id", VStr "my-app-prod");
   ("client_id", VStr "my-app-client");
   ("name", VStr "Production Environment");
   ("account", VStr "prod-account-123")].

Definition my_mapping : obj :=
  [("operation", VStr "createUserApplication"); ("user_id", VStr "uuid-0");
   ("application_id", VStr "my-app-prod")].

(** The recommended order of operations: a user, a client, an application
    of the client. *)
Definition client_created : world :=
  Sim.after (ManagementClient.handler my_client) alice_created.

Definition application_created : world :=
  Sim.after (ManagementApplication.handler my_application) client_created.

(** A second user, and a change of the client's name. *)
Definition bob : obj :=
  [("operation", VStr "createUser"); ("username", VStr "bob");
   ("password", VStr "correct horse"); ("email", VStr "bob@example.com")].





End Scenarios.

(** * Properties *)

(** ** Objects *)

Section Objects.

Lemma obj_get_set (o : obj) (k k' : string) (v : value) :
  obj_get (obj_set o k v) k' = if k' =? k then v else obj_get o k'.
Proof.
  induction o as [|[k0 v0] o IH]; simpl.
  - destruct (k' =? k); reflexivity.
  - destruct (k =? k0) eqn:E; simpl.
    + apply String.eqb_eq in E; subst k0.
      destruct (k' =? k); reflexivity.
    + rewrite IH. destruct (k' =? k0) eqn:E0; [|reflexivity].
      apply String.eqb_eq in E0; subst k0.
      rewrite String.eqb_sym, E. reflexivity.
Qed.

Lemma obj_get_set_same (o : obj) (k : string) (v : value) :
  obj_get (obj_set o k v) k = v.
Proof. rewrite obj_get_set, String.eqb_refl. reflexivity. Qed.

Lemma obj_get_set_other (o : obj) (k k' : string) (v : value) :
  k' <> k -> obj_get (obj_set o k v) k' = obj_get o k'.
Proof.
  intros N. rewrite obj_get_set.
  apply String.eqb_neq in N. rewrite N. reflexivity.
Qed.

Lemma obj_get_delete_other (o : obj) (k k' : string) :
  k' <> k -> obj_get (obj_delete o k) k' = obj_get o k'.
Proof.
  intros N. induction o as [|[k0 v0] o IH]; simpl; [reflexivity|].
  destruct (k =? k0) eqn:E; simpl.
  - apply String.eqb_eq in E; subst k0.
    apply String.eqb_neq in N. rewrite N. exact IH.
  - rewrite IH. reflexivity.
Qed.

Lemma obj_has_false (o : obj) (k : string) :
  obj_has o k = false -> obj_get o k = VUndefined.
Proof.
  induction o as [|[k0 v0] o IH]; simpl; [reflexivity|].
  destruct (k =? k0); simpl; [discriminate|exact IH].
Qed.

Lemma obj_has_set (o : obj) (k k' : string) (v : value) :
  obj_has (obj_set o k v) k' = (k' =? k) || obj_has o k'.
Proof.
  induction o as [|[k0 v0] o IH]; simpl.
  - rewrite orb_false_r. reflexivity.
  - destruct (k =? k0) eqn:E; simpl.
    + apply String.eqb_eq in E; subst k0.
      destruct (k' =? k); reflexivity.
    + rewrite IH. destruct (k' =? k0), (k' =? k); reflexivity.
Qed.

(** Assigning the properties of a well-formed object: each of them ends up
    with its own value, every other property keeps the target's. *)
Lemma obj_get_spread (src target : obj) (k : string) :
  well_formed src ->
  obj_get (spread target src) k =
  if obj_has src k then obj_get src k else obj_get target k.
Proof.
  unfold spread, well_formed, keys.
  revert target. induction src as [|[k0 v0] src IH]; intros target WF.
  - reflexivity.
  - simpl in *. inversion WF as [|? ? Hnotin Hnodup]; subst.
    rewrite IH by assumption.
    destruct (k =? k0) eqn:E; simpl.
    + apply String.eqb_eq in E; subst k0.
      assert (Hhas : obj_has src k = false).
      { clear - Hnotin. induction src as [|[k1 v1] src IH]; simpl in *;
          [reflexivity|].
        destruct (k =? k1) eqn:E1; simpl.
        - apply String.eqb_eq in E1. subst. tauto.
        - apply IH. tauto. }
      rewrite Hhas. apply obj_get_set_same.
    + destruct (obj_has src k); [reflexivity|].
      apply obj_get_set_other. apply String.eqb_neq. exact E.
Qed.

Lemma obj_get_spread_nil (src : obj) (k : string) :
  well_formed src -> obj_get (spread [] src) k = obj_get src k.
Proof.
  intros WF. rewrite obj_get_spread by assumption.
  destruct (obj_has src k) eqn:E; [reflexivity|].
  symmetry. apply obj_has_false. exact E.
Qed.

End Objects.

(** ** The key-value store *)

Section Store.

Lemma scalar_eqb_eq (a b : value) : scalar_eqb a b = true -> a = b.
Proof.
  destruct a, b; simpl; try discriminate; intros E.
  - apply Z.eqb_eq in E. congruence.
  - apply String.eqb_eq in E. congruence.
Qed.

Lemma scalar_eqb_refl (a b : value) :
  scalar_eqb a b = true -> scalar_eqb b b = true.
Proof.
  intros E. pose proof (scalar_eqb_eq _ _ E) as ->. exact E.
Qed.

Lemma has_key_key_of (ks : list string) (item i : obj) :
  has_key (key_of ks item) i = same_key ks i item.
Proof.
  unfold has_key, same_key, key_of. induction ks as [|k ks IH]; simpl.
  - reflexivity.
  - rewrite IH. reflexivity.
Qed.

(** After a put, the item is the one found under its key. *)
Lemma find_put (ks : list string) (item : obj) (l : list obj) :
  same_key ks item item = true ->
  find (fun i => same_key ks i item) (put ks item l) = Some item.
Proof.
  intros R. induction l as [|i l IH]; simpl.
  - rewrite R. reflexivity.
  - destruct (same_key ks i item) eqn:E; simpl.
    + rewrite R. reflexivity.
    + rewrite E. exact IH.
Qed.

Lemma In_put (ks : list string) (item : obj) (l : list obj) :
  In item (put ks item l).
Proof.
  induction l as [|i l IH]; simpl.
  - left. reflexivity.
  - destruct (same_key ks i item); simpl; auto.
Qed.

(** A put replaces an item by one with the same key attribute, or adds an
    item: the attribute values already in the table stay, in place. *)
Lemma map_key_put (k : string) (item : obj) (l : list obj) :
  map (fun i => obj_get i k) (put [k] item l) =
  if existsb (fun i => same_key [k] i item) l
  then map (fun i => obj_get i k) l
  else (map (fun i => obj_get i k) l ++ [obj_get item k])%list.
Proof.
  induction l as [|i l IH]; simpl.
  - reflexivity.
  - destruct (scalar_eqb (obj_get i k) (obj_get item k)) eqn:E; simpl.
    + apply scalar_eqb_eq in E. rewrite E. reflexivity.
    + rewrite IH. destruct (existsb _ l); reflexivity.
Qed.

(** A put of an item whose attribute [attr] no stored item shares: a query
    on that attribute finds exactly the new item. *)
Lemma filter_put_fresh (ks : list string) (f : obj -> bool) (item : obj)
  (l : list obj) :
  f item = true -> (forall i, In i l -> f i = false) ->
  filter f (put ks item l) = [item].
Proof.
  intros Hitem. induction l as [|i l IH]; intros Hfresh; simpl.
  - rewrite Hitem. reflexivity.
  - assert (Hi : f i = false) by (apply Hfresh; left; reflexivity).
    assert (Hl : filter f l = []).
    { clear - Hfresh. induction l as [|j l IH]; simpl; [reflexivity|].
      rewrite (Hfresh j) by (right; left; reflexivity).
      apply IH. intros x [->|Hx]; apply Hfresh; simpl; auto. }
    destruct (same_key ks i item); simpl.
    + rewrite Hitem, Hl. reflexivity.
    + rewrite Hi. apply IH. intros x Hx. apply Hfresh. right. exact Hx.
Qed.


Lemma filter_is_write_read (l : list command) (c : command) :
  is_write c = false ->
  filter is_write (l ++ [c])%list = filter is_write l.
Proof.
  intros E. rewrite filter_app. simpl. rewrite E. apply app_nil_r.
Qed.

End Store.

(** ** Dispatch on the operation (C8) *)

Section Dispatch.
Context {P : Platform}.



End Dispatch.

Section DispatchExample.
#[local] Existing Instance Sim.platform.


End DispatchExample.

(** ** The user record (C9) *)

Section UserRecord.
Context {P : Platform}.

(** C9. The [profile] field of a createUser event has no effect: the
    handler answers and leaves the world exactly as for the same event with
    any other [profile] (or none), and the record that [createUser]
    persists and returns has the seven fields [user_id], [username],
    [password_hash], [email], [email_verified], [created_at] and
    [updated_at], and no other. *)
Theorem profile_is_discarded (event : obj) (profile : value) (w : world) :
  ManagementUser.handler (obj_set event "profile" profile) w
  = ManagementUser.handler event w
  /\ forall username password email : value,
       match createUser username password email w with
       | (Return user, w') =>
           keys user =
           ["user_id"; "username"; "password_hash"; "email";
            "email_verified"; "created_at"; "updated_at"]
           /\ sent w' = (sent w ++ [PutCommand users user])%list
           /\ In user (USERS_TABLE (db w'))
       | (Throw _, w') => db w' = db w /\ sent w' = sent w
       end.
Proof.
  split.
  - unfold ManagementUser.handler, ManagementUser.handleCreateUser,
      ManagementUser.handleResetPassword.
    rewrite obj_get_set_same.
    rewrite !obj_get_set_other by discriminate.
    reflexivity.
  - intros username password email.
    unfold createUser, bcrypt_hash.
    destruct password; cbn; try (split; reflexivity).
    split; [reflexivity|]. split; [reflexivity|].
    apply In_put.
Qed.

End UserRecord.

(** ** Updates (C7, C10) *)

Section Updates.
Context {P : Platform}.

Lemma find_put_key (ks : list string) (item : obj) (l : list obj) :
  same_key ks item item = true ->
  find (has_key (key_of ks item)) (put ks item l) = Some item.
Proof.
  intros R. induction l as [|i l IH]; simpl.
  - rewrite has_key_key_of, R. reflexivity.
  - destruct (same_key ks i item) eqn:E; simpl.
    + rewrite has_key_key_of, R. reflexivity.
    + rewrite has_key_key_of, E. exact IH.
Qed.

Lemma find_has_key (key : obj) (l : list obj) (item : obj) :
  find (has_key key) l = Some item ->
  In item l /\
  forall k v, In (k, v) key -> scalar_eqb (obj_get item k) v = true.
Proof.
  intros F. apply find_some in F. destruct F as [Hin Hkey].
  split; [exact Hin|]. intros k v Hkv.
  unfold has_key in Hkey. rewrite forallb_forall in Hkey.
  exact (Hkey (k, v) Hkv).
Qed.

(** The three update functions, step by step. *)

Lemma updateClient_run (clientId : value) (updates : obj) (w : world) :
  updateClient clientId updates w =
  update_outcome clients [("client_id", clientId)] updates
    "Client not found" w.
Proof.
  unfold updateClient, update_outcome, getClientById, getItem.
  cbn. destruct (find _ _); reflexivity.
Qed.

Lemma updateApplication_run (applicationId : value) (updates : obj)
  (w : world) :
  updateApplication applicationId updates w =
  update_outcome applications [("application_id", applicationId)] updates
    "Application not found" w.
Proof.
  unfold updateApplication, update_outcome, getApplicationById, getItem.
  cbn. destruct (find _ _); reflexivity.
Qed.

Lemma updateUserApplication_run (userId applicationId : value)
  (updates : obj) (w : world) :
  updateUserApplication userId applicationId updates w =
  update_outcome userApplications
    [("user_id", userId); ("application_id", applicationId)] updates
    "User-application mapping not found" w.
Proof.
  unfold updateUserApplication, update_outcome, getUserApplication, getItem.
  cbn. destruct (find _ _); reflexivity.
Qed.

Lemma items_with_items (t : table) (l : list obj) (d : database) :
  items t (with_items t l d) = l.
Proof. destruct t; reflexivity. Qed.

Lemma items_with_items_other (t t' : table) (l : list obj) (d : database) :
  t <> t' -> items t' (with_items t l d) = items t' d.
Proof. destruct t, t'; intros N; try reflexivity; contradiction. Qed.


Lemma same_key_key_of (ks : list string) (a b : obj) :
  same_key ks a b = true -> key_of ks a = key_of ks b.
Proof.
  unfold same_key, key_of. induction ks as [|k ks IH]; simpl.
  - reflexivity.
  - intros E. apply andb_true_iff in E. destruct E as [E1 E2].
    rewrite (scalar_eqb_eq _ _ E1), (IH E2). reflexivity.
Qed.


Lemma obj_has_pins (key : obj) (k : string) :
  obj_has key k = true <-> In k (keys key).
Proof.
  unfold keys. induction key as [|[k0 v0] key IH]; simpl.
  - split; [discriminate|tauto].
  - rewrite orb_true_iff, IH, String.eqb_eq. split; intros [H|H]; auto.
Qed.



End Updates.

(** ** Relations every step of a computation respects *)

Section Frames.
Variable R : world -> world -> Prop.
Hypothesis R_refl : forall w, R w w.
Hypothesis R_trans : forall a b c, R a b -> R b c -> R a c.

Lemma steps_ret {A} (a : A) : steps R (ret a).
Proof. intros w. apply R_refl. Qed.

Lemma steps_throw {A} (e : error) : steps R (@throw A e).
Proof. intros w. apply R_refl. Qed.

Lemma steps_read {A} (f : world -> A) : steps R (read f).
Proof. intros w. apply R_refl. Qed.

Lemma steps_modify (f : world -> world) :
  (forall w, R w (f w)) -> steps R (modify f).
Proof. intros H w. apply H. Qed.

Lemma steps_bind {A B} (m : M A) (k : A -> M B) :
  steps R m -> (forall a, steps R (k a)) -> steps R (bind m k).
Proof.
  intros Hm Hk w. unfold bind. specialize (Hm w).
  destruct (m w) as [[a|e] w']; simpl in *.
  - eapply R_trans; [exact Hm|apply Hk].
  - exact Hm.
Qed.

Lemma steps_try_catch {A} (m : M A) (h : error -> M A) :
  steps R m -> (forall e, steps R (h e)) -> steps R (try_catch m h).
Proof.
  intros Hm Hh w. unfold try_catch. specialize (Hm w).
  destruct (m w) as [[a|e] w']; simpl in *.
  - exact Hm.
  - eapply R_trans; [exact Hm|apply Hh].
Qed.

End Frames.

(** Splits a computation along its binds, branches and handlers. *)
Ltac frame_step :=
  match goal with
  | |- steps _ (ret _) => apply steps_ret; assumption
  | |- steps _ (throw _) => apply steps_throw; assumption
  | |- steps _ (read _) => apply steps_read; assumption
  | |- steps _ (bind _ _) => apply steps_bind; [assumption| |intros]
  | |- steps _ (try_catch _ _) => apply steps_try_catch; [assumption| |intros]
  | |- steps _ (if ?b then _ else _) => destruct b
  | |- steps _ (match ?x with _ => _ end) => destruct x
  end.

(** ** The client identifiers (C7) *)

Section ClientIds.
Context {P : Platform}.

Lemma clients_kept_refl (w : world) : clients_kept w w.
Proof. exists []. symmetry. apply app_nil_r. Qed.

Lemma clients_kept_trans (a b c : world) :
  clients_kept a b -> clients_kept b c -> clients_kept a c.
Proof.
  intros [x Hx] [y Hy]. exists (x ++ y)%list.
  rewrite Hy, Hx, app_assoc. reflexivity.
Qed.

Lemma clients_kept_same (w w' : world) :
  CLIENTS_TABLE (db w') = CLIENTS_TABLE (db w) -> clients_kept w w'.
Proof.
  intros E. exists []. unfold client_ids. rewrite E, app_nil_r. reflexivity.
Qed.

Lemma clients_kept_put (t : table) (item : obj) (w : world) :
  clients_kept w
    (with_db (with_items t (put (table_key t) item (items t (db w))) (db w))
       w).
Proof.
  destruct t; try (apply clients_kept_same; reflexivity).
  unfold clients_kept, client_ids. cbn.
  rewrite map_key_put. destruct (existsb _ _).
  - exists []. symmetry. apply app_nil_r.
  - eexists. reflexivity.
Qed.

Ltac clients_frame :=
  cbv zeta;
  repeat first
    [ frame_step
    | apply steps_modify; intros;
      first [ apply clients_kept_put
            | apply clients_kept_same; reflexivity ] ].

Local Hint Resolve clients_kept_refl clients_kept_trans : core.

Lemma getItem_keeps_clients (t : table) (key : obj) :
  steps clients_kept (getItem t key).
Proof.
  pose proof clients_kept_refl. pose proof clients_kept_trans.
  unfold getItem, send. clients_frame.
Qed.

Lemma putItem_keeps_clients (t : table) (item : obj) :
  steps clients_kept (putItem t item).
Proof.
  pose proof clients_kept_refl. pose proof clients_kept_trans.
  unfold putItem, send. clients_frame.
Qed.

Lemma createClient_keeps_clients (clientId s r n d : value) :
  steps clients_kept (createClient clientId s r n d).
Proof.
  pose proof clients_kept_refl. pose proof clients_kept_trans.
  unfold createClient, now_ISO, Date_now.
  clients_frame; apply putItem_keeps_clients.
Qed.

Lemma updateClient_keeps_clients (clientId : value) (updates : obj) :
  steps clients_kept (updateClient clientId updates).
Proof.
  pose proof clients_kept_refl. pose proof clients_kept_trans.
  unfold updateClient, getClientById, now_ISO, Date_now.
  clients_frame;
    first [apply getItem_keeps_clients | apply putItem_keeps_clients].
Qed.

Lemma client_handler_keeps_clients (event : obj) :
  steps clients_kept (ManagementClient.handler event).
Proof.
  pose proof clients_kept_refl. pose proof clients_kept_trans.
  unfold ManagementClient.handler, ManagementClient.handleCreateClient,
    ManagementClient.handleUpdateClient, server_error, getClientById.
  clients_frame;
    first [ apply getItem_keeps_clients
          | apply createClient_keeps_clients
          | apply updateClient_keeps_clients ].
Qed.

Lemma other_handlers_keep_clients (event : obj) :
  steps clients_kept (ManagementUser.handler event)
  /\ steps clients_kept (ManagementApplication.handler event)
  /\ steps clients_kept (ManagementUserApplication.handler event).
Proof.
  pose proof clients_kept_refl. pose proof clients_kept_trans.
  split; [|split].
  - unfold ManagementUser.handler, ManagementUser.handleCreateUser,
      ManagementUser.handleResetPassword, server_error, call3, createUser,
      updateUserPassword, getUserByUsername, getUserById, queryItems,
      get_length, get, bcrypt_hash, uuidv4, draw, now_ISO, Date_now, send.
    clients_frame;
      first [apply getItem_keeps_clients | apply putItem_keeps_clients].
  - unfold ManagementApplication.handler,
      ManagementApplication.handleCreateApplication,
      ManagementApplication.handleUpdateApplication, server_error,
      createApplication, updateApplication, getClientById,
      getApplicationById, uuidv4, draw, now_ISO, Date_now.
    clients_frame;
      first [apply getItem_keeps_clients | apply putItem_keeps_clients].
  - unfold ManagementUserApplication.handler,
      ManagementUserApplication.handleCreateUserApplication,
      ManagementUserApplication.handleUpdateUserApplication, server_error,
      createUserApplication, updateUserApplication, getUserById,
      getApplicationById, getUserApplication, now_ISO, Date_now.
    clients_frame;
      first [apply getItem_keeps_clients | apply putItem_keeps_clients].
Qed.

(** C7. [updateClient] writes a record whose [client_id] is the one it was
    called with, whatever [client_id] the updates carry, and after it every
    record of the clients table has the [client_id] it had before. No
    operation ([createClient], [updateClient], any of the four handlers)
    changes the [client_id] of a stored record: the identifiers in the
    table stay, in place, and new ones are only added. *)
Theorem client_id_is_immutable (clientId : value) (updates : obj)
  (w : world) :
  match updateClient clientId updates w with
  | (Return updated, w') =>
      obj_get updated "client_id" = clientId
      /\ fst (getClientById clientId w') = Return (VObj updated)
      /\ client_ids w' = client_ids w
  | (Throw _, w') => client_ids w' = client_ids w
  end
  /\ (forall clientSecret redirectUris name description,
        clients_kept w
          (snd (createClient clientId clientSecret redirectUris name
                  description w)))
  /\ (forall event,
        clients_kept w (snd (ManagementClient.handler event w))
        /\ clients_kept w (snd (ManagementUser.handler event w))
        /\ clients_kept w (snd (ManagementApplication.handler event w))
        /\ clients_kept w (snd (ManagementUserApplication.handler event w))).
Proof.
  split; [|split].
  - rewrite updateClient_run. unfold update_outcome.
    destruct (find _ _) as [stored|] eqn:F; [|reflexivity].
    set (updated := updated_record _ _ _ _).
    assert (Hid : obj_get updated "client_id" = clientId).
    { unfold updated, updated_record. cbn [fold_left fst snd].
      rewrite obj_get_set_other by discriminate. apply obj_get_set_same. }
    clearbody updated.
    destruct (find_has_key _ _ _ F) as [Hin Hkey].
    specialize (Hkey "client_id" clientId (or_introl eq_refl)).
    split; [exact Hid|]. split.
    + unfold getClientById, getItem, send. cbn.
      replace [("client_id", clientId)]
        with (key_of ["client_id"] updated)
        by (unfold key_of; simpl; rewrite Hid; reflexivity).
      rewrite find_put_key; [reflexivity|].
      simpl. rewrite Hid, (scalar_eqb_refl _ _ Hkey). reflexivity.
    + unfold client_ids. cbn. rewrite map_key_put.
      replace (existsb _ _) with true; [reflexivity|].
      symmetry. apply existsb_exists. exists stored.
      split; [exact Hin|]. simpl. rewrite Hid, Hkey. reflexivity.
  - intros. apply createClient_keeps_clients.
  - intros event.
    destruct (other_handlers_keep_clients event) as (Hu & Ha & Hm).
    split; [apply client_handler_keeps_clients|].
    split; [apply Hu|]. split; [apply Ha|apply Hm].
Qed.

End ClientIds.

(** ** What an update merges (C10) *)

Section Merge.
Context {P : Platform}.




End Merge.

Section MergeExample.
#[local] Existing Instance Sim.platform.



End MergeExample.

(** ** The issuer URL cache (C6) *)

Section IssuerUrl.
Context {P : Platform}.

Lemma cache_valid_fresh (w : world) :
  cache_valid (clock w) w = true <-> cache_fresh w.
Proof.
  unfold cache_valid, cache_fresh, CACHE_TTL_MS. split.
  - intros H. apply andb_true_iff in H. destruct H as [H Hlt].
    apply andb_true_iff in H. destruct H as [Hurl Hts].
    split; [exact Hurl|].
    destruct (cacheTimestamp w) as [| | |ts| | |]; try discriminate.
    exists ts. split; [reflexivity|]. simpl in Hts.
    apply negb_true_iff, Z.eqb_neq in Hts. apply Z.ltb_lt in Hlt.
    split; [exact Hts|exact Hlt].
  - intros [Hurl (ts & Hts & Hnz & Hlt)]. rewrite Hurl, Hts. simpl.
    apply Z.eqb_neq in Hnz. rewrite Hnz. simpl. apply Z.ltb_lt. exact Hlt.
Qed.

Lemma getIssuerUrl_cached (w : world) :
  cache_valid (clock w) w = true ->
  getIssuerUrl w = (Return (cachedIssuerUrl w), w).
Proof.
  intros H. unfold getIssuerUrl, Date_now, bind, read. rewrite H.
  reflexivity.
Qed.

Lemma getIssuerUrl_fetched (w : world) :
  cache_valid (clock w) w = false ->
  getIssuerUrl w =
  match issuer_url_param (ssm w) with
  | Some url =>
      (Return (VStr url),
       with_cache (VStr url) (VNum (clock w))
         (with_sent (GetParameterCommand ISSUER_URL_PARAM_NAME) w))
  | None =>
      (Throw (Error "OIDC issuer URL parameter not found in SSM"),
       with_sent (GetParameterCommand ISSUER_URL_PARAM_NAME) w)
  end.
Proof.
  intros H. unfold getIssuerUrl, Date_now, bind, read. rewrite H.
  unfold try_catch, GetParameter, send, bind, modify, read. cbn.
  destruct (issuer_url_param (ssm w)); reflexivity.
Qed.

(** C6, as amended. When a non-empty value is cached and was fetched less
    than five minutes ago, [getIssuerUrl] returns it and sends nothing to
    the parameter store. In every other case - nothing cached yet, or the
    value fetched five minutes ago or earlier - it asks the parameter store
    and, when the parameter exists, returns its value and caches it with
    the current time; when it does not exist the call fails and the cache
    stays as it was. *)
Theorem issuer_url_cache (w : world) :
  (cache_fresh w -> getIssuerUrl w = (Return (cachedIssuerUrl w), w))
  /\ (~ cache_fresh w ->
      getIssuerUrl w =
      match issuer_url_param (ssm w) with
      | Some url =>
          (Return (VStr url),
           with_cache (VStr url) (VNum (clock w))
             (with_sent (GetParameterCommand ISSUER_URL_PARAM_NAME) w))
      | None =>
          (Throw (Error "OIDC issuer URL parameter not found in SSM"),
           with_sent (GetParameterCommand ISSUER_URL_PARAM_NAME) w)
      end).
Proof.
  split; intros H.
  - apply getIssuerUrl_cached. apply cache_valid_fresh. exact H.
  - apply getIssuerUrl_fetched.
    destruct (cache_valid (clock w) w) eqn:E; [|reflexivity].
    exfalso. apply H. apply cache_valid_fresh. exact E.
Qed.

End IssuerUrl.

Section IssuerUrlExample.
#[local] Existing Instance Sim.platform.

(** One millisecond short of five minutes the cached value is served; a
    cold process asks the parameter store. *)
Lemma issuer_url_cache_witness :
  (cache_fresh (cached_at_1000 300999) /\
   getIssuerUrl (cached_at_1000 300999)
   = (Return (VStr "https://issuer.example.com"), cached_at_1000 300999))
  /\ (~ cache_fresh (Sim.cold 0) /\
      getIssuerUrl (Sim.cold 0)
      = (Throw (Error "OIDC issuer URL parameter not found in SSM"),
         with_sent (GetParameterCommand ISSUER_URL_PARAM_NAME)
           (Sim.cold 0))).
Proof.
  assert (F : cache_fresh (cached_at_1000 300999)).
  { split; [reflexivity|]. exists 1000%Z. simpl. repeat split; lia. }
  assert (C : ~ cache_fresh (Sim.cold 0)).
  { intros [H _]. discriminate H. }
  split; split; try assumption.
  - exact (proj1 (issuer_url_cache (cached_at_1000 300999)) F).
  - exact (proj2 (issuer_url_cache (Sim.cold 0)) C).
Defined.

(** C6 as stated fails at exactly five minutes: the value was fetched five
    minutes ago, not more, and yet the parameter store is asked and the
    cache replaced. *)
Lemma issuer_url_refetched_at_five_minutes :
  getIssuerUrl (cached_at_1000 301000)
  = (Return (VStr "https://new-issuer.example.com"),
     with_cache (VStr "https://new-issuer.example.com") (VNum 301000)
       (with_sent (GetParameterCommand ISSUER_URL_PARAM_NAME)
          (cached_at_1000 301000))).
Proof. vm_compute. reflexivity. Qed.

End IssuerUrlExample.

(** ** The signing keys (C1) *)

Section SigningKeys.
Context {P : Platform}.

Lemma getSigningKeys_absent (w : world) :
  jwt_keys_param (ssm w) = None ->
  getSigningKeys w =
  (Throw {| error_name := "ParameterNotFound";
            error_message := "Parameter not found" |}, keys_read w).
Proof.
  intros H. unfold getSigningKeys, try_catch, GetParameter, send, bind,
    modify, read. cbn. rewrite H. reflexivity.
Qed.

Lemma getSigningKeys_stored (w : world) (text : string) (keys : value) :
  jwt_keys_param (ssm w) = Some text ->
  JSON_parse text = Some keys ->
  keys <> VNull -> keys <> VUndefined ->
  getSigningKeys w =
  if complete keys then (Return keys, keys_read w)
  else
    let keysJson := JSON_stringify (VObj (generated_keys w)) in
    if (4096 <? Z.of_nat (String.length keysJson))%Z then
      (Throw (Error ("JWT keys too large for SSM parameter: "
                     ++ dec (Z.of_nat (String.length keysJson))
                     ++ " bytes (max 4096)")), keys_drawn w)
    else (Return (VObj (generated_keys w)), keys_persisted w).
Proof.
  intros Hparam Hparse Hnull Hundef.
  unfold getSigningKeys, try_catch, GetParameter, JSON_parse_text, send,
    bind, modify, read. cbn. rewrite Hparam. cbn. rewrite Hparse. cbn.
  unfold complete, property, get.
  destruct keys; try congruence; cbn;
    try (destruct (4096 <? _)%Z; reflexivity).
  destruct (truthy (obj_get props "private_key")); cbn;
    [destruct (truthy (obj_get props "public_key")); cbn|];
    try reflexivity; destruct (4096 <? _)%Z; reflexivity.
Qed.

(** C1, as amended. When the parameter does not exist, [getSigningKeys]
    fails with the parameter store's error: nothing is generated and
    nothing written. When the parameter holds the JSON text of a value
    other than [null]:
    - if the value has both a private and a public key, it is returned as
      it is, with no draw and no write;
    - otherwise a 2048-bit RSA pair and a fresh key identifier are drawn,
      and the structure with algorithm tag RS256 is persisted and returned,
      unless its JSON text is longer than 4096, in which case the call
      fails before any write. *)
Theorem signing_keys_lifecycle (w : world) :
  (jwt_keys_param (ssm w) = None ->
   getSigningKeys w =
   (Throw {| error_name := "ParameterNotFound";
             error_message := "Parameter not found" |}, keys_read w))
  /\ (forall text keys,
        jwt_keys_param (ssm w) = Some text ->
        JSON_parse text = Some keys ->
        keys <> VNull -> keys <> VUndefined ->
        if complete keys then getSigningKeys w = (Return keys, keys_read w)
        else
          let keysJson := JSON_stringify (VObj (generated_keys w)) in
          if (4096 <? Z.of_nat (String.length keysJson))%Z then
            exists e,
              getSigningKeys w = (Throw e, keys_drawn w)
              /\ ssm (keys_drawn w) = ssm w
              /\ filter is_write (sent (keys_drawn w))
                 = filter is_write (sent w)
          else
            getSigningKeys w
            = (Return (VObj (generated_keys w)), keys_persisted w)
            /\ obj_get (generated_keys w) "alg" = VStr "RS256"
            /\ jwt_keys_param (ssm (keys_persisted w)) = Some keysJson).
Proof.
  split; [apply getSigningKeys_absent|].
  intros text keys Hparam Hparse Hnull Hundef.
  rewrite (getSigningKeys_stored w text keys Hparam Hparse Hnull Hundef).
  destruct (complete keys); [reflexivity|]. cbv zeta.
  destruct (4096 <? _)%Z.
  - eexists. split; [reflexivity|]. split; [reflexivity|].
    cbn. apply filter_is_write_read. reflexivity.
  - repeat split.
Qed.

End SigningKeys.

Section SigningKeysExample.
#[local] Existing Instance Sim.platform.

(** The first call on the provisioned parameter generates and persists a
    key structure. *)
Lemma signing_keys_lifecycle_witness :
  jwt_keys_param (ssm provisioned) = Some "{}"
  /\ JSON_parse "{}" = Some (VObj [])
  /\ VObj [] <> VNull /\ VObj [] <> VUndefined
  /\ getSigningKeys provisioned
     = (Return (VObj (generated_keys provisioned)),
        keys_persisted provisioned)
  /\ generated_keys provisioned
     = [("private_key", VStr "PRIVATE KEY 2048/0");
        ("public_key", VStr "PUBLIC KEY 2048/0"); ("kid", VStr "uuid-1");
        ("alg", VStr "RS256")].
Proof.
  assert (H1 : jwt_keys_param (ssm provisioned) = Some "{}")
    by reflexivity.
  assert (H2 : JSON_parse "{}" = Some (VObj [])) by reflexivity.
  assert (H3 : VObj [] <> VNull) by discriminate.
  assert (H4 : VObj [] <> VUndefined) by discriminate.
  repeat (split; [assumption|]).
  split; [|reflexivity].
  exact (proj1 (proj2 (signing_keys_lifecycle provisioned) "{}" (VObj [])
                  H1 H2 H3 H4)).
Defined.

(** C1 as stated fails when the structure is absent: with no parameter in
    the store, and likewise with a parameter that holds [null], the call
    fails, draws nothing and writes nothing. *)
Lemma signing_keys_absent_fails :
  getSigningKeys (Sim.cold 1000)
  = (Throw {| error_name := "ParameterNotFound";
              error_message := "Parameter not found" |},
     with_sent (GetParameterCommand JWT_KEYS_PARAM_NAME) (Sim.cold 1000))
  /\ getSigningKeys
       (with_ssm {| issuer_url_param := None; jwt_keys_param := Some "null" |}
          (Sim.cold 1000))
     = (Throw (TypeError "Cannot read properties of null"),
        with_sent (GetParameterCommand JWT_KEYS_PARAM_NAME)
          (with_ssm
             {| issuer_url_param := None; jwt_keys_param := Some "null" |}
             (Sim.cold 1000))).
Proof. vm_compute. split; reflexivity. Qed.

End SigningKeysExample.

(** ** Duplicate keys (C4) *)

Section Duplicates.
Context {P : Platform}.

Lemma try_catch_returned {A} (m : M A) (h : error -> M A) (w : world)
  (a : A) (w' : world) :
  m w = (Return a, w') -> try_catch m h w = (Return a, w').
Proof. intros E. unfold try_catch. rewrite E. reflexivity. Qed.




Lemma existsb_ext (f g : obj -> bool) (l : list obj) :
  (forall x, f x = g x) -> existsb f l = existsb g l.
Proof.
  intros E. induction l as [|i l IH]; simpl; [reflexivity|].
  rewrite E, IH. reflexivity.
Qed.

Lemma check_redirect_uris_rejects (uris : list value) (r : response) :
  check_redirect_uris uris = Some r ->
  exists description,
    r = createErrorResponse "invalid_request" description 400.
Proof.
  induction uris as [|uri uris IH]; simpl; [discriminate|].
  destruct (URL_protocol (to_string uri)) as [protocol|].
  - destruct (negb (protocol =? "https:") && negb (protocol =? "http:")).
    + intros E. injection E as <-. eexists. reflexivity.
    + exact IH.
  - intros E. injection E as <-. eexists. reflexivity.
Qed.

(** Closes a branch that ended in an error response after reads only. *)
Ltac rejected :=
  unfold rejected_without_write; cbn;
  split; [eexists; reflexivity|];
  split; [reflexivity|];
  split; [reflexivity|];
  repeat (rewrite filter_is_write_read by reflexivity); reflexivity.

Local Arguments Regex.test : simpl never.
Local Arguments less_than : simpl never.
Local Arguments createErrorResponse : simpl never.
Local Arguments check_redirect_uris : simpl never.






End Duplicates.

(** ** Creating a user (C5) *)

Section CreateUser.
Context {P : Platform}.

Lemma existsb_false_filter (f : obj -> bool) (l : list obj) :
  existsb f l = false -> filter f l = [].
Proof.
  induction l as [|i l IH]; simpl; [reflexivity|].
  destruct (f i); simpl; [discriminate|exact IH].
Qed.

Lemma matches_nonempty (r : Regex.re) (s : string) :
  Regex.nullable r = false -> Regex.matches r s = true -> s <> "".
Proof. intros N M ->. simpl in M. congruence. Qed.

Lemma truthy_string (s : string) : s <> "" -> truthy (VStr s) = true.
Proof.
  intros N. simpl. apply negb_true_iff. apply String.eqb_neq. exact N.
Qed.


Lemma getUserById_stored (user : obj) (id : string) (w : world) :
  obj_get user "user_id" = VStr id ->
  fst (getUserById (VStr id) (user_stored user w)) = Return (VObj user).
Proof.
  intros Hid. unfold getUserById, getItem, send, bind, modify, read, ret.
  cbn.
  replace [("user_id", VStr id)] with (key_of ["user_id"] user)
    by (unfold key_of; simpl; rewrite Hid; reflexivity).
  rewrite find_put_key; [reflexivity|].
  simpl. rewrite Hid. simpl. rewrite String.eqb_refl. reflexivity.
Qed.

(** C5. A createUser request with string fields that pass the handler's
    validation (username and email formats, password of at least eight
    characters) and a username no stored user has: the user record, with
    its bcrypt [password_hash], is persisted and can be read back under its
    generated [user_id]; the answer has status 200 and its body holds the
    [user_id] and every field of the record except [password_hash]. *)
Theorem valid_user_is_created (event : obj) (username password email : string)
  (w : world) :
  obj_get event "operation" = VStr "createUser" ->
  obj_get event "username" = VStr username ->
  obj_get event "password" = VStr password ->
  obj_get event "email" = VStr email ->
  Regex.matches Regex.username_format username = true ->
  Regex.matches Regex.email_format email = true ->
  (8 <= String.length password)%nat ->
  stored_with users [("username", VStr username)] w = false ->
  let user := new_user username password email (username_queried username w) in
  let w' := user_stored user (username_queried username w) in
  ManagementUser.handler event w
  = (Return
       (createResponse 200
          (VObj [("message", VStr "User created successfully");
                 ("user",
                  VObj [("user_id", VStr (uuid_v4 (entropy w)));
                        ("username", VStr username); ("email", VStr email);
                        ("email_verified", VBool false);
                        ("created_at", VStr (Date_toISOString (clock w)));
                        ("updated_at",
                         VStr (Date_toISOString (clock w)))])])), w')
  /\ fst (getUserById (VStr (uuid_v4 (entropy w))) w') = Return (VObj user)
  /\ obj_get user "password_hash"
     = VStr (bcrypt_digest password 10 (S (entropy w))).
Proof.
  intros Hop Hu Hp He Mu Me Hlen Hfresh user w'.
  split; [|split; [apply getUserById_stored; reflexivity|reflexivity]].
  unfold ManagementUser.handler. rewrite Hop.
  apply try_catch_returned.
  change (ManagementUser.handleCreateUser event w =
          (Return
             (createResponse 200
                (VObj [("message", VStr "User created successfully");
                       ("user", VObj (obj_delete user "password_hash"))])),
           w')).
  unfold ManagementUser.handleCreateUser. cbv zeta. rewrite Hu, Hp, He.
  rewrite (truthy_string username)
    by (eapply matches_nonempty; [|exact Mu]; reflexivity).
  rewrite (truthy_string email)
    by (eapply matches_nonempty; [|exact Me]; reflexivity).
  rewrite (truthy_string password)
    by (intros ->; simpl in Hlen; lia).
  unfold Regex.test. cbn [to_string]. rewrite Mu, Me. cbn [negb orb].
  unfold bind at 1. cbn [get_length length_of ret].
  replace (less_than (VNum (Z.of_nat (String.length password))) 8)
    with false
    by (symmetry; unfold less_than, to_number; apply Z.ltb_ge; lia).
  unfold stored_with in Hfresh.
  rewrite (existsb_ext _
             (fun item => scalar_eqb (obj_get item "username")
                            (VStr username))) in Hfresh
    by (intros x; unfold has_key; simpl; apply andb_true_r).
  apply existsb_false_filter in Hfresh.
  unfold bind at 1.
  unfold getUserByUsername, queryItems, bind, send, modify, read, ret.
  cbn. cbn in Hfresh. rewrite Hfresh. reflexivity.
Qed.

End CreateUser.

Section CreateUserExample.
#[local] Existing Instance Sim.platform.

(** The first submission of the scenario: status 200, the body without
    [password_hash], the record stored with it. *)
Lemma valid_user_is_created_witness :
  Regex.matches Regex.username_format "alice123" = true
  /\ Regex.matches Regex.email_format "a@example.com" = true
  /\ (8 <= String.length "Passw0rd!")%nat
  /\ stored_with users [("username", VStr "alice123")] (Sim.cold 1000)
     = false
  /\ ManagementUser.handler alice (Sim.cold 1000)
     = (Return
          (createResponse 200
             (VObj [("message", VStr "User created successfully");
                    ("user", VObj (obj_delete alice_record "password_hash"))])),
        alice_created)
  /\ fst (getUserById (VStr "uuid-0") alice_created)
     = Return (VObj alice_record).
Proof.
  assert (Hlen : (8 <= String.length "Passw0rd!")%nat) by (simpl; lia).
  destruct (valid_user_is_created alice "alice123" "Passw0rd!"
              "a@example.com" (Sim.cold 1000) eq_refl eq_refl eq_refl
              eq_refl eq_refl eq_refl Hlen eq_refl) as (H1 & H2 & _).
  do 4 (split; [reflexivity || exact Hlen|]).
  split; [exact H1|exact H2].
Defined.


End CreateUserExample.

(** ** Passwords (C3) *)

Section Passwords.
Context {P : Platform}.

Lemma existsb_false_In (f : obj -> bool) (l : list obj) :
  existsb f l = false -> forall i, In i l -> f i = false.
Proof.
  intros H i Hin. destruct (f i) eqn:E; [|reflexivity].
  rewrite <- H. symmetry. apply existsb_exists. exists i. split; assumption.
Qed.

Lemma verifyUserPassword_sole_user (user : obj) (username attempt hash : string)
  (w : world) :
  obj_get user "username" = VStr username ->
  obj_get user "password_hash" = VStr hash ->
  stored_with users [("username", VStr username)] w = false ->
  fst (verifyUserPassword (VStr username) (VStr attempt) (user_stored user w))
  = Return (if bcrypt_matches attempt hash then VObj user else VNull).
Proof.
  intros Hname Hhash Hfresh. unfold stored_with in Hfresh.
  rewrite (existsb_ext _
             (fun item => scalar_eqb (obj_get item "username")
                            (VStr username))) in Hfresh
    by (intros x; unfold has_key; simpl; apply andb_true_r).
  assert (F : filter
                (fun item => scalar_eqb (obj_get item "username")
                               (VStr username))
                (put ["user_id"] user (USERS_TABLE (db w))) = [user]).
  { apply filter_put_fresh.
    - rewrite Hname. simpl. apply String.eqb_refl.
    - apply existsb_false_In. exact Hfresh. }
  unfold verifyUserPassword, getUserByUsername, queryItems, bind, send,
    modify, read, ret. cbn. cbn in F. rewrite F. cbn.
  rewrite Hhash. cbn. destruct (bcrypt_matches attempt hash); reflexivity.
Qed.


End Passwords.

Section PasswordsExample.
#[local] Existing Instance Sim.platform.





End PasswordsExample.

(** ** Tokens (C2) *)

Section Tokens.
Context {P : Platform}.

Lemma bind_returned {A B} (m : M A) (k : A -> M B) (w w' : world) (b : B) :
  bind m k w = (Return b, w') ->
  exists a wm, m w = (Return a, wm) /\ k a wm = (Return b, w').
Proof.
  unfold bind. destruct (m w) as [[a|e] wm]; [eauto|discriminate].
Qed.

Lemma get_returned (v : value) (k : string) (w w' : world) (x : value) :
  get v k w = (Return x, w') -> member v k = Some x /\ w' = w.
Proof.
  unfold get. destruct (member v k); cbn; intros E; inversion E; auto.
Qed.

(** What a successful [getSigningKeys] found or did. *)
Lemma getSigningKeys_returned (w w' : world) (keys : value) :
  getSigningKeys w = (Return keys, w') ->
  exists text stored,
    jwt_keys_param (ssm w) = Some text
    /\ JSON_parse text = Some stored
    /\ stored <> VNull /\ stored <> VUndefined
    /\ if complete stored then keys = stored /\ w' = keys_read w
       else keys = VObj (generated_keys w) /\ w' = keys_persisted w.
Proof.
  intros H.
  destruct (jwt_keys_param (ssm w)) as [text|] eqn:Hparam;
    [|rewrite (getSigningKeys_absent w Hparam) in H; discriminate].
  destruct (JSON_parse text) as [stored|] eqn:Hparse.
  - assert (Hnull : stored <> VNull).
    { intros ->. revert H.
      unfold getSigningKeys, try_catch, GetParameter, JSON_parse_text, send,
        bind, modify, read. cbn. rewrite Hparam. cbn. rewrite Hparse.
      discriminate. }
    assert (Hundef : stored <> VUndefined).
    { intros ->. revert H.
      unfold getSigningKeys, try_catch, GetParameter, JSON_parse_text, send,
        bind, modify, read. cbn. rewrite Hparam. cbn. rewrite Hparse.
      discriminate. }
    exists text, stored. split; [reflexivity|].
    repeat (split; [assumption|]).
    rewrite (getSigningKeys_stored w text stored Hparam Hparse Hnull Hundef)
      in H.
    destruct (complete stored).
    + inversion H. auto.
    + cbv zeta in H. destruct (4096 <? _)%Z; inversion H. auto.
  - revert H.
    unfold getSigningKeys, try_catch, GetParameter, JSON_parse_text, send,
      bind, modify, read. cbn. rewrite Hparam. cbn. rewrite Hparse.
    discriminate.
Qed.

(** Once [getSigningKeys] has returned a structure, it returns the same
    structure from any world that holds the same parameter, sending only
    the read. *)
Lemma getSigningKeys_settled (w w' : world) (keys : value) :
  keys_survive_storage w ->
  getSigningKeys w = (Return keys, w') ->
  (exists o, keys = VObj o)
  /\ issuer_url_param (ssm w') = issuer_url_param (ssm w)
  /\ clock w' = clock w
  /\ cachedIssuerUrl w' = cachedIssuerUrl w
  /\ cacheTimestamp w' = cacheTimestamp w
  /\ forall v,
       jwt_keys_param (ssm v) = jwt_keys_param (ssm w') ->
       getSigningKeys v = (Return keys, keys_read v).
Proof.
  intros Hjson H.
  destruct (getSigningKeys_returned w w' keys H)
    as (text & stored & Hparam & Hparse & Hnull & Hundef & Hcase).
  destruct (complete stored) eqn:Hc.
  - destruct Hcase as [-> ->].
    split.
    { destruct stored; try congruence; try discriminate Hc. eauto. }
    repeat (split; [reflexivity|]).
    intros v Hv. cbn in Hv. rewrite Hparam in Hv.
    rewrite (getSigningKeys_stored v text stored Hv Hparse Hnull Hundef), Hc.
    reflexivity.
  - destruct Hcase as [-> ->].
    destruct Hjson as (Hround & Hcomplete).
    split; [eauto|].
    repeat (split; [reflexivity|]).
    intros v Hv. cbn in Hv.
    rewrite (getSigningKeys_stored v
               (JSON_stringify (VObj (generated_keys w)))
               (VObj (generated_keys w)) Hv Hround)
      by discriminate.
    rewrite Hcomplete. reflexivity.
Qed.


(** Once [getIssuerUrl] has returned a URL, it returns the same URL from
    any world with the same clock, cache and parameter. *)
Lemma getIssuerUrl_settled (w w' : world) (issuer : value) :
  getIssuerUrl w = (Return issuer, w') ->
  jwt_keys_param (ssm w') = jwt_keys_param (ssm w)
  /\ clock w' = clock w
  /\ forall v,
       clock v = clock w' ->
       cachedIssuerUrl v = cachedIssuerUrl w' ->
       cacheTimestamp v = cacheTimestamp w' ->
       issuer_url_param (ssm v) = issuer_url_param (ssm w') ->
       exists v', getIssuerUrl v = (Return issuer, v') /\ clock v' = clock v.
Proof.
  intros H. destruct (cache_valid (clock w) w) eqn:Hvalid.
  - rewrite (getIssuerUrl_cached w Hvalid) in H. inversion H; subst.
    repeat (split; [reflexivity|]).
    intros v Hclock Hurl Hts Hparam. exists v. split; [|reflexivity].
    rewrite <- Hurl. apply getIssuerUrl_cached.
    unfold cache_valid in *. rewrite Hclock, Hurl, Hts. exact Hvalid.
  - rewrite (getIssuerUrl_fetched w Hvalid) in H.
    destruct (issuer_url_param (ssm w)) as [url|] eqn:Hparam;
      [|discriminate].
    inversion H; subst. repeat (split; [reflexivity|]).
    intros v Hclock Hurl Hts Hparam'. cbn in Hclock, Hurl, Hts, Hparam'.
    destruct (cache_valid (clock v) v) eqn:Hvalid'.
    + exists v. split; [|reflexivity].
      rewrite (getIssuerUrl_cached v Hvalid'), Hurl. reflexivity.
    + rewrite (getIssuerUrl_fetched v Hvalid'), Hparam', Hparam.
      eexists. split; reflexivity.
Qed.



(** Signing and verification are given the two halves of one key structure
    and one issuer. If [createJWT] returns a token, the token is what
    [jwt.sign] made with the private key and key identifier of a structure
    [keys], algorithm RS256 and an issuer; [verifyJWT], called next on any
    token, is [jwt.verify] with the public key of the same [keys], RS256
    and the same issuer. *)
Theorem tokens_share_keys_and_issuer (payload expiresIn : value)
  (w w1 : world) (token : jwt_token) :
  keys_survive_storage w ->
  createJWT payload expiresIn w = (Return token, w1) ->
  exists keys issuer,
    jsonwebtoken_sign payload (property keys "private_key") "RS256"
      (default_to expiresIn (VStr "1h")) (property keys "kid") issuer
      (clock w)
    = Return token
    /\ forall presented,
         exists w2,
           verifyJWT presented w1
           = (jsonwebtoken_verify presented (property keys "public_key")
                ["RS256"] issuer (clock w), w2).
Proof.
  intros Hjson Hcreate. unfold createJWT in Hcreate. cbv zeta in Hcreate.
  apply bind_returned in Hcreate. destruct Hcreate as (keys & wa & Hkeys & H).
  apply bind_returned in H. destruct H as (issuer & wb & Hissuer & H).
  apply bind_returned in H. destruct H as (private_key & w3 & Hpriv & H).
  apply get_returned in Hpriv. destruct Hpriv as [Hpriv ->].
  apply bind_returned in H. destruct H as (kid & w4 & Hkid & H).
  apply get_returned in Hkid. destruct Hkid as [Hkid ->].
  unfold jwt_sign in H. injection H as Hsign <-.
  destruct (getSigningKeys_settled w wa keys Hjson Hkeys)
    as ([o ->] & _ & Hclock_a & _ & _ & Hstable).
  destruct (getIssuerUrl_settled wa wb issuer Hissuer)
    as (Hparam & Hclock & Hsame).
  cbn in Hpriv, Hkid. injection Hpriv as <-. injection Hkid as <-.
  exists (VObj o), issuer. split.
  - rewrite <- Hclock_a, <- Hclock. exact Hsign.
  - intros presented.
    destruct (Hsame (keys_read wb) eq_refl eq_refl eq_refl eq_refl)
      as (v' & Hagain & Hclock').
    exists v'. unfold verifyJWT, bind.
    rewrite (Hstable wb Hparam), Hagain. cbn. unfold jwt_verify.
    rewrite Hclock'. cbn. rewrite Hclock, Hclock_a. reflexivity.
Qed.

(** Keys are generated once. After a successful [getSigningKeys], another
    call returns the same structure and only reads the parameter: no draw,
    no write. *)
Theorem signing_keys_are_reused (w w' : world) (keys : value) :
  keys_survive_storage w ->
  getSigningKeys w = (Return keys, w') ->
  getSigningKeys w' = (Return keys, keys_read w').
Proof.
  intros Hjson H.
  destruct (getSigningKeys_settled w w' keys Hjson H)
    as (_ & _ & _ & _ & _ & Hstable).
  apply Hstable. reflexivity.
Qed.

End Tokens.

Section TokensExample.
#[local] Existing Instance Sim.platform.




(** The sample token again: both calls use the generated pair and the
    issuer of the parameter store. *)
Lemma tokens_share_keys_and_issuer_witness :
  keys_survive_storage provisioned
  /\ exists token w1,
       createJWT sample_payload VUndefined provisioned = (Return token, w1)
       /\ exists keys issuer,
            jsonwebtoken_sign sample_payload (property keys "private_key")
              "RS256" (VStr "1h") (property keys "kid") issuer
              (clock provisioned)
            = Return token
            /\ forall presented,
                 exists w2,
                   verifyJWT presented w1
                   = (jsonwebtoken_verify presented
                        (property keys "public_key") ["RS256"] issuer
                        (clock provisioned), w2).
Proof.
  assert (H1 : keys_survive_storage provisioned) by (split; reflexivity).
  split; [exact H1|].
  destruct (createJWT sample_payload VUndefined provisioned)
    as [[token|e] w1] eqn:Hcreate; [|discriminate Hcreate].
  exists token, w1. split; [reflexivity|].
  exact (tokens_share_keys_and_issuer sample_payload VUndefined provisioned
           w1 token H1 Hcreate).
Defined.

(** The second call on the provisioned parameter store. *)
Lemma signing_keys_are_reused_witness :
  keys_survive_storage provisioned
  /\ getSigningKeys provisioned
     = (Return (VObj (generated_keys provisioned)),
        keys_persisted provisioned)
  /\ getSigningKeys (keys_persisted provisioned)
     = (Return (VObj (generated_keys provisioned)),
        keys_read (keys_persisted provisioned)).
Proof.
  assert (H1 : keys_survive_storage provisioned) by (split; reflexivity).
  assert (H2 : getSigningKeys provisioned
               = (Return (VObj (generated_keys provisioned)),
                  keys_persisted provisioned)) by reflexivity.
  split; [exact H1|]. split; [exact H2|].
  exact (signing_keys_are_reused provisioned (keys_persisted provisioned)
           (VObj (generated_keys provisioned)) H1 H2).
Defined.

End TokensExample.

(** ** Further properties of the handlers *)

Section Envelope.
Context {P : Platform}.

Lemma try_catch_answers (m : M response) (w : world) :
  exists r w', try_catch m server_error w = (Return r, w').
Proof.
  unfold try_catch, server_error, ret.
  destruct (m w) as [[r|e] w']; eauto.
Qed.

(** Every invocation of a management handler returns a response: an
    exception raised anywhere inside is turned into one by the outer
    [catch]. *)
Theorem handlers_always_answer (event : obj) (w : world) :
  (exists r w', ManagementUser.handler event w = (Return r, w'))
  /\ (exists r w', ManagementClient.handler event w = (Return r, w'))
  /\ (exists r w', ManagementApplication.handler event w = (Return r, w'))
  /\ (exists r w',
        ManagementUserApplication.handler event w = (Return r, w')).
Proof. repeat split; apply try_catch_answers. Qed.

Lemma existsb_false_find (f : obj -> bool) (l : list obj) :
  existsb f l = false -> find f l = None.
Proof.
  induction l as [|i l IH]; simpl; [reflexivity|].
  destruct (f i); simpl; [discriminate|exact IH].
Qed.

Ltac rejected :=
  unfold rejected_without_write; cbn;
  split; [eexists; reflexivity|];
  split; [reflexivity|];
  split; [reflexivity|];
  repeat (rewrite filter_is_write_read by reflexivity); reflexivity.

Local Arguments createErrorResponse : simpl never.
Local Arguments check_redirect_uris : simpl never.
Local Arguments less_than : simpl never.





End Envelope.

Section EnvelopeExample.
#[local] Existing Instance Sim.platform.


End EnvelopeExample.

(** ** The identifier formats *)

Section Formats.

Lemma matches_Void (s : string) : Regex.matches Regex.Void s = false.
Proof. induction s as [|c s IH]; simpl; [reflexivity|exact IH]. Qed.

(** A bounded repetition of a character class accepts the strings of an
    allowed length whose characters are all in the class. *)
Lemma matches_Rep_Class (p : ascii -> bool) (s : string) :
  forall lo hi : nat,
    Regex.matches (Regex.Rep (Regex.Class p) lo (Some hi)) s
    = Nat.leb lo (String.length s) && Nat.leb (String.length s) hi
      && forallb p (list_ascii_of_string s).
Proof.
  induction s as [|c s IH]; intros lo hi.
  - simpl. destruct lo; simpl; [reflexivity|].
    reflexivity.
  - destruct hi as [|h].
    + simpl. rewrite matches_Void. rewrite andb_false_r. reflexivity.
    + cbn [Regex.matches Regex.deriv String.length list_ascii_of_string
             forallb].
      destruct (p c); cbn [Regex.seq].
      * rewrite IH. destruct lo; simpl; reflexivity.
      * rewrite matches_Void.
        rewrite andb_false_r. reflexivity.
Qed.

(** The username format of [handleCreateUser] accepts exactly the strings
    of 3 to 50 characters among letters, digits, dash and underscore; the
    identifier format of the client and application handlers the same with
    up to 100 characters. *)
Theorem identifier_formats (s : string) :
  (Regex.test Regex.username_format (VStr s) = true <->
   (3 <= String.length s <= 50)%nat
   /\ Forall (fun c => Regex.word_dash c = true) (list_ascii_of_string s))
  /\ (Regex.test Regex.identifier_format (VStr s) = true <->
      (3 <= String.length s <= 100)%nat
      /\ Forall (fun c => Regex.word_dash c = true)
           (list_ascii_of_string s)).
Proof.
  unfold Regex.test, Regex.username_format, Regex.identifier_format.
  cbn [to_string]. rewrite !matches_Rep_Class.
  rewrite !andb_true_iff, !Nat.leb_le, forallb_forall, Forall_forall.
  split; tauto.
Qed.

End Formats.

(** ** Client validation *)

Section Validation.

Lemma truthy_default_to (v : value) :
  truthy (default_to v VNull) = truthy v.
Proof. destruct v; reflexivity. Qed.

Lemma default_to_truthy (v d : value) :
  truthy v = true -> default_to v d = v.
Proof. destruct v; try discriminate; reflexivity. Qed.

Lemma reads_only_get (t : table) (key : obj) (w : world) :
  reads_only w (with_sent (GetCommand t key) w).
Proof.
  unfold reads_only. cbn. repeat split.
  apply filter_is_write_read. reflexivity.
Qed.

Lemma validateClient_reads (clientId clientSecret redirectUri : value)
  (w : world) :
  reads_only w (snd (validateClient clientId clientSecret redirectUri w)).
Proof.
  unfold validateClient, getClientById, getItem, bind, send, modify, read,
    ret. cbv zeta. cbn [items db with_sent fst snd].
  rewrite !truthy_default_to.
  destruct (find _ (CLIENTS_TABLE (db w))) as [client|];
    [|apply reads_only_get].
  cbn [truthy negb].
  destruct (truthy clientSecret); cbn;
    [destruct (negb (strict_equal _ _)); cbn|];
    try apply reads_only_get;
    (destruct (truthy redirectUri); cbn; [|apply reads_only_get]);
    (destruct (obj_get client "redirect_uris"); cbn;
     try apply reads_only_get;
     match goal with
     | |- context [if ?b then _ else _] => destruct b
     end; apply reads_only_get).
Qed.

Lemma validateClient_unknown (clientId clientSecret redirectUri : value)
  (w : world) :
  stored_with clients [("client_id", clientId)] w = false ->
  fst (validateClient clientId clientSecret redirectUri w) = Return VNull.
Proof.
  intros Hmissing. apply existsb_false_find in Hmissing. cbn in Hmissing.
  unfold validateClient, getClientById, getItem, bind, send, modify, read,
    ret. cbn. rewrite Hmissing. reflexivity.
Qed.

Lemma validateClient_found (clientId clientSecret redirectUri : value)
  (client : obj) (uris : list value) (w : world) :
  fst (getClientById clientId w) = Return (VObj client) ->
  obj_get client "redirect_uris" = VArr uris ->
  fst (validateClient clientId clientSecret redirectUri w) =
  Return
    (if (negb (truthy clientSecret)
         || strict_equal (obj_get client "client_secret") clientSecret)
        && (negb (truthy redirectUri)
            || existsb (fun x => strict_equal x redirectUri) uris)
     then VObj client else VNull).
Proof.
  unfold validateClient, getClientById, getItem, bind, send, modify, read,
    ret. cbv zeta. cbn [items db with_sent fst snd].
  rewrite !truthy_default_to.
  destruct (find _ (CLIENTS_TABLE (db w))) as [c|]; [|discriminate].
  intros Hc Huris. injection Hc as ->. cbn [truthy negb].
  destruct (truthy clientSecret) eqn:Hs; cbn.
  - rewrite (default_to_truthy clientSecret) by exact Hs.
    destruct (strict_equal _ clientSecret); cbn; [|reflexivity].
    destruct (truthy redirectUri) eqn:Hr; cbn; [|reflexivity].
    rewrite Huris. cbn.
    rewrite (default_to_truthy redirectUri) by exact Hr.
    destruct (existsb _ uris); reflexivity.
  - destruct (truthy redirectUri) eqn:Hr; cbn; [|reflexivity].
    rewrite Huris. cbn.
    rewrite (default_to_truthy redirectUri) by exact Hr.
    destruct (existsb _ uris); reflexivity.
Qed.

(** [validateClient] only reads. It answers [null] for a client that is
    not stored. For a stored client with an array of redirect URIs it
    returns the client when the secret, if one is given, is the stored one
    and the redirect URI, if one is given, is among the registered ones,
    and [null] otherwise; a secret or a redirect URI that is missing or
    empty is not checked. *)
Theorem validateClient_checks (clientId clientSecret redirectUri : value)
  (w : world) :
  let run := validateClient clientId clientSecret redirectUri w in
  reads_only w (snd run)
  /\ (stored_with clients [("client_id", clientId)] w = false ->
      fst run = Return VNull)
  /\ (forall client uris,
        fst (getClientById clientId w) = Return (VObj client) ->
        obj_get client "redirect_uris" = VArr uris ->
        fst run =
        Return
          (if (negb (truthy clientSecret)
               || strict_equal (obj_get client "client_secret") clientSecret)
              && (negb (truthy redirectUri)
                  || existsb (fun x => strict_equal x redirectUri) uris)
           then VObj client else VNull)).
Proof.
  intros run. subst run. split; [apply validateClient_reads|].
  split; [apply validateClient_unknown|].
  intros client uris. apply validateClient_found.
Qed.

End Validation.

(** ** Authorization codes and refresh tokens *)

Section StoreRoundTrips.

Lemma find_put_other (ks : list string) (f : obj -> bool) (item : obj)
  (l : list obj) :
  f item = false ->
  (forall i, same_key ks i item = true -> f i = false) ->
  find f (put ks item l) = find f l.
Proof.
  intros Hitem Hsame. induction l as [|i l IH]; simpl.
  - rewrite Hitem. reflexivity.
  - destruct (same_key ks i item) eqn:S; simpl.
    + rewrite Hitem, (Hsame i S). reflexivity.
    + rewrite IH. reflexivity.
Qed.



(** What [getItem] returns from a table. *)
Lemma getItem_value (t : table) (key : obj) (w : world) :
  fst (getItem t key w) =
  Return match find (has_key key) (items t (db w)) with
         | Some item => VObj item
         | None => VUndefined
         end.
Proof. reflexivity. Qed.






End StoreRoundTrips.

Section Codes.
Context {P : Platform} {E : Randomness}.



End Codes.

(** ** Password reset *)

Section PasswordReset.
Context {P : Platform}.

(** A put over the record a key lookup finds, by a record that a query
    selects as well: the query result has the new record in the place of
    the old one. *)
Lemma filter_put_replaced (ks : list string) (f g : obj -> bool)
  (old upd : obj) (rest l : list obj) :
  (forall i, same_key ks i upd = g i) ->
  f upd = true ->
  find g l = Some old ->
  filter f l = old :: rest ->
  filter f (put ks upd l) = upd :: rest.
Proof.
  intros Hkey Hupd. induction l as [|i l IH]; simpl; [discriminate|].
  rewrite Hkey. destruct (g i) eqn:G.
  - intros Hfind. injection Hfind as ->.
    destruct (f old) eqn:F.
    + intros Hfilter. injection Hfilter as <-. simpl. rewrite Hupd.
      reflexivity.
    + intros Hfilter.
      assert (Hin : In old (filter f l)) by (rewrite Hfilter; left; reflexivity).
      apply filter_In in Hin. destruct Hin as [_ Hin]. congruence.
  - intros Hfind. destruct (f i) eqn:F.
    + intros Hfilter. injection Hfilter as -> _.
      apply find_some in Hfind. destruct Hfind as [_ Hfind]. congruence.
    + intros Hfilter. simpl. rewrite F. apply IH; assumption.
Qed.

Lemma getUserByUsername_found (username : value) (user : obj) (w : world) :
  fst (getUserByUsername username w) = Return (VObj user) ->
  exists rest,
    filter (fun item => scalar_eqb (obj_get item "username") username)
      (USERS_TABLE (db w)) = user :: rest.
Proof.
  unfold getUserByUsername, queryItems, bind, send, modify, read, ret. cbn.
  destruct (filter _ _) as [|item rest]; cbn; [discriminate|].
  intros H. injection H as ->. exists rest. reflexivity.
Qed.

Lemma getItem_found (t : table) (key : obj) (item : obj) (w : world) :
  fst (getItem t key w) = Return (VObj item) ->
  find (has_key key) (items t (db w)) = Some item.
Proof.
  rewrite getItem_value. destruct (find _ _); [|discriminate].
  intros H. injection H as ->. reflexivity.
Qed.

Local Arguments less_than : simpl never.
Local Arguments createErrorResponse : simpl never.
Local Arguments createResponse : simpl never.

(** A resetPassword request with a new password of at least eight
    characters, for a username that the lookup by username resolves to a
    user stored under its own [user_id]: the answer has status 200; the
    record stored under that [user_id] now carries the bcrypt hash of the
    new password and the current time as [updated_at], and is otherwise
    the record as it was; [verifyUserPassword] with the username returns
    this record for exactly the plaintexts that [bcrypt.compare] accepts
    against the new hash. No other table changes. *)
Theorem password_reset_takes_effect (event : obj)
  (username newPassword : string) (user : obj) (w : world) :
  obj_get event "operation" = VStr "resetPassword" ->
  obj_get event "username" = VStr username ->
  obj_get event "newPassword" = VStr newPassword ->
  username <> "" ->
  (8 <= String.length newPassword)%nat ->
  fst (getUserByUsername (VStr username) w) = Return (VObj user) ->
  fst (getUserById (obj_get user "user_id") w) = Return (VObj user) ->
  let hash := bcrypt_digest newPassword 10 (entropy w) in
  exists updated w',
    ManagementUser.handler event w
    = (Return
         (createResponse 200
            (VObj [("message", VStr "Password reset successfully");
                   ("username", VStr username)])), w')
    /\ fst (getUserById (obj_get user "user_id") w') = Return (VObj updated)
    /\ obj_get updated "password_hash" = VStr hash
    /\ obj_get updated "updated_at" = VStr (Date_toISOString (clock w))
    /\ (forall k, k <> "password_hash" -> k <> "updated_at" ->
        obj_get updated k = obj_get user k)
    /\ (forall attempt,
        fst (verifyUserPassword (VStr username) (VStr attempt) w')
        = Return (if bcrypt_matches attempt hash then VObj updated
                  else VNull))
    /\ (forall t, t <> users -> items t (db w') = items t (db w)).
Proof.
  intros Hop Hu Hp Hne Hlen Hquery Hid hash.
  destruct (getUserByUsername_found _ _ _ Hquery) as [rest Hfilter].
  apply getItem_found in Hid. cbn [items] in Hid.
  set (updated :=
         obj_set (obj_set user "password_hash" (VStr hash)) "updated_at"
           (VStr (Date_toISOString (clock w)))).
  assert (Hsame : forall k, k <> "password_hash" -> k <> "updated_at" ->
                  obj_get updated k = obj_get user k).
  { intros k N1 N2. unfold updated.
    rewrite !obj_get_set_other by assumption. reflexivity. }
  exists updated. eexists. split.
  { unfold ManagementUser.handler. rewrite Hop.
    apply try_catch_returned.
    change (truthy (VStr "resetPassword")) with true.
    change (is_string (VStr "resetPassword") "createUser") with false.
    change (is_string (VStr "resetPassword") "resetPassword") with true.
    cbv iota zeta. cbn [negb].
    unfold ManagementUser.handleResetPassword. cbv zeta. rewrite Hu, Hp.
    rewrite (truthy_string username) by exact Hne.
    rewrite (truthy_string newPassword)
      by (intros ->; simpl in Hlen; lia).
    cbn [negb orb]. unfold bind at 1. cbn [get_length length_of ret].
    replace (less_than (VNum (Z.of_nat (String.length newPassword))) 8)
      with false
      by (symmetry; unfold less_than, to_number; apply Z.ltb_ge; lia).
    unfold getUserByUsername, queryItems, updateUserPassword, getUserById,
      getItem, bcrypt_hash, now_ISO, Date_now, draw, putItem,
      bind, send, modify, read, ret.
    cbn. cbn in Hfilter. rewrite Hfilter. cbn.
    cbn in Hid. rewrite Hid. cbn. reflexivity. }
  cbn [fst snd]. fold hash. fold updated.
  destruct (find_has_key _ _ _ Hid) as [_ Hscalar].
  specialize (Hscalar "user_id" _ (or_introl eq_refl)).
  assert (Hkey : obj_get updated "user_id" = obj_get user "user_id")
    by (apply Hsame; discriminate).
  assert (Hname : obj_get updated "username" = VStr username).
  { rewrite Hsame by discriminate.
    assert (Hin : In user (user :: rest)) by (left; reflexivity).
    rewrite <- Hfilter in Hin. apply filter_In in Hin.
    destruct Hin as [_ Hin]. apply scalar_eqb_eq in Hin. exact Hin. }
  split.
  { unfold getUserById. rewrite getItem_value. cbn.
    replace [("user_id", obj_get user "user_id")]
      with (key_of ["user_id"] updated)
      by (unfold key_of; simpl; rewrite Hkey; reflexivity).
    rewrite find_put_key; [reflexivity|].
    simpl. rewrite Hkey, Hscalar. reflexivity. }
  split; [unfold updated; rewrite obj_get_set_other by discriminate;
          apply obj_get_set_same|].
  split; [apply obj_get_set_same|].
  split; [exact Hsame|].
  split; [|intros t Ht; destruct t; try reflexivity; contradiction].
  intros attempt.
  unfold verifyUserPassword, getUserByUsername, queryItems, bind, send,
    modify, read, ret. cbn.
  rewrite (filter_put_replaced ["user_id"] _
             (has_key [("user_id", obj_get user "user_id")]) user updated
             rest).
  - cbn. unfold updated at 1. rewrite obj_get_set_other by discriminate.
    rewrite obj_get_set_same. cbn.
    destruct (bcrypt_matches attempt hash); reflexivity.
  - intros i. unfold has_key. simpl. rewrite Hkey. reflexivity.
  - rewrite Hname. simpl. apply String.eqb_refl.
  - exact Hid.
  - exact Hfilter.
Qed.
End PasswordReset.

(** ** Requests that fail validation *)

Section InvalidUserRequests.
Context {P : Platform}.

Local Arguments less_than : simpl never.
Local Arguments createErrorResponse : simpl never.
Local Arguments createResponse : simpl never.
Local Arguments Regex.test : simpl never.

Ltac rejected :=
  unfold rejected_without_write; cbn;
  split; [eexists; reflexivity|];
  split; [reflexivity|];
  split; [reflexivity|];
  repeat (rewrite filter_is_write_read by reflexivity); reflexivity.




End InvalidUserRequests.

Section InvalidClientRequests.
Context {P : Platform}.


Lemma keys_obj_delete (o : obj) (k : string) :
  keys (obj_delete o k) = filter (fun k' => negb (k =? k')) (keys o).
Proof.
  unfold keys. induction o as [|[k0 v0] o IH]; simpl; [reflexivity|].
  destruct (k =? k0); simpl; rewrite IH; reflexivity.
Qed.




Local Arguments createErrorResponse : simpl never.
Local Arguments createResponse : simpl never.
Local Arguments Regex.test : simpl never.
Local Arguments check_redirect_uris : simpl never.


End InvalidClientRequests.

(** ** Creating clients, applications and mappings *)

Section Creation.
Context {P : Platform}.

Local Arguments createErrorResponse : simpl never.
Local Arguments createResponse : simpl never.
Local Arguments Regex.test : simpl never.
Local Arguments check_redirect_uris : simpl never.





End Creation.

(** ** References between entities *)

Section References.
Context {P : Platform}.

Local Arguments createErrorResponse : simpl never.
Local Arguments createResponse : simpl never.
Local Arguments Regex.test : simpl never.

Ltac rejected :=
  unfold rejected_without_write; cbn;
  split; [eexists; reflexivity|];
  split; [reflexivity|];
  split; [reflexivity|];
  repeat (rewrite filter_is_write_read by reflexivity); reflexivity.





End References.

(** ** Unique usernames *)

Section Usernames.
Context {P : Platform}.

Lemma scalar_eqb_sym (a b : value) : scalar_eqb a b = scalar_eqb b a.
Proof.
  destruct a, b; simpl; try reflexivity;
    [apply Z.eqb_sym|apply String.eqb_sym].
Qed.

Lemma unique_on_cons (attr : string) (i : obj) (rest : list obj) :
  unique_on attr (i :: rest) = true
  <-> (forall j, In j rest ->
       scalar_eqb (obj_get i attr) (obj_get j attr) = false)
      /\ unique_on attr rest = true.
Proof.
  simpl. rewrite andb_true_iff, negb_true_iff. split.
  - intros [H1 H2]. split; [|exact H2].
    intros j Hj. exact (existsb_false_In _ _ H1 j Hj).
  - intros [H1 H2]. split; [|exact H2].
    destruct (existsb _ rest) eqn:E; [|reflexivity].
    apply existsb_exists in E. destruct E as (j & Hj & Ej).
    rewrite (H1 j Hj) in Ej. discriminate.
Qed.

Lemma In_put_inv (ks : list string) (item j : obj) (l : list obj) :
  In j (put ks item l) -> j = item \/ In j l.
Proof.
  induction l as [|i l IH]; simpl.
  - intros [<-|[]]. left. reflexivity.
  - destruct (same_key ks i item); simpl.
    + intros [<-|H]; auto.
    + intros [<-|H]; auto. destruct (IH H); auto.
Qed.

(** A put of a record whose [attr] no stored record shares. *)
Lemma unique_on_put_fresh (ks : list string) (attr : string) (item : obj)
  (l : list obj) :
  (forall i, In i l ->
   scalar_eqb (obj_get i attr) (obj_get item attr) = false) ->
  unique_on attr l = true ->
  unique_on attr (put ks item l) = true.
Proof.
  induction l as [|i l IH]; intros Hfresh Hu.
  - reflexivity.
  - apply unique_on_cons in Hu. destruct Hu as [Hi Hl].
    simpl put. destruct (same_key ks i item).
    + apply unique_on_cons. split; [|exact Hl].
      intros j Hj. rewrite scalar_eqb_sym. apply Hfresh. right. exact Hj.
    + apply unique_on_cons. split.
      * intros j Hj. destruct (In_put_inv _ _ _ _ Hj) as [->|Hj'].
        -- apply Hfresh. left. reflexivity.
        -- apply Hi. exact Hj'.
      * apply IH; [|exact Hl]. intros j Hj. apply Hfresh. right. exact Hj.
Qed.

(** A put over the record a key lookup finds, by a record with the same
    [attr]. *)
Lemma unique_on_put_replaced (ks : list string) (attr : string)
  (g : obj -> bool) (old upd : obj) (l : list obj) :
  (forall i, same_key ks i upd = g i) ->
  obj_get upd attr = obj_get old attr ->
  find g l = Some old ->
  unique_on attr l = true ->
  unique_on attr (put ks upd l) = true.
Proof.
  intros Hkey Hattr. induction l as [|i l IH]; [discriminate|].
  intros Hfind Hu. apply unique_on_cons in Hu. destruct Hu as [Hi Hl].
  simpl in Hfind. simpl put. rewrite Hkey. destruct (g i).
  - injection Hfind as ->. apply unique_on_cons. split; [|exact Hl].
    intros j Hj. rewrite Hattr. apply Hi. exact Hj.
  - apply unique_on_cons. split; [|apply IH; assumption].
    intros j Hj. destruct (In_put_inv _ _ _ _ Hj) as [->|Hj'].
    + rewrite Hattr. apply Hi. apply find_some in Hfind. apply Hfind.
    + apply Hi. exact Hj'.
Qed.

Lemma snd_answered (m : M response) (w : world) :
  snd (try_catch m server_error w) = snd (m w).
Proof.
  unfold try_catch, server_error, ret. destruct (m w) as [[r|e] w'];
    reflexivity.
Qed.

Local Arguments less_than : simpl never.
Local Arguments createErrorResponse : simpl never.
Local Arguments createResponse : simpl never.
Local Arguments Regex.test : simpl never.

Lemma createUser_keeps_usernames_unique (event : obj) (w : world) :
  usernames_unique w = true ->
  usernames_unique (snd (ManagementUser.handleCreateUser event w)) = true.
Proof.
  intros Hu. unfold ManagementUser.handleCreateUser. cbv zeta.
  destruct (negb (truthy (obj_get event "username")) || _ || _) eqn:E1;
    [exact Hu|].
  destruct (negb (Regex.test _ (obj_get event "username"))); [exact Hu|].
  destruct (negb (Regex.test _ (obj_get event "email"))); [exact Hu|].
  unfold bind at 1. unfold get_length.
  destruct (length_of (obj_get event "password")) as [n|]; [|exact Hu].
  cbn [ret]. destruct (less_than n 8); [exact Hu|].
  unfold getUserByUsername, queryItems, call3, createUser, uuidv4, draw,
    bcrypt_hash, now_ISO, Date_now, putItem, bind, send, modify, read, ret.
  cbn.
  destruct (filter _ (USERS_TABLE (db w))) as [|found rest] eqn:F; cbn;
    [|exact Hu].
  destruct (obj_get event "password"); cbn; try exact Hu.
  unfold usernames_unique. cbn.
  apply unique_on_put_fresh; [|exact Hu].
  intros i Hi. cbn.
  destruct (scalar_eqb (obj_get i "username") (obj_get event "username"))
    eqn:E; [|reflexivity].
  assert (Hin : In i (filter
                        (fun item =>
                           scalar_eqb (obj_get item "username")
                             (obj_get event "username"))
                        (USERS_TABLE (db w))))
    by (apply filter_In; split; assumption).
  rewrite F in Hin. destruct Hin.
Qed.

Lemma resetPassword_keeps_usernames_unique (event : obj) (w : world) :
  usernames_unique w = true ->
  usernames_unique (snd (ManagementUser.handleResetPassword event w)) = true.
Proof.
  intros Hu. unfold ManagementUser.handleResetPassword. cbv zeta.
  destruct (negb (truthy (obj_get event "username")) || _); [exact Hu|].
  unfold bind at 1. unfold get_length.
  destruct (length_of (obj_get event "newPassword")) as [n|]; [|exact Hu].
  cbn [ret]. destruct (less_than n 8); [exact Hu|].
  unfold getUserByUsername, queryItems, updateUserPassword, getUserById,
    getItem, get, bcrypt_hash, now_ISO, Date_now, draw, putItem, bind, send,
    modify, read, ret.
  cbn.
  destruct (filter _ (USERS_TABLE (db w))) as [|found rest]; cbn;
    [exact Hu|].
  destruct (find _ (USERS_TABLE (db w))) as [stored|] eqn:F; cbn;
    [|exact Hu].
  destruct (obj_get event "newPassword"); cbn; try exact Hu.
  unfold usernames_unique. cbn.
  destruct (find_has_key _ _ _ F) as [_ Hkey].
  specialize (Hkey "user_id" _ (or_introl eq_refl)).
  apply scalar_eqb_eq in Hkey.
  apply (unique_on_put_replaced _ _
           (has_key [("user_id", obj_get found "user_id")]) stored);
    [| |exact F|exact Hu].
  - intros i. unfold has_key. simpl.
    rewrite !obj_get_set_other by discriminate. rewrite Hkey. reflexivity.
  - rewrite !obj_get_set_other by discriminate. reflexivity.
Qed.

(** The user handler keeps usernames unique: if no two stored users share
    a username, the same holds after any invocation. The check is made by
    [handleCreateUser] before it writes; the key of the table is the
    [user_id]. *)
Theorem usernames_stay_unique (event : obj) (w : world) :
  usernames_unique w = true ->
  usernames_unique (snd (ManagementUser.handler event w)) = true.
Proof.
  intros Hu. unfold ManagementUser.handler. rewrite snd_answered.
  cbv zeta.
  destruct (negb (truthy (obj_get event "operation"))); [exact Hu|].
  destruct (is_string _ "createUser");
    [apply createUser_keeps_usernames_unique; exact Hu|].
  destruct (is_string _ "resetPassword");
    [apply resetPassword_keeps_usernames_unique; exact Hu|].
  exact Hu.
Qed.

End Usernames.

(** ** What the handlers leave alone *)

Section Confinement.
Context {P : Platform}.

Lemma map_key_of_put_added (ks : list string) (item : obj) (l : list obj) :
  exists added,
    map (key_of ks) (put ks item l) = (map (key_of ks) l ++ added)%list.
Proof.
  induction l as [|i l [added IH]]; simpl.
  - eexists. reflexivity.
  - destruct (same_key ks i item) eqn:E; simpl.
    + exists []. rewrite (same_key_key_of _ _ _ E), app_nil_r. reflexivity.
    + exists added. rewrite IH. reflexivity.
Qed.

Lemma confined_refl (own : table) (w : world) : confined own w w.
Proof.
  split; [|split; [reflexivity|reflexivity]].
  intros t. exists []. symmetry. apply app_nil_r.
Qed.

Lemma confined_trans (own : table) (a b c : world) :
  confined own a b -> confined own b c -> confined own a c.
Proof.
  intros (K1 & O1 & S1) (K2 & O2 & S2). split; [|split].
  - intros t. destruct (K1 t) as [x Hx]. destruct (K2 t) as [y Hy].
    exists (x ++ y)%list. rewrite Hy, Hx, app_assoc. reflexivity.
  - intros t Ht. rewrite (O2 t Ht). apply O1. exact Ht.
  - congruence.
Qed.

Lemma confined_same (own : table) (w w' : world) :
  db w' = db w -> ssm w' = ssm w -> confined own w w'.
Proof.
  intros D S. split; [|split].
  - intros t. exists []. rewrite D, app_nil_r. reflexivity.
  - intros t _. rewrite D. reflexivity.
  - exact S.
Qed.

Lemma confined_put (own : table) (item : obj) (w : world) :
  confined own w
    (with_db
       (with_items own (put (table_key own) item (items own (db w))) (db w))
       w).
Proof.
  split; [|split].
  - intros t. cbn [db with_db].
    destruct own, t;
      try (exists []; rewrite app_nil_r; reflexivity);
      cbn [items with_items USERS_TABLE CLIENTS_TABLE AUTH_CODES_TABLE
             REFRESH_TOKENS_TABLE APPLICATIONS_TABLE USER_APPLICATIONS_TABLE];
      apply map_key_of_put_added.
  - intros t Ht. cbn [db with_db]. apply items_with_items_other.
    congruence.
  - reflexivity.
Qed.

Ltac confined_frame :=
  cbv zeta;
  repeat first
    [ frame_step
    | apply steps_modify; intros;
      first [ apply confined_put
            | apply confined_same; reflexivity ] ].

Lemma getItem_confined (own t : table) (key : obj) :
  steps (confined own) (getItem t key).
Proof.
  pose proof (confined_refl own). pose proof (confined_trans own).
  unfold getItem, send. confined_frame.
Qed.

Lemma putItem_confined (own : table) (item : obj) :
  steps (confined own) (putItem own item).
Proof.
  pose proof (confined_refl own). pose proof (confined_trans own).
  unfold putItem, send. confined_frame.
Qed.

Lemma user_handler_confined (event : obj) :
  steps (confined users) (ManagementUser.handler event).
Proof.
  pose proof (confined_refl users). pose proof (confined_trans users).
  unfold ManagementUser.handler, ManagementUser.handleCreateUser,
    ManagementUser.handleResetPassword, server_error, call3, createUser,
    updateUserPassword, getUserByUsername, getUserById, queryItems,
    get_length, get, bcrypt_hash, uuidv4, draw, now_ISO, Date_now, send.
  confined_frame;
    first [apply getItem_confined | apply putItem_confined].
Qed.

Lemma client_handler_confined (event : obj) :
  steps (confined clients) (ManagementClient.handler event).
Proof.
  pose proof (confined_refl clients). pose proof (confined_trans clients).
  unfold ManagementClient.handler, ManagementClient.handleCreateClient,
    ManagementClient.handleUpdateClient, server_error, createClient,
    updateClient, getClientById, now_ISO, Date_now.
  confined_frame;
    first [apply getItem_confined | apply putItem_confined].
Qed.

Lemma application_handler_confined (event : obj) :
  steps (confined applications) (ManagementApplication.handler event).
Proof.
  pose proof (confined_refl applications).
  pose proof (confined_trans applications).
  unfold ManagementApplication.handler,
    ManagementApplication.handleCreateApplication,
    ManagementApplication.handleUpdateApplication, server_error,
    createApplication, updateApplication, getClientById,
    getApplicationById, uuidv4, draw, now_ISO, Date_now.
  confined_frame;
    first [apply getItem_confined | apply putItem_confined].
Qed.

Lemma mapping_handler_confined (event : obj) :
  steps (confined userApplications) (ManagementUserApplication.handler event).
Proof.
  pose proof (confined_refl userApplications).
  pose proof (confined_trans userApplications).
  unfold ManagementUserApplication.handler,
    ManagementUserApplication.handleCreateUserApplication,
    ManagementUserApplication.handleUpdateUserApplication, server_error,
    createUserApplication, updateUserApplication, getUserById,
    getApplicationById, getUserApplication, now_ISO, Date_now.
  confined_frame;
    first [apply getItem_confined | apply putItem_confined].
Qed.

(** Each management handler writes records of its own table only, never
    touches the parameter store, and never removes a record or changes the
    key of one: after any invocation, every table holds the keys it held
    before, in place, followed by those of the records added. *)
Theorem handlers_are_confined (event : obj) (w : world) :
  confined users w (snd (ManagementUser.handler event w))
  /\ confined clients w (snd (ManagementClient.handler event w))
  /\ confined applications w (snd (ManagementApplication.handler event w))
  /\ confined userApplications w
       (snd (ManagementUserApplication.handler event w)).
Proof.
  split; [apply user_handler_confined|].
  split; [apply client_handler_confined|].
  split; [apply application_handler_confined|].
  apply mapping_handler_confined.
Qed.

End Confinement.

(** ** Update requests *)

Section UpdateRequests.
Context {P : Platform}.

Lemma obj_has_delete (o : obj) (k k' : string) :
  obj_has (obj_delete o k) k' = obj_has o k' && negb (k' =? k).
Proof.
  induction o as [|[k0 v0] o IH]; simpl; [reflexivity|].
  destruct (k =? k0) eqn:E; simpl.
  - apply String.eqb_eq in E. subst k0. rewrite IH.
    destruct (k' =? k); simpl; [apply andb_false_r|reflexivity].
  - rewrite IH. destruct (k' =? k0) eqn:E0; simpl; [|reflexivity].
    apply String.eqb_eq in E0. subst k0.
    rewrite String.eqb_sym, E. reflexivity.
Qed.

Lemma well_formed_delete (o : obj) (k : string) :
  well_formed o -> well_formed (obj_delete o k).
Proof.
  unfold well_formed. rewrite keys_obj_delete. apply NoDup_filter.
Qed.


Lemma well_formed_stripped (ks : list string) (event : obj) :
  well_formed event -> well_formed (stripped ks event).
Proof.
  intros WF. unfold stripped. apply well_formed_delete.
  revert event WF. induction ks as [|k ks IH]; intros event WF; simpl.
  - exact WF.
  - apply IH. apply well_formed_delete. exact WF.
Qed.








Local Arguments createErrorResponse : simpl never.
Local Arguments createResponse : simpl never.
Local Arguments check_redirect_uris : simpl never.
Local Arguments stripped : simpl never.






End UpdateRequests.

(** ** The email format *)

Section RegexSemantics.
Import Regex.

Lemma append_nil_r (s : string) : s ++ "" = s.
Proof. induction s as [|c s IH]; simpl; [reflexivity|rewrite IH; reflexivity]. Qed.

Lemma append_cons_inv (s1 s2 s : string) (c : ascii) :
  s1 ++ s2 = String c s ->
  (s1 = "" /\ s2 = String c s)
  \/ exists s1', s1 = String c s1' /\ s1' ++ s2 = s.
Proof.
  destruct s1 as [|c1 s1]; simpl.
  - intros ->. left. split; reflexivity.
  - intros E. injection E as -> E. right. exists s1. split; [reflexivity|exact E].
Qed.

Lemma lang_Void (s : string) : ~ lang Void s.
Proof. intros H. inversion H. Qed.

Lemma lang_Eps_inv (s : string) : lang Eps s -> s = "".
Proof. intros H. inversion H. reflexivity. Qed.

Lemma lang_seq (a b : re) (s : string) :
  lang (seq a b) s <-> lang (Seq a b) s.
Proof.
  assert (Hl : forall b s, lang b s <-> lang (Seq Eps b) s).
  { intros b0 s0. split.
    - intros H. exact (lang_Seq Eps b0 "" s0 lang_Eps H).
    - intros H. inversion H as [| |a' b' s1 s2 H1 H2| | | |]; subst.
      apply lang_Eps_inv in H1. subst. exact H2. }
  assert (Hr : forall a s, lang a s <-> lang (Seq a Eps) s).
  { intros a0 s0. split.
    - intros H. rewrite <- (append_nil_r s0).
      exact (lang_Seq a0 Eps s0 "" H lang_Eps).
    - intros H. inversion H as [| |a' b' s1 s2 H1 H2| | | |]; subst.
      apply lang_Eps_inv in H2. subst. rewrite append_nil_r. exact H1. }
  assert (Hvl : forall b s, lang Void s <-> lang (Seq Void b) s).
  { intros b0 s0. split; intros H; [destruct (lang_Void _ H)|].
    inversion H as [| |a' b' s1 s2 H1 H2| | | |]; subst.
    destruct (lang_Void _ H1). }
  assert (Hvr : forall a s, lang Void s <-> lang (Seq a Void) s).
  { intros a0 s0. split; intros H; [destruct (lang_Void _ H)|].
    inversion H as [| |a' b' s1 s2 H1 H2| | | |]; subst.
    destruct (lang_Void _ H2). }
  destruct a, b; simpl;
    first [apply Hvl | apply Hvr | apply Hl | apply Hr | reflexivity].
Qed.

Lemma lang_alt (a b : re) (s : string) :
  lang (alt a b) s <-> lang (Alt a b) s.
Proof.
  assert (Hl : forall b s, lang b s <-> lang (Alt Void b) s).
  { intros b0 s0. split; intros H; [apply lang_Alt_r; exact H|].
    inversion H; subst; [|assumption].
    match goal with H : lang Void _ |- _ => destruct (lang_Void _ H) end. }
  assert (Hr : forall a s, lang a s <-> lang (Alt a Void) s).
  { intros a0 s0. split; intros H; [apply lang_Alt_l; exact H|].
    inversion H; subst; [assumption|].
    match goal with H : lang Void _ |- _ => destruct (lang_Void _ H) end. }
  destruct a, b; simpl; first [apply Hl | apply Hr | reflexivity].
Qed.

Lemma proper_seq (a b : re) :
  proper a = true -> proper b = true -> proper (seq a b) = true.
Proof.
  intros Ha Hb. destruct a, b; simpl in *; try reflexivity;
    try assumption; rewrite ?Ha, ?Hb; reflexivity.
Qed.

Lemma proper_alt (a b : re) :
  proper a = true -> proper b = true -> proper (alt a b) = true.
Proof.
  intros Ha Hb. destruct a, b; simpl in *; try reflexivity;
    try assumption; rewrite ?Ha, ?Hb; reflexivity.
Qed.

Lemma proper_deriv (c : ascii) (r : re) :
  proper r = true -> proper (deriv c r) = true.
Proof.
  induction r as [| |p|a IHa b IHb|a IHa b IHb|a IHa lo hi]; simpl;
    intros H; try reflexivity.
  - destruct (p c); reflexivity.
  - apply andb_true_iff in H. destruct H as [Ha Hb].
    destruct (nullable a).
    + apply proper_alt; [apply proper_seq|]; auto.
    + apply proper_seq; auto.
  - apply andb_true_iff in H. destruct H as [Ha Hb].
    apply proper_alt; auto.
  - pose proof H as H'. apply andb_true_iff in H'. destruct H' as [Ha Hn].
    destruct hi as [[|h]|]; [reflexivity| |];
      (apply proper_seq; [apply IHa; exact Ha|exact H]).
Qed.

Lemma nullable_lang (r : re) :
  proper r = true -> (nullable r = true <-> lang r "").
Proof.
  induction r as [| |p|a IHa b IHb|a IHa b IHb|a IHa lo hi]; simpl;
    intros H.
  - split; [discriminate|]. intros L. destruct (lang_Void _ L).
  - split; [intros _; constructor|reflexivity].
  - split; [discriminate|]. intros L. inversion L.
  - apply andb_true_iff in H. destruct H as [Ha Hb].
    rewrite andb_true_iff, (IHa Ha), (IHb Hb). split.
    + intros [L1 L2]. exact (lang_Seq a b "" "" L1 L2).
    + intros L. inversion L as [| |a' b' s1 s2 L1 L2 E1 E2| | | |]; subst.
      destruct s1; [|discriminate]. destruct s2; [|discriminate].
      split; assumption.
  - apply andb_true_iff in H. destruct H as [Ha Hb].
    rewrite orb_true_iff, (IHa Ha), (IHb Hb). split.
    + intros [L|L]; [apply lang_Alt_l|apply lang_Alt_r]; exact L.
    + intros L. inversion L; subst; auto.
  - apply andb_true_iff in H. destruct H as [Ha Hn].
    apply negb_true_iff in Hn. rewrite Hn, orb_false_r. split.
    + intros E. apply Nat.eqb_eq in E. subst. constructor.
    + intros L. inversion L as [| | | | |a' hi'|a' lo' hi' s1 s2 Hhi L1 L2 E1 E2];
        subst; [reflexivity|].
      destruct s1; [|discriminate].
      apply (IHa Ha) in L1. congruence.
Qed.

Lemma deriv_lang (c : ascii) (r : re) :
  proper r = true ->
  forall s, lang (deriv c r) s <-> lang r (String c s).
Proof.
  induction r as [| |p|a IHa b IHb|a IHa b IHb|a IHa lo hi]; simpl;
    intros H s.
  - split; intros L; inversion L.
  - split; intros L; inversion L.
  - destruct (p c) eqn:Pc.
    + split; intros L.
      * apply lang_Eps_inv in L. subst. constructor. exact Pc.
      * inversion L; subst. constructor.
    + split; intros L; [destruct (lang_Void _ L)|].
      inversion L; subst. congruence.
  - apply andb_true_iff in H. destruct H as [Ha Hb].
    assert (Hseq : lang (seq (deriv c a) b) s
                   <-> exists s1 s2, s = s1 ++ s2
                                     /\ lang a (String c s1) /\ lang b s2).
    { rewrite lang_seq. split.
      - intros L. inversion L as [| |a' b' s1 s2 L1 L2| | | |]; subst.
        exists s1, s2. split; [reflexivity|].
        split; [apply (IHa Ha); exact L1|exact L2].
      - intros (s1 & s2 & -> & L1 & L2). constructor;
          [apply (IHa Ha); exact L1|exact L2]. }
    assert (Hsplit : lang (Seq a b) (String c s)
                     <-> (lang a "" /\ lang b (String c s))
                         \/ exists s1 s2, s = s1 ++ s2
                                          /\ lang a (String c s1)
                                          /\ lang b s2).
    { split.
      - intros L. inversion L as [| |a' b' s1 s2 L1 L2 E1 E2| | | |]; subst.
        destruct (append_cons_inv _ _ _ _ E2) as [[-> ->]|(s1' & -> & <-)].
        + left. split; assumption.
        + right. exists s1', s2. repeat split; assumption.
      - intros [[L1 L2]|(s1 & s2 & -> & L1 & L2)].
        + exact (lang_Seq a b "" (String c s) L1 L2).
        + exact (lang_Seq a b (String c s1) s2 L1 L2). }
    rewrite Hsplit. destruct (nullable a) eqn:Na.
    + rewrite lang_alt. split.
      * intros L. inversion L; subst.
        -- right. apply Hseq. assumption.
        -- left. split; [apply (nullable_lang a Ha); exact Na|].
           apply (IHb Hb). assumption.
      * intros [[L1 L2]|L].
        -- apply lang_Alt_r. apply (IHb Hb). exact L2.
        -- apply lang_Alt_l. apply Hseq. exact L.
    + rewrite Hseq. split; [intros L; right; exact L|].
      intros [[L1 _]|L]; [|exact L].
      apply (nullable_lang a Ha) in L1. congruence.
  - apply andb_true_iff in H. destruct H as [Ha Hb].
    rewrite lang_alt. split.
    + intros L. inversion L; subst;
        [apply lang_Alt_l; apply (IHa Ha)|apply lang_Alt_r; apply (IHb Hb)];
        assumption.
    + intros L. inversion L; subst;
        [apply lang_Alt_l; apply (IHa Ha)|apply lang_Alt_r; apply (IHb Hb)];
        assumption.
  - apply andb_true_iff in H. destruct H as [Ha Hn].
    apply negb_true_iff in Hn.
    assert (Hmore : lang (Rep a lo hi) (String c s)
                    <-> hi <> Some 0%nat
                        /\ exists s1 s2,
                             s = s1 ++ s2 /\ lang a (String c s1)
                             /\ lang (Rep a (pred lo) (option_map pred hi))
                                  s2).
    { split.
      - intros L.
        inversion L as [| | | | |a' hi'|a' lo' hi' s1 s2 Hhi L1 L2 E1 E2];
          subst.
        destruct (append_cons_inv _ _ _ _ E2) as [[-> ->]|(s1' & -> & <-)].
        + apply (nullable_lang a Ha) in L1. congruence.
        + split; [exact Hhi|]. exists s1', s2. repeat split; assumption.
      - intros (Hhi & s1 & s2 & -> & L1 & L2).
        exact (lang_Rep_more a lo hi (String c s1) s2 Hhi L1 L2). }
    rewrite Hmore.
    destruct hi as [[|h]|]; simpl.
    + split; [intros L; destruct (lang_Void _ L)|].
      intros [Hhi _]. congruence.
    + rewrite lang_seq. split.
      * intros L. inversion L as [| |a' b' s1 s2 L1 L2| | | |]; subst.
        split; [discriminate|]. exists s1, s2.
        split; [reflexivity|]. split; [apply (IHa Ha); exact L1|exact L2].
      * intros (_ & s1 & s2 & -> & L1 & L2).
        constructor; [apply (IHa Ha); exact L1|exact L2].
    + rewrite lang_seq. split.
      * intros L. inversion L as [| |a' b' s1 s2 L1 L2| | | |]; subst.
        split; [discriminate|]. exists s1, s2.
        split; [reflexivity|]. split; [apply (IHa Ha); exact L1|exact L2].
      * intros (_ & s1 & s2 & -> & L1 & L2).
        constructor; [apply (IHa Ha); exact L1|exact L2].
Qed.

(** The matcher decides the language of a proper expression. *)
Lemma matches_lang (s : string) :
  forall r, proper r = true -> (matches r s = true <-> lang r s).
Proof.
  induction s as [|c s IH]; intros r H; simpl.
  - apply nullable_lang. exact H.
  - rewrite (IH _ (proper_deriv c r H)). apply deriv_lang. exact H.
Qed.

End RegexSemantics.

Section Email.
Import Regex.

Lemma matches_plus_Class (p : ascii -> bool) (s : string) :
  forall lo : nat,
    matches (Rep (Class p) lo None) s
    = Nat.leb lo (String.length s) && forallb p (list_ascii_of_string s).
Proof.
  induction s as [|c s IH]; intros lo.
  - simpl. destruct lo; reflexivity.
  - cbn [matches deriv String.length list_ascii_of_string forallb].
    destruct (p c); cbn [seq].
    + rewrite IH. destruct lo; reflexivity.
    + rewrite matches_Void, andb_false_r. reflexivity.
Qed.

Lemma lang_plus_Class (p : ascii -> bool) (s : string) :
  lang (plus (Class p)) s
  <-> s <> "" /\ Forall (fun c => p c = true) (list_ascii_of_string s).
Proof.
  unfold plus. rewrite <- matches_lang by reflexivity.
  rewrite matches_plus_Class, andb_true_iff, forallb_forall, Forall_forall,
    Nat.leb_le.
  destruct s; simpl; split; intros [H1 H2]; split; auto; try lia;
    congruence.
Qed.

Lemma lang_lit (c : ascii) (s : string) :
  lang (lit c) s <-> s = String c "".
Proof.
  unfold lit. split.
  - intros L. inversion L as [|p c' Hc| | | | |]; subst.
    apply Ascii.eqb_eq in Hc. subst. reflexivity.
  - intros ->. constructor. apply Ascii.eqb_refl.
Qed.

Lemma lang_Seq_inv (a b : re) (s : string) :
  lang (Seq a b) s <-> exists s1 s2, s = s1 ++ s2 /\ lang a s1 /\ lang b s2.
Proof.
  split.
  - intros L. inversion L as [| |a' b' s1 s2 L1 L2| | | |]; subst.
    exists s1, s2. repeat split; assumption.
  - intros (s1 & s2 & -> & L1 & L2). constructor; assumption.
Qed.

(** The email pattern of [handleCreateUser] accepts exactly the strings
    [local@domain.tld] whose three parts are non-empty and contain neither
    white space nor an at sign (the parts after the at sign may contain
    further dots). *)
Theorem email_format_shape (s : string) :
  test email_format (VStr s) = true
  <-> exists local domain tld,
        s = local ++ "@" ++ domain ++ "." ++ tld
        /\ email_part local /\ email_part domain /\ email_part tld.
Proof.
  unfold test, email_format, email_part. cbn [to_string].
  rewrite matches_lang by reflexivity.
  rewrite lang_Seq_inv. split.
  - intros (l & r1 & -> & Hl & L1).
    apply lang_Seq_inv in L1. destruct L1 as (at_ & r2 & -> & Hat & L2).
    apply lang_Seq_inv in L2. destruct L2 as (d & r3 & -> & Hd & L3).
    apply lang_Seq_inv in L3. destruct L3 as (dot & t & -> & Hdot & Ht).
    apply lang_lit in Hat, Hdot. subst.
    apply lang_plus_Class in Hl, Hd, Ht.
    exists l, d, t. repeat split; tauto.
  - intros (l & d & t & -> & Hl & Hd & Ht).
    exists l, ("@" ++ d ++ "." ++ t). split; [reflexivity|].
    split; [apply lang_plus_Class; exact Hl|].
    apply lang_Seq_inv. exists "@", (d ++ "." ++ t).
    split; [reflexivity|]. split; [apply lang_lit; reflexivity|].
    apply lang_Seq_inv. exists d, ("." ++ t).
    split; [reflexivity|]. split; [apply lang_plus_Class; exact Hd|].
    apply lang_Seq_inv. exists ".", t.
    split; [reflexivity|]. split; [apply lang_lit; reflexivity|].
    apply lang_plus_Class. exact Ht.
Qed.

End Email.

(** ** The shape of the answers *)

Section Answers.
Context {P : Platform}.

Lemma answers_ret {A} (Q : A -> Prop) (a : A) : Q a -> answers Q (ret a).
Proof. intros H w. exact H. Qed.

Lemma answers_throw {A} (Q : A -> Prop) (e : error) : answers Q (throw e).
Proof. intros w. exact I. Qed.

Lemma answers_bind {A B} (Q : B -> Prop) (m : M A) (k : A -> M B) :
  (forall a, answers Q (k a)) -> answers Q (bind m k).
Proof.
  intros H w. unfold bind. destruct (m w) as [[a|e] w']; [apply H|exact I].
Qed.

Lemma answers_try_catch {A} (Q : A -> Prop) (m : M A) (h : error -> M A) :
  answers Q m -> (forall e, answers Q (h e)) -> answers Q (try_catch m h).
Proof.
  intros Hm Hh w. unfold try_catch. specialize (Hm w).
  destruct (m w) as [[a|e] w']; [exact Hm|apply Hh].
Qed.

Lemma shape_success (message : string) (rest : obj) :
  answer_shape
    (createResponse 200 (VObj (("message", VStr message) :: rest))).
Proof. left. eauto. Qed.

Lemma shape_rejected (description : string) :
  answer_shape (createErrorResponse "invalid_request" description 400).
Proof. right. left. eauto. Qed.

Lemma shape_failed (description : string) :
  answer_shape (createErrorResponse "server_error" description 500).
Proof. right. right. eauto. Qed.

Lemma shape_redirect_uris (uris : list value) (r : response) :
  check_redirect_uris uris = Some r -> answer_shape r.
Proof.
  intros H. destruct (check_redirect_uris_rejects _ _ H) as [d ->].
  apply shape_rejected.
Qed.

Local Arguments createErrorResponse : simpl never.
Local Arguments createResponse : simpl never.
Local Arguments check_redirect_uris : simpl never.

Ltac answer_step :=
  match goal with
  | |- answers _ (ret _) =>
      apply answers_ret;
      first [apply shape_success | apply shape_rejected | apply shape_failed
            | eapply shape_redirect_uris; eassumption]
  | |- answers _ (throw _) => apply answers_throw
  | |- answers _ (bind _ _) => apply answers_bind; intros
  | |- answers _ (try_catch _ _) => apply answers_try_catch; [|intros]
  | |- answers _ (if ?b then _ else _) => destruct b
  | |- answers _ (match (if ?b then _ else _) with _ => _ end) => destruct b
  | |- answers _ (match check_redirect_uris ?u with _ => _ end) =>
      let U := fresh "U" in destruct (check_redirect_uris u) eqn:U
  | |- answers _ (match ?x with _ => _ end) => destruct x
  end.

Lemma handlers_answer_in_shape (event : obj) :
  answers answer_shape (ManagementUser.handler event)
  /\ answers answer_shape (ManagementClient.handler event)
  /\ answers answer_shape (ManagementApplication.handler event)
  /\ answers answer_shape (ManagementUserApplication.handler event).
Proof.
  split; [|split; [|split]].
  - unfold ManagementUser.handler, ManagementUser.handleCreateUser,
      ManagementUser.handleResetPassword, server_error. cbv zeta.
    repeat answer_step.
  - unfold ManagementClient.handler, ManagementClient.handleCreateClient,
      ManagementClient.handleUpdateClient, server_error. cbv zeta.
    repeat answer_step.
  - unfold ManagementApplication.handler,
      ManagementApplication.handleCreateApplication,
      ManagementApplication.handleUpdateApplication, server_error. cbv zeta.
    repeat answer_step.
  - unfold ManagementUserApplication.handler,
      ManagementUserApplication.handleCreateUserApplication,
      ManagementUserApplication.handleUpdateUserApplication, server_error.
    cbv zeta. repeat answer_step.
Qed.

Lemma answered_in_shape (m : M response) (w : world) :
  answers answer_shape (try_catch m server_error) ->
  exists r w',
    try_catch m server_error w = (Return r, w')
    /\ answer_shape r
    /\ headers r
       = [("Content-Type", "application/json");
          ("Access-Control-Allow-Origin", "*");
          ("Access-Control-Allow-Headers", "Content-Type,Authorization");
          ("Access-Control-Allow-Methods", "GET,POST,OPTIONS")].
Proof.
  intros H. destruct (try_catch_answers m w) as (r & w' & E).
  exists r, w'. split; [exact E|].
  specialize (H w). rewrite E in H. cbn in H. split; [exact H|].
  destruct H as [(m0 & rest & ->)|[(d & ->)|(d & ->)]]; reflexivity.
Qed.

(** Every invocation of a management handler is answered in one of three
    ways - status 200 with a JSON object that starts with a [message],
    status 400 with error [invalid_request], or status 500 with error
    [server_error] - and every answer carries the same four headers: the
    JSON content type and the three CORS headers. *)
Theorem answers_are_enveloped (event : obj) (w : world) :
  let enveloped (run : outcome response * world) :=
    exists r w',
      run = (Return r, w')
      /\ answer_shape r
      /\ headers r
         = [("Content-Type", "application/json");
            ("Access-Control-Allow-Origin", "*");
            ("Access-Control-Allow-Headers", "Content-Type,Authorization");
            ("Access-Control-Allow-Methods", "GET,POST,OPTIONS")] in
  enveloped (ManagementUser.handler event w)
  /\ enveloped (ManagementClient.handler event w)
  /\ enveloped (ManagementApplication.handler event w)
  /\ enveloped (ManagementUserApplication.handler event w).
Proof.
  intros enveloped. subst enveloped. cbv beta.
  destruct (handlers_answer_in_shape event) as (H1 & H2 & H3 & H4).
  split; [exact (answered_in_shape _ w H1)|].
  split; [exact (answered_in_shape _ w H2)|].
  split; [exact (answered_in_shape _ w H3)|].
  exact (answered_in_shape _ w H4).
Qed.

End Answers.

(** ** Application and mapping requests that fail validation *)

Section InvalidApplicationRequests.
Context {P : Platform}.

Local Arguments createErrorResponse : simpl never.
Local Arguments createResponse : simpl never.
Local Arguments Regex.test : simpl never.


End InvalidApplicationRequests.

(** ** Reuse of the issuer URL *)

Section IssuerUrlReuse.
Context {P : Platform}.

(** The issuer URL is fetched once per five minutes: after a fetch of a
    non-empty URL (at a clock reading other than 0), every call made less
    than five minutes later returns that URL and sends nothing, even if
    the parameter has been changed in between; a call made five minutes
    later or more returns the parameter's new value. *)
Theorem issuer_url_is_fetched_once (w : world) (url : string) :
  ~ cache_fresh w ->
  issuer_url_param (ssm w) = Some url ->
  url <> "" ->
  clock w <> 0%Z ->
  exists w1,
    getIssuerUrl w = (Return (VStr url), w1)
    /\ forall (later : Z) (changed : parameters),
         let w2 := with_ssm changed (with_clock later w1) in
         ((later - clock w < 5 * 60 * 1000)%Z ->
          getIssuerUrl w2 = (Return (VStr url), w2))
         /\ ((5 * 60 * 1000 <= later - clock w)%Z ->
             forall url', issuer_url_param changed = Some url' ->
             fst (getIssuerUrl w2) = Return (VStr url')).
Proof.
  intros Hstale Hparam Hurl Hclock.
  assert (Hinvalid : cache_valid (clock w) w = false).
  { destruct (cache_valid (clock w) w) eqn:E; [|reflexivity].
    exfalso. apply Hstale. apply cache_valid_fresh. exact E. }
  rewrite (getIssuerUrl_fetched w Hinvalid), Hparam.
  eexists. split; [reflexivity|].
  intros later changed w2. subst w2. split.
  - intros Hsoon. apply getIssuerUrl_cached. apply cache_valid_fresh.
    split; [apply truthy_string; exact Hurl|].
    exists (clock w). cbn. repeat split; assumption.
  - intros Hlate url' Hchanged.
    rewrite getIssuerUrl_fetched.
    + cbn. rewrite Hchanged. reflexivity.
    + unfold cache_valid, CACHE_TTL_MS. cbn.
      replace (later - clock w <? 300000)%Z with false;
        [apply andb_false_r|].
      symmetry. apply Z.ltb_ge. exact Hlate.
Qed.

End IssuerUrlReuse.

(** ** Passwords that are not strings *)

Section PasswordTypes.
Context {P : Platform}.

Local Arguments createErrorResponse : simpl never.
Local Arguments createResponse : simpl never.
Local Arguments Regex.test : simpl never.


End PasswordTypes.

(** ** Redirect URIs that are cleared *)

Section ClearedRedirectUris.
Context {P : Platform}.




End ClearedRedirectUris.

(** ** Logging in after creation *)

Section LogIn.
Context {P : Platform}.

Local Arguments createErrorResponse : simpl never.
Local Arguments createResponse : simpl never.

Lemma handleCreateUser_stores (event : obj) (username password email : string)
  (w : world) :
  obj_get event "username" = VStr username ->
  obj_get event "password" = VStr password ->
  obj_get event "email" = VStr email ->
  Regex.matches Regex.username_format username = true ->
  Regex.matches Regex.email_format email = true ->
  (8 <= String.length password)%nat ->
  stored_with users [("username", VStr username)] w = false ->
  snd (ManagementUser.handleCreateUser event w)
  = user_stored
      (new_user username password email (username_queried username w))
      (username_queried username w).
Proof.
  intros Hu Hp He Mu Me Hlen Hfresh.
  unfold ManagementUser.handleCreateUser. cbv zeta. rewrite Hu, Hp, He.
  rewrite (truthy_string username)
    by (eapply matches_nonempty; [|exact Mu]; reflexivity).
  rewrite (truthy_string email)
    by (eapply matches_nonempty; [|exact Me]; reflexivity).
  rewrite (truthy_string password)
    by (intros ->; simpl in Hlen; lia).
  unfold Regex.test. cbn [to_string]. rewrite Mu, Me. cbn [negb orb].
  unfold bind at 1. cbn [get_length length_of ret].
  replace (less_than (VNum (Z.of_nat (String.length password))) 8)
    with false
    by (symmetry; unfold less_than, to_number; apply Z.ltb_ge; lia).
  unfold stored_with in Hfresh.
  rewrite (existsb_ext _
             (fun item => scalar_eqb (obj_get item "username")
                            (VStr username))) in Hfresh
    by (intros x; unfold has_key; simpl; apply andb_true_r).
  apply existsb_false_filter in Hfresh.
  unfold bind at 1.
  unfold getUserByUsername, queryItems, bind, send, modify, read, ret.
  cbn. cbn in Hfresh. rewrite Hfresh. reflexivity.
Qed.

(** A user created through the handler can log in: after a valid
    createUser request for a username that was free,
    [verifyUserPassword] with the username returns the stored user for
    exactly the plaintexts that [bcrypt.compare] accepts against the hash
    of the password of the request, and [null] for the others. *)
Theorem created_user_can_log_in (event : obj)
  (username password email : string) (w : world) :
  obj_get event "operation" = VStr "createUser" ->
  obj_get event "username" = VStr username ->
  obj_get event "password" = VStr password ->
  obj_get event "email" = VStr email ->
  Regex.matches Regex.username_format username = true ->
  Regex.matches Regex.email_format email = true ->
  (8 <= String.length password)%nat ->
  stored_with users [("username", VStr username)] w = false ->
  let w' := snd (ManagementUser.handler event w) in
  let hash := bcrypt_digest password 10 (S (entropy w)) in
  exists user,
    fst (getUserById (VStr (uuid_v4 (entropy w))) w') = Return (VObj user)
    /\ obj_get user "username" = VStr username
    /\ forall attempt,
         fst (verifyUserPassword (VStr username) (VStr attempt) w')
         = Return (if bcrypt_matches attempt hash then VObj user else VNull).
Proof.
  intros Hop Hu Hp He Mu Me Hlen Hfresh w' hash. subst w'.
  unfold ManagementUser.handler. rewrite snd_answered, Hop.
  change (truthy (VStr "createUser")) with true.
  change (is_string (VStr "createUser") "createUser") with true.
  cbv iota zeta. cbn [negb].
  rewrite (handleCreateUser_stores event username password email w)
    by assumption.
  exists (new_user username password email (username_queried username w)).
  split; [apply getUserById_stored; reflexivity|].
  split; [reflexivity|].
  intros attempt.
  apply (verifyUserPassword_sole_user _ username attempt hash);
    [reflexivity|reflexivity|exact Hfresh].
Qed.

End LogIn.

(** ** Referential integrity *)

Section ReferentialIntegrity.
Context {P : Platform}.

Lemma known_kept (k : string) (v : value) (l l' added : list obj) :
  map (key_of [k]) l' = (map (key_of [k]) l ++ added)%list ->
  existsb (has_key [(k, v)]) l = true ->
  existsb (has_key [(k, v)]) l' = true.
Proof.
  intros Hmap H. apply existsb_exists in H. destruct H as (i & Hi & Hkey).
  assert (Hin : In (key_of [k] i) (map (key_of [k]) l')).
  { rewrite Hmap. apply in_or_app. left. apply in_map. exact Hi. }
  apply in_map_iff in Hin. destruct Hin as (i' & E & Hi').
  apply existsb_exists. exists i'. split; [exact Hi'|].
  unfold key_of in E. simpl in E. injection E as E.
  unfold has_key in *. simpl in *. rewrite E. exact Hkey.
Qed.

Lemma forallb_put (ks : list string) (f : obj -> bool) (item : obj)
  (l : list obj) :
  f item = true -> forallb f l = true -> forallb f (put ks item l) = true.
Proof.
  intros Hitem. induction l as [|i l IH]; simpl.
  - intros _. rewrite Hitem. reflexivity.
  - intros H. apply andb_true_iff in H. destruct H as [Hi Hl].
    destruct (same_key ks i item); simpl.
    + rewrite Hitem. exact Hl.
    + rewrite Hi. apply IH. exact Hl.
Qed.

Lemma forallb_impl (f g : obj -> bool) (l : list obj) :
  (forall i, f i = true -> g i = true) ->
  forallb f l = true -> forallb g l = true.
Proof.
  intros H. rewrite !forallb_forall. intros Hf i Hi. apply H, Hf, Hi.
Qed.

(** A run that leaves the applications alone and keeps the keys of the
    clients keeps every application's client. *)
Lemma applications_keep_clients (own : table) (w w' : world) :
  own <> applications ->
  confined own w w' ->
  applications_have_clients (db w) = true ->
  applications_have_clients (db w') = true.
Proof.
  intros Hown (Hkeys & Hother & _) H.
  unfold applications_have_clients in *.
  pose proof (Hother applications (fun E => Hown (eq_sym E))) as Happs.
  cbn [items] in Happs. rewrite Happs.
  revert H. apply forallb_impl. intros a. unfold client_known.
  destruct (Hkeys clients) as [added Hadded]. cbn [items table_key] in Hadded.
  apply (known_kept _ _ _ _ _ Hadded).
Qed.

(** A run that leaves the mappings alone and keeps the keys of the users
    and of the applications keeps every mapping's parties. *)
Lemma mappings_keep_parties (own : table) (w w' : world) :
  own <> userApplications ->
  confined own w w' ->
  mappings_have_parties (db w) = true ->
  mappings_have_parties (db w') = true.
Proof.
  intros Hown (Hkeys & Hother & _) H.
  unfold mappings_have_parties in *.
  pose proof (Hother userApplications (fun E => Hown (eq_sym E))) as Hmaps.
  cbn [items] in Hmaps. rewrite Hmaps.
  revert H. apply forallb_impl. intros m. unfold parties_known.
  rewrite !andb_true_iff. intros [Hu Ha].
  destruct (Hkeys users) as [added1 H1]. cbn [items table_key] in H1.
  destruct (Hkeys applications) as [added2 H2]. cbn [items table_key] in H2.
  split; [exact (known_kept _ _ _ _ _ H1 Hu)|exact (known_kept _ _ _ _ _ H2 Ha)].
Qed.

Lemma found_is_stored (f : obj -> bool) (l : list obj) (item : obj) :
  find f l = Some item -> existsb f l = true.
Proof.
  intros F. apply find_some in F. apply existsb_exists.
  exists item. exact F.
Qed.

Lemma found_satisfies (f g : obj -> bool) (l : list obj) (item : obj) :
  find f l = Some item -> forallb g l = true -> g item = true.
Proof.
  intros F H. apply find_some in F. rewrite forallb_forall in H.
  apply H, F.
Qed.

(** A field of the updated record that the code does not set itself. *)
Lemma updated_record_field (pins stored updates : obj) (now : Z)
  (k : string) :
  well_formed pins -> well_formed updates -> well_formed stored ->
  ~ In k (keys pins) -> k <> "updated_at" ->
  obj_get (updated_record pins stored updates now) k
  = if obj_has updates k then obj_get updates k else obj_get stored k.
Proof.
  intros WFp WFu WFs Hk Hat. unfold updated_record.
  rewrite obj_get_set_other by exact Hat.
  change (fold_left _ pins ?base) with (spread base pins).
  rewrite obj_get_spread by exact WFp.
  destruct (obj_has pins k) eqn:Hhas.
  - exfalso. apply Hk. apply obj_has_pins. exact Hhas.
  - rewrite obj_get_spread by exact WFu.
    rewrite obj_get_spread_nil by exact WFs. reflexivity.
Qed.

Local Arguments createErrorResponse : simpl never.
Local Arguments createResponse : simpl never.
Local Arguments Regex.test : simpl never.
Local Arguments stripped : simpl never.
Local Arguments updated_record : simpl never.

Lemma createApplication_keeps_clients (event : obj) (w : world) :
  applications_have_clients (db w) = true ->
  applications_have_clients
    (db (snd (ManagementApplication.handleCreateApplication event w)))
  = true.
Proof.
  intros H. unfold ManagementApplication.handleCreateApplication. cbv zeta.
  destruct (negb (truthy (obj_get event "client_id")) || _); [exact H|].
  destruct (truthy (obj_get event "application_id") && _); [exact H|].
  unfold getClientById, getApplicationById, createApplication, uuidv4, draw,
    getItem, putItem, now_ISO, Date_now, bind, send, modify, read, ret.
  cbn.
  destruct (find _ (CLIENTS_TABLE (db w))) as [client|] eqn:Fc; cbn;
    [|exact H].
  apply found_is_stored in Fc.
  destruct (truthy (obj_get event "application_id")); cbn.
  - destruct (find _ (APPLICATIONS_TABLE (db w))); cbn; [exact H|].
    destruct (truthy (or_else (obj_get event "application_id") VNull)); cbn;
      (apply forallb_put; [exact Fc|exact H]).
  - destruct (truthy (or_else (obj_get event "application_id") VNull)); cbn;
      (apply forallb_put; [exact Fc|exact H]).
Qed.

Lemma updateApplication_keeps_clients (event : obj) (w : world) :
  well_formed event ->
  Forall well_formed (APPLICATIONS_TABLE (db w)) ->
  (obj_has event "client_id" = true ->
   truthy (obj_get event "client_id") = true) ->
  applications_have_clients (db w) = true ->
  applications_have_clients
    (db (snd (ManagementApplication.handleUpdateApplication event w)))
  = true.
Proof.
  intros WF WFdb Hgiven H.
  unfold ManagementApplication.handleUpdateApplication. cbv zeta.
  change (obj_delete (obj_delete event "application_id") "operation")
    with (stripped ["application_id"] event).
  destruct (negb (truthy (obj_get event "application_id"))); [exact H|].
  destruct (Nat.eqb _ 0); [exact H|].
  assert (Hget : obj_get (stripped ["application_id"] event) "client_id"
                 = obj_get event "client_id").
  { unfold stripped. simpl.
    rewrite !obj_get_delete_other by discriminate. reflexivity. }
  assert (Hhas : obj_has (stripped ["application_id"] event) "client_id"
                 = obj_has event "client_id").
  { unfold stripped. simpl. rewrite !obj_has_delete.
    rewrite !andb_true_r. reflexivity. }
  rewrite Hget.
  assert (Hknown :
            forall stored w1,
              db w1 = db w ->
              (truthy (obj_get event "client_id") = true ->
               existsb (has_key [("client_id", obj_get event "client_id")])
                 (CLIENTS_TABLE (db w)) = true) ->
              find (has_key [("application_id",
                              obj_get event "application_id")])
                (APPLICATIONS_TABLE (db w)) = Some stored ->
              applications_have_clients
                (db (snd (updateApplication (obj_get event "application_id")
                            (stripped ["application_id"] event) w1)))
              = true).
  { intros stored w1 Hdb Hclient F.
    rewrite updateApplication_run. unfold update_outcome.
    rewrite Hdb. cbn [items]. rewrite F. cbn [snd db with_db with_items].
    unfold applications_have_clients. cbn.
    apply forallb_put; [|exact H].
    unfold client_known. cbn.
    rewrite updated_record_field;
      [|repeat constructor; simpl; tauto
       |apply well_formed_stripped; exact WF
       |rewrite Forall_forall in WFdb; apply WFdb;
        apply find_some in F; apply F
       |simpl; intuition discriminate
       |discriminate].
    rewrite Hhas, Hget.
    destruct (obj_has event "client_id") eqn:E.
    - apply Hclient. apply Hgiven. reflexivity.
    - exact (found_satisfies _ _ _ _ F H). }
  unfold getClientById, getApplicationById, getItem, bind, send, modify,
    read, ret.
  destruct (truthy (obj_get event "client_id")) eqn:Hc.
  - cbn [items db with_sent fst snd].
    destruct (find _ (CLIENTS_TABLE (db w))) as [client|] eqn:Fc;
      cbn [truthy negb]; [|exact H].
    apply found_is_stored in Fc.
    cbn [items db with_sent fst snd].
    destruct (find _ (APPLICATIONS_TABLE (db w))) as [stored|] eqn:F;
      cbn [truthy negb]; [|exact H].
    match goal with
    | |- context [updateApplication ?id ?u ?w1] =>
        pose proof (Hknown stored w1 eq_refl (fun _ => Fc) eq_refl) as Hdone;
        destruct (updateApplication id u w1) as [[updated|e] w2]
    end; exact Hdone.
  - cbn [items db with_sent fst snd].
    destruct (find _ (APPLICATIONS_TABLE (db w))) as [stored|] eqn:F;
      cbn [truthy negb]; [|exact H].
    match goal with
    | |- context [updateApplication ?id ?u ?w1] =>
        pose proof (Hknown stored w1 eq_refl
                      (fun T => False_ind _ (diff_false_true T)) eq_refl)
          as Hdone;
        destruct (updateApplication id u w1) as [[updated|e] w2]
    end; exact Hdone.
Qed.

Lemma createUserApplication_keeps_parties (event : obj) (w : world) :
  mappings_have_parties (db w) = true ->
  mappings_have_parties
    (db (snd (ManagementUserApplication.handleCreateUserApplication event w)))
  = true.
Proof.
  intros H.
  unfold ManagementUserApplication.handleCreateUserApplication. cbv zeta.
  destruct (negb (truthy (obj_get event "user_id")) || _); [exact H|].
  unfold getUserById, getApplicationById, getUserApplication,
    createUserApplication, getItem, putItem, now_ISO, Date_now, bind, send,
    modify, read, ret.
  cbn.
  destruct (find _ (USERS_TABLE (db w))) as [user|] eqn:Fu; cbn; [|exact H].
  destruct (find _ (APPLICATIONS_TABLE (db w))) as [application|] eqn:Fa;
    cbn; [|exact H].
  destruct (find _ (USER_APPLICATIONS_TABLE (db w))); cbn; [exact H|].
  apply found_is_stored in Fu, Fa.
  apply forallb_put; [|exact H].
  unfold parties_known. cbn. rewrite Fu, Fa. reflexivity.
Qed.

Lemma updateUserApplication_keeps_parties (event : obj) (w : world) :
  mappings_have_parties (db w) = true ->
  mappings_have_parties
    (db (snd (ManagementUserApplication.handleUpdateUserApplication event w)))
  = true.
Proof.
  intros H.
  unfold ManagementUserApplication.handleUpdateUserApplication. cbv zeta.
  destruct (negb (truthy (obj_get event "user_id")) || _); [exact H|].
  destruct (Nat.eqb _ 0); [exact H|].
  unfold bind at 1. unfold getUserApplication at 1.
  unfold getItem, bind, send, modify, read, ret.
  cbn [items db with_sent fst snd].
  destruct (find _ (USER_APPLICATIONS_TABLE (db w))) as [stored|] eqn:F;
    cbn [truthy negb]; [|exact H].
  rewrite updateUserApplication_run. unfold update_outcome.
  cbn [items db with_sent]. rewrite F. cbn [snd db with_db with_items].
  unfold mappings_have_parties. cbn.
  apply forallb_put; [|exact H].
  pose proof (found_satisfies _ _ _ _ F H) as Hstored.
  destruct (find_has_key _ _ _ F) as [_ Hkey].
  pose proof (Hkey "user_id" _ (or_introl eq_refl)) as Hu.
  pose proof (Hkey "application_id" _ (or_intror (or_introl eq_refl))) as Ha.
  apply scalar_eqb_eq in Hu, Ha.
  unfold parties_known in *. unfold updated_record. cbn [fold_left fst snd].
  rewrite (obj_get_set_other _ "updated_at" "user_id") by discriminate.
  rewrite (obj_get_set_other _ "application_id" "user_id") by discriminate.
  rewrite obj_get_set_same.
  rewrite (obj_get_set_other _ "updated_at" "application_id")
    by discriminate.
  rewrite obj_get_set_same.
  rewrite <- Hu, <- Ha. exact Hstored.
Qed.

(** The references between the tables stay valid. If every application
    belongs to a stored client, and every mapping links a stored user to a
    stored application, the same holds after any invocation of any of the
    four handlers - for events that are JSON objects and do not carry an
    empty, null, zero or false [client_id]: such a [client_id] is not
    checked by an application update and would be stored. *)
Theorem references_stay_valid (event : obj) (w : world) :
  well_formed event ->
  Forall well_formed (APPLICATIONS_TABLE (db w)) ->
  (obj_has event "client_id" = true ->
   truthy (obj_get event "client_id") = true) ->
  keeps_references w (snd (ManagementUser.handler event w))
  /\ keeps_references w (snd (ManagementClient.handler event w))
  /\ keeps_references w (snd (ManagementApplication.handler event w))
  /\ keeps_references w (snd (ManagementUserApplication.handler event w)).
Proof.
  intros WF WFdb Hgiven. unfold keeps_references.
  split; [|split; [|split]].
  - split.
    + apply (applications_keep_clients users); [discriminate|].
      apply user_handler_confined.
    + apply (mappings_keep_parties users); [discriminate|].
      apply user_handler_confined.
  - split.
    + apply (applications_keep_clients clients); [discriminate|].
      apply client_handler_confined.
    + apply (mappings_keep_parties clients); [discriminate|].
      apply client_handler_confined.
  - split.
    + intros H. unfold ManagementApplication.handler.
      rewrite snd_answered. cbv zeta.
      destruct (negb (truthy (obj_get event "operation"))); [exact H|].
      destruct (is_string _ "createApplication");
        [apply createApplication_keeps_clients; exact H|].
      destruct (is_string _ "updateApplication");
        [apply updateApplication_keeps_clients; assumption|].
      exact H.
    + apply (mappings_keep_parties applications); [discriminate|].
      apply application_handler_confined.
  - split.
    + apply (applications_keep_clients userApplications); [discriminate|].
      apply mapping_handler_confined.
    + intros H. unfold ManagementUserApplication.handler.
      rewrite snd_answered. cbv zeta.
      destruct (negb (truthy (obj_get event "operation"))); [exact H|].
      destruct (is_string _ "createUserApplication");
        [apply createUserApplication_keeps_parties; exact H|].
      destruct (is_string _ "updateUserApplication");
        [apply updateUserApplication_keeps_parties; exact H|].
      exact H.
Qed.

End ReferentialIntegrity.

(** ** One record per invocation *)

Section OneWrite.
Context {P : Platform}.

Local Arguments createErrorResponse : simpl never.
Local Arguments createResponse : simpl never.
Local Arguments Regex.test : simpl never.
Local Arguments check_redirect_uris : simpl never.
Local Arguments less_than : simpl never.
Local Arguments put : simpl never.
Local Arguments updated_record : simpl never.

(** Splits a run along the tests it makes, down to its last state. *)
Ltac run_paths :=
  repeat match goal with
         | |- context [if ?b then _ else _] => destruct b; cbn
         | |- context [match find ?f ?l with _ => _ end] =>
             destruct (find f l); cbn
         | |- context [match filter ?f ?l with _ => _ end] =>
             destruct (filter f l); cbn
         | |- context [match length_of ?v with _ => _ end] =>
             destruct (length_of v); cbn
         | |- context [match member ?v ?k with _ => _ end] =>
             destruct (member v k); cbn
         | |- context [match check_redirect_uris ?u with _ => _ end] =>
             destruct (check_redirect_uris u); cbn
         | |- context [match obj_get ?o ?k with _ => _ end] =>
             destruct (obj_get o k); cbn
         | |- context [match ?x with _ => _ end] => is_var x; destruct x; cbn
         end.

Ltac one_write :=
  first [ left; reflexivity | right; eexists; reflexivity ].

Lemma user_handler_writes_once (event : obj) (w : world) :
  wrote_at_most_one users w (snd (ManagementUser.handler event w)).
Proof.
  unfold ManagementUser.handler.
  rewrite snd_answered. cbv zeta.
  unfold ManagementUser.handleCreateUser, ManagementUser.handleResetPassword,
    call3, createUser, updateUserPassword, getUserByUsername, getUserById,
    queryItems, getItem, putItem, get_length, get, bcrypt_hash, uuidv4, draw,
    now_ISO, Date_now, bind, send, modify, read, ret, throw.
  cbn. run_paths; one_write.
Qed.

Lemma client_handler_writes_once (event : obj) (w : world) :
  wrote_at_most_one clients w (snd (ManagementClient.handler event w)).
Proof.
  unfold ManagementClient.handler.
  rewrite snd_answered. cbv zeta.
  unfold ManagementClient.handleCreateClient,
    ManagementClient.handleUpdateClient, createClient, updateClient,
    getClientById, getItem, putItem, now_ISO, Date_now, bind, send, modify,
    read, ret, throw.
  cbn. run_paths; one_write.
Qed.

Lemma application_handler_writes_once (event : obj) (w : world) :
  wrote_at_most_one applications w
    (snd (ManagementApplication.handler event w)).
Proof.
  unfold ManagementApplication.handler.
  rewrite snd_answered. cbv zeta.
  unfold ManagementApplication.handleCreateApplication,
    ManagementApplication.handleUpdateApplication, createApplication,
    updateApplication, getClientById, getApplicationById, getItem, putItem,
    uuidv4, draw, now_ISO, Date_now, bind, send, modify, read, ret, throw.
  cbn. run_paths; one_write.
Qed.

Lemma mapping_handler_writes_once (event : obj) (w : world) :
  wrote_at_most_one userApplications w
    (snd (ManagementUserApplication.handler event w)).
Proof.
  unfold ManagementUserApplication.handler.
  rewrite snd_answered. cbv zeta.
  unfold ManagementUserApplication.handleCreateUserApplication,
    ManagementUserApplication.handleUpdateUserApplication,
    createUserApplication, updateUserApplication, getUserById,
    getApplicationById, getUserApplication, getItem, putItem, now_ISO,
    Date_now, bind, send, modify, read, ret, throw.
  cbn. run_paths; one_write.
Qed.

Lemma has_key_same_key (ks : list string) (key i item : obj) :
  keys key = ks -> same_key ks i item = true ->
  has_key key i = has_key key item.
Proof.
  intros <- S. unfold same_key, keys in S. rewrite forallb_forall in S.
  unfold has_key. induction key as [|[k v] key IH]; simpl; [reflexivity|].
  rewrite IH by (intros x Hx; apply S; right; exact Hx).
  rewrite (scalar_eqb_eq _ _ (S k (or_introl eq_refl))). reflexivity.
Qed.

(** After at most one put, a lookup under any key but that of the item
    written gives what it gave before. *)
Lemma one_write_frame (own : table) (w w' : world) :
  wrote_at_most_one own w w' ->
  exists written,
    forall key, keys key = table_key own -> has_key key written = false ->
    fst (getItem own key w') = fst (getItem own key w).
Proof.
  intros [Hsame|[item Hput]].
  - exists []. intros key _ _. rewrite !getItem_value, Hsame. reflexivity.
  - exists item. intros key Hkeys Hother.
    rewrite !getItem_value, Hput, items_with_items.
    rewrite find_put_other; [reflexivity|exact Hother|].
    intros i S. rewrite (has_key_same_key _ _ _ _ Hkeys S). exact Hother.
Qed.

(** Each invocation of a management handler puts at most one item, into
    the handler's own table: looking up any other key of that table gives
    what it gave before the invocation. *)
Theorem one_record_per_invocation (event : obj) (w : world) :
  let touches_one (own : table) (w' : world) :=
    wrote_at_most_one own w w'
    /\ exists written,
         forall key,
           keys key = table_key own -> has_key key written = false ->
           fst (getItem own key w') = fst (getItem own key w) in
  touches_one users (snd (ManagementUser.handler event w))
  /\ touches_one clients (snd (ManagementClient.handler event w))
  /\ touches_one applications (snd (ManagementApplication.handler event w))
  /\ touches_one userApplications
       (snd (ManagementUserApplication.handler event w)).
Proof.
  intros touches_one. subst touches_one. cbv beta.
  pose proof (user_handler_writes_once event w) as H1.
  pose proof (client_handler_writes_once event w) as H2.
  pose proof (application_handler_writes_once event w) as H3.
  pose proof (mapping_handler_writes_once event w) as H4.
  split; [split; [exact H1|exact (one_write_frame _ _ _ H1)]|].
  split; [split; [exact H2|exact (one_write_frame _ _ _ H2)]|].
  split; [split; [exact H3|exact (one_write_frame _ _ _ H3)]|].
  split; [exact H4|exact (one_write_frame _ _ _ H4)].
Qed.

End OneWrite.

(** ** Stored keys that cannot be read *)

Section UnreadableKeys.
Context {P : Platform}.

(** Signing keys are generated only over a stored structure that lacks a
    key. When the stored text is not JSON, or is the JSON text of [null],
    [getSigningKeys] fails - with the SyntaxError of [JSON.parse], or with
    a TypeError - after the one read: it draws no key and leaves the
    parameter as it is. *)
Theorem unreadable_keys_are_not_replaced (w : world) (text : string) :
  jwt_keys_param (ssm w) = Some text ->
  JSON_parse text = None \/ JSON_parse text = Some VNull ->
  exists e,
    getSigningKeys w = (Throw e, keys_read w)
    /\ (error_name e = "SyntaxError" \/ error_name e = "TypeError")
    /\ ssm (keys_read w) = ssm w
    /\ entropy (keys_read w) = entropy w.
Proof.
  intros Hstored Hparse.
  unfold getSigningKeys, try_catch, GetParameter, JSON_parse_text, bind,
    send, modify, read, ret, throw.
  cbn. rewrite Hstored.
  destruct Hparse as [Hparse|Hparse]; rewrite Hparse; cbn;
    eexists; (split; [reflexivity|]); (split; [|split; reflexivity]);
    [left|right]; reflexivity.
Qed.

End UnreadableKeys.

(** ** The example payloads, run on the simulated platform *)

Section PayloadExamples.
#[local] Existing Instance Sim.platform.
#[local] Existing Instance Sim.randomness.

(** The client of the scenarios: accepted with its secret and redirect URI,
    refused with another secret, accepted when the secret is empty. *)
Lemma validateClient_checks_witness :
  let client :=
    [("client_id", VStr "my-app-client");
     ("client_secret", VStr "my-secure-secret-123");
     ("redirect_uris", VArr [VStr "https://myapp.example.com/callback"]);
     ("name", VStr "My Application"); ("description", VStr "");
     ("created_at", VStr "T+5ms"); ("updated_at", VStr "T+5ms")] in
  fst (getClientById (VStr "my-app-client") one_client)
  = Return (VObj client)
  /\ fst (validateClient (VStr "my-app-client")
            (VStr "my-secure-secret-123")
            (VStr "https://myapp.example.com/callback") one_client)
     = Return (VObj client)
  /\ fst (validateClient (VStr "my-app-client") (VStr "guess") VNull
            one_client)
     = Return VNull
  /\ fst (validateClient (VStr "my-app-client") (VStr "") VNull one_client)
     = Return (VObj client).
Proof.
  intros client.
  assert (H : fst (getClientById (VStr "my-app-client") one_client)
              = Return (VObj client)) by reflexivity.
  split; [exact H|].
  split; [|split].
  - exact (proj2 (proj2 (validateClient_checks (VStr "my-app-client")
                           (VStr "my-secure-secret-123")
                           (VStr "https://myapp.example.com/callback")
                           one_client)) client _ H eq_refl).
  - exact (proj2 (proj2 (validateClient_checks (VStr "my-app-client")
                           (VStr "guess") VNull one_client))
             client _ H eq_refl).
  - exact (proj2 (proj2 (validateClient_checks (VStr "my-app-client")
                           (VStr "") VNull one_client))
             client _ H eq_refl).
Defined.

(** The user of the first scenario resets the password: the new password
    is accepted afterwards, the old one no longer is. *)
Lemma password_reset_takes_effect_witness :
  (8 <= String.length "N3wPassw0rd!")%nat
  /\ fst (getUserByUsername (VStr "alice123") alice_created)
     = Return (VObj alice_record)
  /\ fst (getUserById (obj_get alice_record "user_id") alice_created)
     = Return (VObj alice_record)
  /\ exists updated w',
       ManagementUser.handler alice_reset alice_created
       = (Return
            (createResponse 200
               (VObj [("message", VStr "Password reset successfully");
                      ("username", VStr "alice123")])), w')
       /\ fst (getUserById (VStr "uuid-0") w') = Return (VObj updated)
       /\ obj_get updated "password_hash" = VStr "$2b$10$2$N3wPassw0rd!"
       /\ fst (verifyUserPassword (VStr "alice123") (VStr "N3wPassw0rd!") w')
          = Return (VObj updated)
       /\ fst (verifyUserPassword (VStr "alice123") (VStr "Passw0rd!") w')
          = Return VNull.
Proof.
  assert (Hlen : (8 <= String.length "N3wPassw0rd!")%nat) by (simpl; lia).
  assert (Hne : "alice123" <> "") by discriminate.
  assert (H1 : fst (getUserByUsername (VStr "alice123") alice_created)
               = Return (VObj alice_record)) by reflexivity.
  assert (H2 : fst (getUserById (obj_get alice_record "user_id")
                      alice_created)
               = Return (VObj alice_record)) by reflexivity.
  do 3 (split; [assumption|]).
  destruct (password_reset_takes_effect alice_reset "alice123"
              "N3wPassw0rd!" alice_record alice_created eq_refl eq_refl
              eq_refl Hne Hlen H1 H2)
    as (updated & w' & Hrun & Hget & Hhash & _ & _ & Hverify & _).
  exists updated, w'.
  split; [exact Hrun|]. split; [exact Hget|]. split; [exact Hhash|].
  split.
  - rewrite (Hverify "N3wPassw0rd!"). reflexivity.
  - rewrite (Hverify "Passw0rd!"). reflexivity.
Defined.







End PayloadExamples.

Section InvariantExamples.
#[local] Existing Instance Sim.platform.

Ltac distinct_names :=
  unfold well_formed; simpl;
  repeat (constructor; [simpl; intuition discriminate|]); constructor.

(** A second user joins the first. *)
Lemma usernames_stay_unique_witness :
  usernames_unique alice_created = true
  /\ usernames_unique (snd (ManagementUser.handler bob alice_created)) = true
  /\ List.length
       (USERS_TABLE (db (snd (ManagementUser.handler bob alice_created))))
     = 2%nat.
Proof.
  assert (H : usernames_unique alice_created = true) by reflexivity.
  split; [exact H|]. split; [|reflexivity].
  exact (usernames_stay_unique bob alice_created H).
Defined.



(** An address of the scenarios, and one with two at signs. *)
Lemma email_format_shape_witness :
  Regex.test Regex.email_format (VStr "a@example.com") = true
  /\ Regex.test Regex.email_format (VStr "a@b@example.com") = false
  /\ exists local domain tld,
       "a@example.com" = local ++ "@" ++ domain ++ "." ++ tld
       /\ email_part local /\ email_part domain /\ email_part tld.
Proof.
  split; [reflexivity|]. split; [reflexivity|].
  apply (proj1 (email_format_shape "a@example.com")). reflexivity.
Defined.

End InvariantExamples.

Section EdgeExamples.
#[local] Existing Instance Sim.platform.

Ltac distinct_names :=
  unfold well_formed; simpl;
  repeat (constructor; [simpl; intuition discriminate|]); constructor.

(** The URL fetched at time 1000 is still served at 300999, after the
    parameter was changed; at 301000 the new value is. *)
Lemma issuer_url_is_fetched_once_witness :
  ~ cache_fresh provisioned
  /\ exists w1,
       getIssuerUrl provisioned
       = (Return (VStr "https://issuer.example.com"), w1)
       /\ fst (getIssuerUrl (with_ssm (ssm (cached_at_1000 0))
                               (with_clock 300999 w1)))
          = Return (VStr "https://issuer.example.com")
       /\ fst (getIssuerUrl (with_ssm (ssm (cached_at_1000 0))
                               (with_clock 301000 w1)))
          = Return (VStr "https://new-issuer.example.com").
Proof.
  assert (Hstale : ~ cache_fresh provisioned)
    by (intros [H _]; discriminate H).
  assert (Hurl : "https://issuer.example.com" <> "") by discriminate.
  assert (Hclock : clock provisioned <> 0%Z) by discriminate.
  split; [exact Hstale|].
  destruct (issuer_url_is_fetched_once provisioned
              "https://issuer.example.com" Hstale eq_refl Hurl Hclock)
    as (w1 & Hrun & Hlater).
  exists w1. split; [exact Hrun|]. split.
  - rewrite (proj1 (Hlater 300999%Z (ssm (cached_at_1000 0))));
      [reflexivity|cbn; lia].
  - apply (proj2 (Hlater 301000%Z (ssm (cached_at_1000 0))));
      [cbn; lia|reflexivity].
Defined.



(** The user of the first scenario logs in; a password that differs in
    case is refused. *)
Lemma created_user_can_log_in_witness :
  Regex.matches Regex.username_format "alice123" = true
  /\ Regex.matches Regex.email_format "a@example.com" = true
  /\ (8 <= String.length "Passw0rd!")%nat
  /\ stored_with users [("username", VStr "alice123")] (Sim.cold 1000)
     = false
  /\ fst (verifyUserPassword (VStr "alice123") (VStr "Passw0rd!")
            alice_created)
     = Return (VObj alice_record)
  /\ fst (verifyUserPassword (VStr "alice123") (VStr "passw0rd!")
            alice_created)
     = Return VNull.
Proof.
  assert (Hlen : (8 <= String.length "Passw0rd!")%nat) by (simpl; lia).
  do 2 (split; [reflexivity|]). split; [exact Hlen|].
  split; [reflexivity|].
  destruct (created_user_can_log_in alice "alice123" "Passw0rd!"
              "a@example.com" (Sim.cold 1000) eq_refl eq_refl eq_refl
              eq_refl eq_refl eq_refl Hlen eq_refl)
    as (user & Hget & _ & Hverify).
  assert (Huser : user = alice_record).
  { change (fst (getUserById (VStr "uuid-0") alice_created)
            = Return (VObj user)) in Hget.
    cbn in Hget. injection Hget as <-. reflexivity. }
  subst user. unfold alice_created, Sim.after. split.
  - rewrite (Hverify "Passw0rd!"). reflexivity.
  - rewrite (Hverify "passw0rd!"). reflexivity.
Defined.

(** Mapping the user to the application keeps both kinds of reference
    valid. *)
Lemma references_stay_valid_witness :
  well_formed my_mapping
  /\ Forall well_formed (APPLICATIONS_TABLE (db application_created))
  /\ applications_have_clients (db application_created) = true
  /\ mappings_have_parties (db application_created) = true
  /\ (let w' :=
        snd (ManagementUserApplication.handler my_mapping application_created)
      in
      applications_have_clients (db w') = true
      /\ mappings_have_parties (db w') = true
      /\ List.length (USER_APPLICATIONS_TABLE (db w')) = 1%nat).
Proof.
  assert (WF : well_formed my_mapping) by distinct_names.
  assert (WFdb : Forall well_formed
                   (APPLICATIONS_TABLE (db application_created))).
  { change (APPLICATIONS_TABLE (db application_created))
      with [[("application_id", VStr "my-app-prod");
             ("client_id", VStr "my-app-client");
             ("name", VStr "Production Environment");
             ("description", VStr "");
             ("account", VStr "prod-account-123");
             ("created_at", VStr "T+1000ms");
             ("updated_at", VStr "T+1000ms")]].
    constructor; [distinct_names|constructor]. }
  assert (H1 : applications_have_clients (db application_created) = true)
    by reflexivity.
  assert (H2 : mappings_have_parties (db application_created) = true)
    by reflexivity.
  do 4 (split; [assumption|]).
  destruct (proj2 (proj2 (proj2
              (references_stay_valid my_mapping application_created WF WFdb
                 (fun H => False_ind _ (diff_false_true H)))))) as [K1 K2].
  split; [exact (K1 H1)|]. split; [exact (K2 H2)|reflexivity].
Defined.

(** An application update with an empty [client_id] is not checked against
    the clients and leaves the application without a stored client. *)
Lemma empty_client_id_is_stored :
  let event :=
    [("operation", VStr "updateApplication");
     ("application_id", VStr "my-app-prod"); ("client_id", VStr "")] in
  let w' := snd (ManagementApplication.handler event application_created) in
  applications_have_clients (db application_created) = true
  /\ applications_have_clients (db w') = false.
Proof. split; reflexivity. Qed.

End EdgeExamples.

Section KeysExample.
#[local] Existing Instance Sim.platform.

(** A parameter that holds text that is not JSON. *)
Lemma unreadable_keys_are_not_replaced_witness :
  let w :=
    with_ssm {| issuer_url_param := None; jwt_keys_param := Some "PENDING" |}
      (Sim.cold 1000) in
  JSON_parse "PENDING" = None
  /\ exists e,
       getSigningKeys w = (Throw e, keys_read w)
       /\ jwt_keys_param (ssm (keys_read w)) = Some "PENDING".
Proof.
  intros w.
  assert (Hparse : JSON_parse "PENDING" = None) by reflexivity.
  split; [exact Hparse|].
  destruct (unreadable_keys_are_not_replaced w "PENDING" eq_refl
              (or_introl Hparse)) as (e & Hrun & _).
  exists e. split; [exact Hrun|reflexivity].
Defined.

End KeysExample.
